(** * Schema matching and validation engine (core/validator.py)

    A shallow embedding of the matching and validation functions of
    [core/validator.py], with the properties of the engine stated and
    proved (or refuted) over it.

    Conventions of the embedding:
    - Python [str] is [string] (8-bit characters; the case mapping and the
      character classes are those of the ASCII range);
    - Python [dict] is an insertion-ordered association list ([Py.dict]);
    - Python [float] results of the score arithmetic are exact rationals
      ([Q]): the counts involved are small integers and every comparison
      made on them below is far from a rounding boundary;
    - [float(str)] gives the binary64 number nearest to the numeral, held
      as the rational it is ([PyFloat]);
    - a raised exception is the [Raise] outcome of the [Exc] monad. *)

From Stdlib Require Import String Ascii List Bool Arith ZArith QArith Lia Lqa.
Import ListNotations.

Local Open Scope string_scope.
Local Open Scope list_scope.

(* ================================================================= *)
(** ** The fragment of the Python runtime the validator relies on *)

Module Py.

(** Exceptions that can escape the functions modelled here. *)
Inductive exn : Type :=
| re_error (msg : string)        (* re.error: malformed pattern *)
| ValueError (msg : string)
| NotModelled (what : string).   (* pattern syntax outside the fragment *)

Inductive Exc (A : Type) : Type :=
| Ok (a : A)
| Raise (e : exn).
Arguments Ok {A} a.
Arguments Raise {A} e.

Definition bind {A B} (m : Exc A) (k : A -> Exc B) : Exc B :=
  match m with
  | Ok a => k a
  | Raise e => Raise e
  end.

(** [str.lower()] on the ASCII range. *)
Definition lower_ascii (c : ascii) : ascii :=
  let n := nat_of_ascii c in
  if andb (65 <=? n)%nat (n <=? 90)%nat then ascii_of_nat (n + 32) else c.

Fixpoint lower (s : string) : string :=
  match s with
  | EmptyString => EmptyString
  | String c s' => String (lower_ascii c) (lower s')
  end.

(** [s.replace(c, by)] for a one-character [c]. *)
Fixpoint replace (c : ascii) (by_ : string) (s : string) : string :=
  match s with
  | EmptyString => EmptyString
  | String a s' =>
      if Ascii.eqb a c then by_ ++ replace c by_ s'
      else String a (replace c by_ s')
  end.

(** Truthiness of a [str]: [not value] holds exactly for the empty
    string. *)
Definition truthy (s : string) : bool :=
  match s with EmptyString => false | _ => true end.

(** [s.startswith(p)]. *)
Definition startswith (s p : string) : bool := String.prefix p s.

(** Membership [x in xs] for a list of strings (and a set of strings). *)
Definition mem (x : string) (xs : list string) : bool :=
  existsb (String.eqb x) xs.

(** Insertion-ordered dictionaries with string keys. *)
Definition dict (V : Type) : Type := list (string * V).

Fixpoint get {V} (d : dict V) (k : string) : option V :=
  match d with
  | [] => None
  | (k', v) :: d' => if String.eqb k k' then Some v else get d' k
  end.

Definition get_default {V} (d : dict V) (k : string) (dflt : V) : V :=
  match get d k with Some v => v | None => dflt end.

Definition contains {V} (d : dict V) (k : string) : bool :=
  match get d k with Some _ => true | None => false end.

(** [d[k] = v]: an existing key keeps its position, a new key goes
    last. *)
Fixpoint set {V} (d : dict V) (k : string) (v : V) : dict V :=
  match d with
  | [] => [(k, v)]
  | (k', v') :: d' =>
      if String.eqb k k' then (k', v) :: d' else (k', v') :: set d' k v
  end.

Definition keys {V} (d : dict V) : list string := map fst d.

(** Whitespace as [\s] sees it on the ASCII range. *)
Definition is_space (c : ascii) : bool :=
  let n := nat_of_ascii c in
  orb (andb (9 <=? n)%nat (n <=? 13)%nat)
      (orb (andb (28 <=? n)%nat (n <=? 32)%nat) false).

Definition is_digit (c : ascii) : bool :=
  let n := nat_of_ascii c in andb (48 <=? n)%nat (n <=? 57)%nat.

Definition is_alpha (c : ascii) : bool :=
  let n := nat_of_ascii c in
  orb (andb (65 <=? n)%nat (n <=? 90)%nat)
      (andb (97 <=? n)%nat (n <=? 122)%nat).

Definition digit_val (c : ascii) : Z := Z.of_nat (nat_of_ascii c - 48).

Definition chars (s : string) : list ascii := list_ascii_of_string s.

(** Decimal rendering of a natural number, for [f"{field}_{k}"]. *)
Fixpoint digits_fuel (fuel n : nat) (acc : string) : string :=
  match fuel with
  | O => acc
  | S fuel' =>
      let d := String (ascii_of_nat (48 + n mod 10)) acc in
      if (n / 10 =? 0)%nat then d else digits_fuel fuel' (n / 10) d
  end.

Definition str_of_nat (n : nat) : string := digits_fuel (S n) n "".

End Py.

Import Py.

Notation "x <- m ;; k" := (Py.bind m (fun x => k))
  (at level 61, m at next level, right associativity).
Notation "' pat <- m ;; k" := (Py.bind m (fun x => match x with pat => k end))
  (at level 61, pat pattern, m at next level, right associativity).

(* ================================================================= *)
(** ** [Levenshtein.ratio] *)

(** The normalised similarity of the Levenshtein package:
    [(len1 + len2 - d) / (len1 + len2)], where [d] is the edit distance in
    which a substitution costs two, i.e. [2 * lcs / (len1 + len2)]; two
    empty strings have ratio 1. *)
Module Lev.

Fixpoint lcs_row (a : ascii) (ys : list ascii) (prev : list nat)
         (diag left : nat) : list nat :=
  match ys, prev with
  | y :: ys', up :: prev' =>
      let cur := if Ascii.eqb a y then S diag else Nat.max up left in
      cur :: lcs_row a ys' prev' up cur
  | _, _ => []
  end.

Fixpoint lcs_rows (xs ys : list ascii) (prev : list nat) : list nat :=
  match xs with
  | [] => prev
  | a :: xs' => lcs_rows xs' ys (lcs_row a ys prev 0 0)%nat
  end.

Definition lcs (s t : string) : nat :=
  let ys := Py.chars t in
  last (lcs_rows (Py.chars s) ys (repeat 0%nat (List.length ys))) 0%nat.

Definition ratio (s t : string) : Q :=
  let lensum := (String.length s + String.length t)%nat in
  match lensum with
  | O => 1
  | S _ => Z.of_nat (2 * lcs s t) # Pos.of_nat lensum
  end.

End Lev.

(* ================================================================= *)
(** ** [re.match] *)

(** A fragment of Python's [re]: literals, [.], [^], [$], the quantifiers
    [*], [+], [?] (and their lazy forms, which accept the same strings),
    alternation, groups, the escapes [\d \D \w \W \s \S \n \t \r \f \v]
    and escaped punctuation, and bracketed character sets with ranges and
    negation.  A pattern that Python rejects inside this fragment yields
    [re_error]; counted repetition, [(?...)] extensions, back-references
    and the escapes [\A \b \B \Z] are outside the fragment and reported as
    [NotModelled].  [re_match p s] is [bool(re.match(p, s))] without
    flags: the match starts at position 0, [.] excludes the newline and
    [$] holds at the end of the string or just before a final newline. *)
Module Re.

Inductive regex : Type :=
| Eps
| CharSet (p : ascii -> bool)
| Bol
| Eol
| Seq (r1 r2 : regex)
| Alt (r1 r2 : regex)
| Star (r : regex).

Definition newline : ascii := ascii_of_nat 10.

Definition not_newline (c : ascii) : bool := negb (Ascii.eqb c newline).

Definition any_char : regex := CharSet not_newline.

Definition at_end (s : list ascii) : bool :=
  match s with
  | [] => true
  | [c] => Ascii.eqb c newline
  | _ => false
  end.

(** The iterations of a starred body: try the body once more, then the
    rest of the pattern; otherwise the rest of the pattern alone.  An
    iteration that consumes nothing is cut, as in [re]; [n] bounds the
    number of iterations by the length of the remaining string. *)
Fixpoint star_loop
         (body : bool -> list ascii -> (bool -> list ascii -> bool) -> bool)
         (k : bool -> list ascii -> bool)
         (n : nat) (b : bool) (s0 : list ascii) {struct n} : bool :=
  orb
    (match n with
     | O => false
     | S n' =>
         body b s0
           (fun b' s' =>
              if (List.length s' <? List.length s0)%nat
              then star_loop body k n' b' s' else false)
     end)
    (k b s0).

(** Backtracking matcher in continuation-passing style.  [start] tells
    whether the position is the beginning of the string. *)
Fixpoint run (r : regex) (start : bool) (s : list ascii)
         (k : bool -> list ascii -> bool) {struct r} : bool :=
  match r with
  | Eps => k start s
  | CharSet p =>
      match s with
      | c :: s' => andb (p c) (k false s')
      | [] => false
      end
  | Bol => andb start (k start s)
  | Eol => andb (at_end s) (k start s)
  | Seq r1 r2 => run r1 start s (fun b s' => run r2 b s' k)
  | Alt r1 r2 => orb (run r1 start s k) (run r2 start s k)
  | Star r1 => star_loop (run r1) k (List.length s) start s
  end.

(** *** Parsing a pattern *)

Inductive kind : Type := Atom | Quantified | Lazy | Anchor.

Definition item : Type := (regex * kind)%type.

(** A group under construction: the alternatives already closed by [|]
    (most recent first) and the items of the current alternative (most
    recent first). *)
Record frame : Type := mkFrame {
  alts : list regex;
  items : list item
}.

(** The last member read in a character set, which a following dash may
    turn into the start of a range: nothing, a character, or a class
    escape (which cannot start a range). *)
Inductive pending : Type :=
| PNone
| PChar (a : ascii)
| PClass.

Record cls : Type := mkCls {
  cls_neg : bool;
  cls_set : ascii -> bool;
  cls_pending : pending;
  cls_dash : bool
}.

Inductive mode : Type :=
| Normal
| Escape
| GroupOpen                       (* just after an opening parenthesis *)
| ClsOpen                         (* just after an opening bracket *)
| ClsFirst (neg : bool)           (* first member: a closing bracket is literal *)
| Cls (c : cls)
| ClsEscape (c : cls).

Record pstate : Type := mkP {
  stack : list frame;
  cur : frame;
  pmode : mode
}.

Definition seq_of (its : list item) : regex :=
  fold_left (fun acc it => Seq (fst it) acc) its Eps.

Definition close_frame (f : frame) : regex :=
  fold_left (fun acc a => Alt a acc) (alts f) (seq_of (items f)).

Definition push_item (st : pstate) (r : regex) (kd : kind) : pstate :=
  mkP (stack st) (mkFrame (alts (cur st)) ((r, kd) :: items (cur st))) Normal.

Definition is_word (c : ascii) : bool :=
  orb (Py.is_alpha c) (orb (Py.is_digit c) (Ascii.eqb c "_"%char)).

(** The set denoted by a class escape, if [c] is one. *)
Definition class_escape (c : ascii) : option (ascii -> bool) :=
  if Ascii.eqb c "d"%char then Some Py.is_digit
  else if Ascii.eqb c "D"%char then Some (fun x => negb (Py.is_digit x))
  else if Ascii.eqb c "w"%char then Some is_word
  else if Ascii.eqb c "W"%char then Some (fun x => negb (is_word x))
  else if Ascii.eqb c "s"%char then Some Py.is_space
  else if Ascii.eqb c "S"%char then Some (fun x => negb (Py.is_space x))
  else None.

(** The character denoted by a literal escape. *)
Definition literal_escape (c : ascii) : Exc ascii :=
  if Ascii.eqb c "n"%char then Ok (ascii_of_nat 10)
  else if Ascii.eqb c "t"%char then Ok (ascii_of_nat 9)
  else if Ascii.eqb c "r"%char then Ok (ascii_of_nat 13)
  else if Ascii.eqb c "f"%char then Ok (ascii_of_nat 12)
  else if Ascii.eqb c "v"%char then Ok (ascii_of_nat 11)
  else if Ascii.eqb c "a"%char then Ok (ascii_of_nat 7)
  else if Py.is_digit c then Raise (NotModelled "back-reference or octal escape")
  else if orb (Ascii.eqb c "A"%char)
            (orb (Ascii.eqb c "b"%char)
               (orb (Ascii.eqb c "B"%char) (Ascii.eqb c "Z"%char)))
       then Raise (NotModelled "position escape")
  else if orb (Ascii.eqb c "x"%char)
            (orb (Ascii.eqb c "u"%char)
               (orb (Ascii.eqb c "U"%char) (Ascii.eqb c "N"%char)))
       then Raise (NotModelled "numeric or named character escape")
  else if Py.is_alpha c then Raise (re_error "bad escape")
  else Ok c.

Definition quantify (st : pstate) (c : ascii) : Exc pstate :=
  match items (cur st) with
  | [] => Raise (re_error "nothing to repeat")
  | (r, kd) :: rest =>
      let put r' kd' :=
        Ok (mkP (stack st) (mkFrame (alts (cur st)) ((r', kd') :: rest)) Normal) in
      match kd with
      | Anchor => Raise (re_error "nothing to repeat")
      | Lazy => Raise (re_error "multiple repeat")
      | Quantified =>
          if Ascii.eqb c "?"%char then put r Lazy
          else if Ascii.eqb c "+"%char
               then Raise (NotModelled "possessive quantifier")
               else Raise (re_error "multiple repeat")
      | Atom =>
          if Ascii.eqb c "*"%char then put (Star r) Quantified
          else if Ascii.eqb c "+"%char then put (Seq r (Star r)) Quantified
          else put (Alt r Eps) Quantified
      end
  end.

Definition in_range (a b x : ascii) : bool :=
  andb (nat_of_ascii a <=? nat_of_ascii x)%nat
       (nat_of_ascii x <=? nat_of_ascii b)%nat.

Definition union (p q : ascii -> bool) : ascii -> bool :=
  fun x => orb (p x) (q x).

Definition single (a : ascii) : ascii -> bool := fun x => Ascii.eqb x a.

(** The set accumulated so far, with a pending member and a pending
    dash taken literally. *)
Definition cls_flush (c : cls) : ascii -> bool :=
  let s1 := match cls_pending c with
            | PChar a => union (cls_set c) (single a)
            | _ => cls_set c
            end in
  if cls_dash c then union s1 (single "-"%char) else s1.

(** A literal member [x] inside a character set. *)
Definition cls_literal (c : cls) (x : ascii) : Exc cls :=
  match cls_pending c, cls_dash c with
  | PChar a, true =>
      if (nat_of_ascii a <=? nat_of_ascii x)%nat
      then Ok (mkCls (cls_neg c) (union (cls_set c) (in_range a x)) PNone false)
      else Raise (re_error "bad character range")
  | PClass, true => Raise (re_error "bad character range")
  | _, _ => Ok (mkCls (cls_neg c) (cls_flush c) (PChar x) false)
  end.

Definition cls_step (st : pstate) (c : cls) (x : ascii) : Exc pstate :=
  if Ascii.eqb x "]"%char then
    let s := cls_flush c in
    Ok (push_item st
          (CharSet (if cls_neg c then fun y => negb (s y) else s)) Atom)
  else if Ascii.eqb x "\"%char then
    Ok (mkP (stack st) (cur st) (ClsEscape c))
  else if andb (Ascii.eqb x "-"%char)
               (andb (negb (cls_dash c))
                     (match cls_pending c with PNone => false | _ => true end))
  then Ok (mkP (stack st) (cur st)
             (Cls (mkCls (cls_neg c) (cls_set c) (cls_pending c) true)))
  else
    c' <- cls_literal c x ;;
    Ok (mkP (stack st) (cur st) (Cls c')).

Definition empty_cls (neg : bool) : cls :=
  mkCls neg (fun _ => false) PNone false.

Definition step (st : pstate) (x : ascii) : Exc pstate :=
  match pmode st with
  | Normal | GroupOpen =>
      if andb (Ascii.eqb x "?"%char)
              (match pmode st with GroupOpen => true | _ => false end)
      then Raise (NotModelled "group extension")
      else if Ascii.eqb x "\"%char then Ok (mkP (stack st) (cur st) Escape)
      else if Ascii.eqb x "."%char then Ok (push_item st any_char Atom)
      else if Ascii.eqb x "^"%char then Ok (push_item st Bol Anchor)
      else if Ascii.eqb x "$"%char then Ok (push_item st Eol Anchor)
      else if orb (Ascii.eqb x "*"%char)
                (orb (Ascii.eqb x "+"%char) (Ascii.eqb x "?"%char))
           then quantify (mkP (stack st) (cur st) Normal) x
      else if Ascii.eqb x "{"%char then Raise (NotModelled "counted repetition")
      else if Ascii.eqb x "|"%char then
        Ok (mkP (stack st)
              (mkFrame (seq_of (items (cur st)) :: alts (cur st)) []) Normal)
      else if Ascii.eqb x "("%char then
        Ok (mkP (cur st :: stack st) (mkFrame [] []) GroupOpen)
      else if Ascii.eqb x ")"%char then
        match stack st with
        | [] => Raise (re_error "unbalanced parenthesis")
        | f :: fs =>
            Ok (mkP fs (mkFrame (alts f) ((close_frame (cur st), Atom) :: items f))
                  Normal)
        end
      else if Ascii.eqb x "["%char then Ok (mkP (stack st) (cur st) ClsOpen)
      else Ok (push_item st (CharSet (single x)) Atom)
  | Escape =>
      match class_escape x with
      | Some p => Ok (push_item st (CharSet p) Atom)
      | None => a <- literal_escape x ;; Ok (push_item st (CharSet (single a)) Atom)
      end
  | ClsOpen =>
      if Ascii.eqb x "^"%char then Ok (mkP (stack st) (cur st) (ClsFirst true))
      else if Ascii.eqb x "\"%char
           then Ok (mkP (stack st) (cur st) (ClsEscape (empty_cls false)))
           else Ok (mkP (stack st) (cur st)
                      (Cls (mkCls false (fun _ => false) (PChar x) false)))
  | ClsFirst neg =>
      if Ascii.eqb x "\"%char
      then Ok (mkP (stack st) (cur st) (ClsEscape (empty_cls neg)))
      else Ok (mkP (stack st) (cur st)
                 (Cls (mkCls neg (fun _ => false) (PChar x) false)))
  | Cls c => cls_step st c x
  | ClsEscape c =>
      match class_escape x with
      | Some p =>
          if cls_dash c then Raise (re_error "bad character range")
          else Ok (mkP (stack st) (cur st)
                     (Cls (mkCls (cls_neg c) (union (cls_flush c) p) PClass false)))
      | None =>
          a <- literal_escape x ;;
          c' <- cls_literal c a ;;
          Ok (mkP (stack st) (cur st) (Cls c'))
      end
  end.

Fixpoint steps (st : pstate) (p : list ascii) : Exc pstate :=
  match p with
  | [] => Ok st
  | x :: p' => st' <- step st x ;; steps st' p'
  end.

Definition finish (st : pstate) : Exc regex :=
  match pmode st with
  | Escape => Raise (re_error "bad escape (end of pattern)")
  | ClsOpen | ClsFirst _ | Cls _ | ClsEscape _ =>
      Raise (re_error "unterminated character set")
  | Normal | GroupOpen =>
      match stack st with
      | [] => Ok (close_frame (cur st))
      | _ :: _ => Raise (re_error "missing ), unterminated subpattern")
      end
  end.

Definition compile (pattern : string) : Exc regex :=
  st <- steps (mkP [] (mkFrame [] []) Normal) (Py.chars pattern) ;;
  finish st.

Definition re_match (pattern s : string) : Exc bool :=
  r <- compile pattern ;;
  Ok (run r true (Py.chars s) (fun _ _ => true)).

End Re.

(* ================================================================= *)
(** ** [float(str)] *)

(** The value of [float(s)]: a binary64 number (held as the rational it
    is, the two zeros alike), an infinity or a NaN; [None] stands for
    [ValueError].  The grammar is Python's: surrounding whitespace is
    dropped, underscores may separate digits, then an optional sign and
    either [inf], [infinity], [nan] (in any case) or a decimal numeral
    with an optional exponent, which is rounded to the nearest binary64
    number, ties to even. *)
Module PyFloat.

Inductive fval : Type :=
| Finite (q : Q)
| Inf (negative : bool)
| NaN.

(** What [float] drops around the numeral: the whitespace of C's
    [isspace], and the two code points below 256 that a [str] holds as
    whitespace outside the ASCII range (133 and 160), which are turned
    into a space before the parse.  The separators 28 to 31 are not
    dropped. *)
Definition is_float_space (c : ascii) : bool :=
  let n := nat_of_ascii c in
  orb (andb (9 <=? n)%nat (n <=? 13)%nat)
      (orb (n =? 32)%nat (orb (n =? 133)%nat (n =? 160)%nat)).

Fixpoint drop_space (s : list ascii) : list ascii :=
  match s with
  | c :: s' => if is_float_space c then drop_space s' else s
  | [] => []
  end.

Definition strip (s : list ascii) : list ascii :=
  rev (drop_space (rev (drop_space s))).

(** Underscores are accepted only between two digits, and removed. *)
Fixpoint drop_underscores (prev_digit : bool) (s : list ascii)
  : option (list ascii) :=
  match s with
  | [] => Some []
  | c :: s' =>
      if Ascii.eqb c "_"%char then
        match s' with
        | d :: _ =>
            if andb prev_digit (Py.is_digit d)
            then drop_underscores false s' else None
        | [] => None
        end
      else option_map (cons c) (drop_underscores (Py.is_digit c) s')
  end.

Fixpoint span_digits (s : list ascii) : list ascii * list ascii :=
  match s with
  | c :: s' =>
      if Py.is_digit c
      then let (ds, r) := span_digits s' in (c :: ds, r)
      else ([], s)
  | [] => ([], [])
  end.

Definition nat_digits (ds : list ascii) : Z :=
  fold_left (fun acc c => (10 * acc + Py.digit_val c)%Z) ds 0%Z.

Definition sign_of (s : list ascii) : bool * list ascii :=
  match s with
  | c :: s' =>
      if Ascii.eqb c "-"%char then (true, s')
      else if Ascii.eqb c "+"%char then (false, s')
      else (false, s)
  | [] => (false, [])
  end.

(** [m * 10 ^ e]. *)
Definition scale (m e : Z) : Q :=
  if (0 <=? e)%Z then inject_Z (m * 10 ^ e)
  else m # Z.to_pos (10 ^ (- e)).

(** The optional exponent part; [None] when what follows is not one. *)
Definition exponent (s : list ascii) : option Z :=
  match s with
  | [] => Some 0%Z
  | c :: s' =>
      if orb (Ascii.eqb c "e"%char) (Ascii.eqb c "E"%char) then
        let (neg, s1) := sign_of s' in
        let (ds, r) := span_digits s1 in
        match ds, r with
        | _ :: _, [] => Some (if neg then (- nat_digits ds)%Z else nat_digits ds)
        | _, _ => None
        end
      else None
  end.

(** A decimal numeral: the number its digits spell, the power of ten
    that goes with it, and how many digits there are. *)
Record decimal : Type := mkDecimal {
  dec_digits : Z;
  dec_exponent : Z;
  dec_length : nat
}.

Definition numeral (s : list ascii) : option decimal :=
  let (ip, r1) := span_digits s in
  let '(fp, r2) :=
    match r1 with
    | c :: r1' =>
        if Ascii.eqb c "."%char then span_digits r1' else ([], r1)
    | [] => ([], [])
    end in
  match ip ++ fp with
  | [] => None
  | ds =>
      match exponent r2 with
      | Some e => Some (mkDecimal (nat_digits ds) (e - Z.of_nat (List.length fp))
                          (List.length ds))
      | None => None
      end
  end.

(** The integer nearest to [a / b], for [b > 0]; of two equally near
    ones the even one. *)
Definition nearest_even (a b : Z) : Z :=
  let fl := (a / b)%Z in
  match (2 * (a mod b) ?= b)%Z with
  | Lt => fl
  | Gt => (fl + 1)%Z
  | Eq => if Z.even fl then fl else (fl + 1)%Z
  end.

(** The integer part of the binary logarithm of [n / d]. *)
Definition floor_log2 (n d : positive) : Z :=
  let k := (Z.log2 (Zpos n) - Z.log2 (Zpos d))%Z in
  if (0 <=? k)%Z
  then if (Zpos d * 2 ^ k <=? Zpos n)%Z then k else (k - 1)%Z
  else if (Zpos d <=? Zpos n * 2 ^ (- k))%Z then k else (k - 1)%Z.

(** The exponent of the last place of the binary64 numbers around
    [n / d]: 52 places below the leading one, but not below that of the
    subnormal numbers. *)
Definition last_place (n d : positive) : Z :=
  Z.max (floor_log2 n d - 52) (-1074).

(** [n / d] in units of the last place, rounded. *)
Definition significand (n d : positive) : Z :=
  let e := last_place n d in
  if (0 <=? e)%Z then nearest_even (Zpos n) (Zpos d * 2 ^ e)
  else nearest_even (Zpos n * 2 ^ (- e)) (Zpos d).

(** The binary64 number nearest to [n / d]; [None] when it would be
    2^1024 or more, which is an infinity. *)
Definition round_pos (n d : positive) : option Q :=
  let e := last_place n d in
  let m := significand n d in
  if (0 <=? e)%Z
  then if (2 ^ 1024 <=? m * 2 ^ e)%Z then None
       else Some (inject_Z (m * 2 ^ e))
  else Some (m # Z.to_pos (2 ^ (- e))).

(** The value of a numeral.  A numeral of 10^400 or more is an infinity
    and one below 10^-400 is zero whatever its digits, which spares the
    power of ten for exponents of any size. *)
Definition of_decimal (neg : bool) (d : decimal) : fval :=
  if (dec_digits d <=? 0)%Z then Finite 0
  else if (400 <? dec_exponent d)%Z then Inf neg
  else if (dec_exponent d + Z.of_nat (dec_length d) <? -400)%Z then Finite 0
  else
    let q := scale (dec_digits d) (dec_exponent d) in
    match Qnum q with
    | Zpos n =>
        match round_pos n (Qden q) with
        | Some r => Finite (if neg then - r else r)
        | None => Inf neg
        end
    | _ => Finite 0
    end.

(** What a string spells for [float]: an infinity, a NaN or a decimal
    numeral, and whether a minus sign comes first. *)
Inductive literal : Type :=
| LInf
| LNaN
| LNum (d : decimal).

Definition float_literal (s : string) : option (bool * literal) :=
  match drop_underscores false (strip (Py.chars s)) with
  | None => None
  | Some body =>
      let (neg, r) := sign_of body in
      let word := Py.lower (string_of_list_ascii r) in
      if orb (String.eqb word "inf") (String.eqb word "infinity")
      then Some (neg, LInf)
      else if String.eqb word "nan" then Some (neg, LNaN)
      else match numeral r with
           | Some d => Some (neg, LNum d)
           | None => None
           end
  end.

Definition value_of (neg : bool) (l : literal) : fval :=
  match l with
  | LInf => Inf neg
  | LNaN => NaN
  | LNum d => of_decimal neg d
  end.

Definition py_float (s : string) : option fval :=
  match float_literal s with
  | Some (neg, l) => Some (value_of neg l)
  | None => None
  end.

End PyFloat.

(* ================================================================= *)
(** ** [datetime.strptime] *)

(** [strptime] for the directives the validator's formats use ([%Y],
    [%m], [%d], [%b], [%B]) in the C locale.  As in [_strptime], the
    format becomes a regular expression whose alternatives are tried in
    order; the first match must cover the whole string, and the fields
    must then form a calendar date. *)
Module DateTime.

Inductive tok : Type :=
| TY | Tm | Td | Tb | TB
| TLit (c : ascii)
| TSpace                 (* a run of whitespace in the format: \s+ *)
| TBad.                  (* a directive outside the fragment *)

Definition directive (d : ascii) : tok :=
  if Ascii.eqb d "Y"%char then TY
  else if Ascii.eqb d "m"%char then Tm
  else if Ascii.eqb d "d"%char then Td
  else if Ascii.eqb d "b"%char then Tb
  else if Ascii.eqb d "B"%char then TB
  else TBad.

Fixpoint tokens (prev_space : bool) (fmt : list ascii) : list tok :=
  match fmt with
  | [] => []
  | c :: fmt' =>
      if Ascii.eqb c "%"%char then
        match fmt' with
        | d :: fmt'' => directive d :: tokens false fmt''
        | [] => [TBad]
        end
      else if Py.is_space c then
        if prev_space then tokens true fmt' else TSpace :: tokens true fmt'
      else TLit c :: tokens false fmt'
  end.

Record fields : Type := mkFields { year : Z; month : Z; day : Z }.

Definition two (a b : ascii) : Z := (10 * Py.digit_val a + Py.digit_val b)%Z.

Definition is_in (lo hi : nat) (c : ascii) : bool :=
  andb (lo <=? nat_of_ascii c)%nat (nat_of_ascii c <=? hi)%nat.

(** [%d]: 3[0-1] | [1-2]\d | 0[1-9] | [1-9] | space [1-9], in that
    order. *)
Definition match_d (s : list ascii) : list (Z * list ascii) :=
  (match s with
   | a :: b :: r =>
       (if andb (Ascii.eqb a "3"%char) (is_in 48 49 b) then [(two a b, r)] else [])
       ++ (if andb (is_in 49 50 a) (Py.is_digit b) then [(two a b, r)] else [])
       ++ (if andb (Ascii.eqb a "0"%char) (is_in 49 57 b) then [(two a b, r)] else [])
   | _ => []
   end)
  ++ (match s with
      | a :: r => if is_in 49 57 a then [(Py.digit_val a, r)] else []
      | [] => []
      end)
  ++ (match s with
      | a :: b :: r =>
          if andb (Ascii.eqb a " "%char) (is_in 49 57 b)
          then [(Py.digit_val b, r)] else []
      | _ => []
      end).

(** [%m]: 1[0-2] | 0[1-9] | [1-9]. *)
Definition match_m (s : list ascii) : list (Z * list ascii) :=
  (match s with
   | a :: b :: r =>
       (if andb (Ascii.eqb a "1"%char) (is_in 48 50 b) then [(two a b, r)] else [])
       ++ (if andb (Ascii.eqb a "0"%char) (is_in 49 57 b) then [(two a b, r)] else [])
   | _ => []
   end)
  ++ (match s with
      | a :: r => if is_in 49 57 a then [(Py.digit_val a, r)] else []
      | [] => []
      end).

(** [%Y]: four digits. *)
Definition match_Y (s : list ascii) : list (Z * list ascii) :=
  match s with
  | a :: b :: c :: d :: r =>
      if andb (andb (Py.is_digit a) (Py.is_digit b))
              (andb (Py.is_digit c) (Py.is_digit d))
      then [((100 * two a b + two c d)%Z, r)] else []
  | _ => []
  end.

Definition month_names : list string :=
  ["january"; "february"; "march"; "april"; "may"; "june"; "july";
   "august"; "september"; "october"; "november"; "december"].

Definition month_abbrs : list string :=
  map (fun n => String.substring 0 3 n) month_names.

Fixpoint strip_prefix_ci (p : list ascii) (s : list ascii)
  : option (list ascii) :=
  match p, s with
  | [], _ => Some s
  | a :: p', c :: s' =>
      if Ascii.eqb a (Py.lower_ascii c) then strip_prefix_ci p' s' else None
  | _ :: _, [] => None
  end.

(** A month name, compared without regard to case.  No name in either
    table is a prefix of another, so at most one entry applies and the
    order of the alternatives is immaterial. *)
Fixpoint match_name (names : list string) (idx : Z) (s : list ascii)
  : list (Z * list ascii) :=
  match names with
  | [] => []
  | n :: names' =>
      (match strip_prefix_ci (Py.chars n) s with
       | Some r => [(idx, r)]
       | None => []
       end) ++ match_name names' (idx + 1)%Z s
  end.

(** Whitespace as [\s] sees it in a [str], for the code points below
    256: that of the ASCII range, the next-line control (133) and the
    no-break space (160). *)
Definition is_space_str (c : ascii) : bool :=
  orb (Py.is_space c)
      (orb (nat_of_ascii c =? 133)%nat (nat_of_ascii c =? 160)%nat).

(** [\s+], longest first. *)
Fixpoint match_space (s : list ascii) : list (list ascii) :=
  match s with
  | c :: s' => if is_space_str c then match_space s' ++ [s'] else []
  | [] => []
  end.

Fixpoint matches (ts : list tok) (f : fields) (s : list ascii)
  : list (fields * list ascii) :=
  match ts with
  | [] => [(f, s)]
  | t :: ts' =>
      match t with
      | TY => flat_map (fun '(v, r) => matches ts' (mkFields v (month f) (day f)) r)
                (match_Y s)
      | Tm => flat_map (fun '(v, r) => matches ts' (mkFields (year f) v (day f)) r)
                (match_m s)
      | Td => flat_map (fun '(v, r) => matches ts' (mkFields (year f) (month f) v) r)
                (match_d s)
      | Tb => flat_map (fun '(v, r) => matches ts' (mkFields (year f) v (day f)) r)
                (match_name month_abbrs 1 s)
      | TB => flat_map (fun '(v, r) => matches ts' (mkFields (year f) v (day f)) r)
                (match_name month_names 1 s)
      | TLit c =>
          match s with
          | a :: r =>
              if Ascii.eqb (Py.lower_ascii a) (Py.lower_ascii c)
              then matches ts' f r else []
          | [] => []
          end
      | TSpace => flat_map (fun r => matches ts' f r) (match_space s)
      | TBad => []
      end
  end.

Definition is_leap (y : Z) : bool :=
  andb (y mod 4 =? 0)%Z (orb (negb (y mod 100 =? 0)%Z) (y mod 400 =? 0)%Z).

Definition days_in_month (y m : Z) : Z :=
  if (m =? 2)%Z then (if is_leap y then 29 else 28)%Z
  else if orb (orb (m =? 4)%Z (m =? 6)%Z) (orb (m =? 9)%Z (m =? 11)%Z)
       then 30%Z else 31%Z.

Definition valid_date (f : fields) : bool :=
  andb (andb (1 <=? year f)%Z (year f <=? 9999)%Z)
       (andb (andb (1 <=? month f)%Z (month f <=? 12)%Z)
             (andb (1 <=? day f)%Z (day f <=? days_in_month (year f) (month f))%Z)).

(** [datetime.strptime(s, fmt)]: the date, or [None] for [ValueError]. *)
Definition strptime (s fmt : string) : option fields :=
  match matches (tokens false (Py.chars fmt)) (mkFields 1900 1 1) (Py.chars s) with
  | (f, []) :: _ => if valid_date f then Some f else None
  | _ => None
  end.

End DateTime.

(* ================================================================= *)
(** ** Data model *)

(** Schema documents are JSON objects read with [dict.get(key, default)];
    a record of optional keys keeps the defaults where the code applies
    them. *)

Record FieldDef : Type := mkFieldDef {
  fd_validate_type : option string;
  fd_required : option bool;
  fd_slug : option (list string);
  fd_regex : option string;
  fd_enum : option string;
  fd_list : option string;
  fd_distance : option Q;
  fd_max_matches : option Z;
  fd_description : option string
}.

(** The empty object [{}], used for a field name the schema does not
    define. *)
Definition empty_field_def : FieldDef :=
  mkFieldDef None None None None None None None None None.

Record ListItem : Type := mkListItem {
  li_name : option string;
  li_aliases : option (list string)
}.

Record Schema : Type := mkSchema {
  s_type : option string;
  s_schema : option (dict FieldDef);
  s_enums : option (dict (list string));
  s_lists : option (dict (list ListItem))
}.

(** Only the keys of [column_info] are read by the matcher; the profile
    is carried for completeness. *)
Record ColumnInfo : Type := mkColumnInfo {
  ci_name : string;
  ci_count : nat;
  ci_non_empty : nat;
  ci_fill_rate : Q;
  ci_sample_values : list string
}.

Definition Row : Type := dict string.

(** The validation summary objects; the keys differ between the summary
    of a validated column and the placeholder of an unmapped field. *)
Record ValidationSummary : Type := mkSummary {
  vs_valid : option bool;
  vs_valid_count : nat;
  vs_total_count : option nat;
  vs_invalid_count : option nat;
  vs_valid_percentage : Q;
  vs_errors : option (list string);
  vs_invalid_samples : option (list string)
}.

Record FieldMatch : Type := mkFieldMatch {
  fm_field : string;
  fm_column : option string;
  fm_match_type : string;
  fm_score : Q;
  fm_similarity : option Q;
  fm_validation : ValidationSummary
}.

Inductive Status : Type := MATCH | MISMATCH | MISSING_DATA | MISSING_COLUMN.

(** Error entries; the message of a failed list lookup carries the best
    candidate and its score, which the code renders into the text. *)
Inductive ErrorMsg : Type :=
| Msg (text : string)
| NoCloseMatch (best : option string) (score : Q).

Record SingleResult : Type := mkSingle {
  sr_valid : bool;
  sr_expected : option string;
  sr_errors : list ErrorMsg
}.

Record FieldOutcome : Type := mkOutcome {
  fo_field : string;
  fo_column : option string;
  fo_value : option string;
  fo_expected : option string;
  fo_status : Status;
  fo_valid : bool;
  fo_errors : list ErrorMsg
}.

Record RowValidationResult : Type := mkRowResult {
  rv_row_id : nat;
  rv_valid : bool;
  rv_fields : list FieldOutcome
}.

Record AggregateValidationReport : Type := mkReport {
  ar_schema_name : string;
  ar_document_type : string;
  ar_match_score : Q;
  ar_total_rows : nat;
  ar_valid_rows : nat;
  ar_invalid_rows : nat;
  ar_success_rate : Q
}.

(** [field_def.get(key, default)] for the keys the engine reads. *)
Definition validate_type_of (fd : FieldDef) : string :=
  match fd_validate_type fd with Some t => t | None => "NONE" end.

Definition required_of (fd : FieldDef) : bool :=
  match fd_required fd with Some b => b | None => false end.

Definition regex_of (fd : FieldDef) : string :=
  match fd_regex fd with Some p => p | None => ".*" end.

Definition enum_of (fd : FieldDef) : string :=
  match fd_enum fd with Some e => e | None => "" end.

Definition list_of (fd : FieldDef) : string :=
  match fd_list fd with Some l => l | None => "" end.

Definition distance_of (fd : FieldDef) : Q :=
  match fd_distance fd with Some d => d | None => 80 end.

Definition max_matches_of (fd : FieldDef) : Z :=
  match fd_max_matches fd with Some n => n | None => 1%Z end.

Definition description_of (fd : FieldDef) : string :=
  match fd_description fd with Some d => d | None => "" end.

Definition slugs_of (field_name : string) (fd : FieldDef) : list string :=
  match fd_slug fd with Some l => l | None => [field_name] end.

Definition enum_values_of (schema : Schema) (enum_name : string) : list string :=
  match s_enums schema with
  | Some enums => Py.get_default enums enum_name []
  | None => []
  end.

Definition list_items_of (schema : Schema) (list_name : string) : list ListItem :=
  match s_lists schema with
  | Some lists => Py.get_default lists list_name []
  | None => []
  end.

Definition item_name_of (it : ListItem) : string :=
  match li_name it with Some n => n | None => "" end.

Definition item_aliases_of (it : ListItem) : list string :=
  match li_aliases it with Some l => l | None => [] end.

Definition schema_fields_of (schema : Schema) : dict FieldDef :=
  match s_schema schema with Some fs => fs | None => [] end.

Definition Qlt_bool (a b : Q) : bool := negb (Qle_bool b a).

(** [a / b * 100] on counts, guarded as the code guards it. *)
Definition percentage (a b : nat) : Q :=
  match b with
  | O => 0
  | S _ => inject_Z (Z.of_nat a) / inject_Z (Z.of_nat b) * 100
  end.

(* ================================================================= *)
(** ** Validation helpers for specific field types *)

Definition remove_chars (drop : ascii -> bool) (s : string) : list ascii :=
  filter (fun c => negb (drop c)) (Py.chars s).

Definition is_hyphen (c : ascii) : bool := Ascii.eqb c "-"%char.

Definition length_between (lo hi : nat) (s : list ascii) : bool :=
  andb (lo <=? List.length s)%nat (List.length s <=? hi)%nat.

(** [re.sub(r'[\s\-]', '', value)] then [re.match(r'^\d{13}$', value)]. *)
Definition validate_sa_id_number (value : string) : bool :=
  let v := remove_chars (fun c => orb (Py.is_space c) (is_hyphen c)) value in
  andb (List.length v =? 13)%nat (forallb Py.is_digit v).

(** [re.sub(r'[\s\-,]', '', value)] then
    [re.match(r'^[0-9\*]{6,12}$', value)]. *)
Definition validate_bank_account_number (value : string) : bool :=
  let v := remove_chars
             (fun c => orb (Py.is_space c)
                           (orb (is_hyphen c) (Ascii.eqb c ","%char))) value in
  andb (length_between 6 12 v)
       (forallb (fun c => orb (Py.is_digit c) (Ascii.eqb c "*"%char)) v).

(** The currency symbols removed before parsing an amount: the dollar
    and the pound sign (code point 163); the euro sign lies outside the
    8-bit range of the embedding. *)
Definition is_currency (c : ascii) : bool :=
  orb (Ascii.eqb c "$"%char) (Ascii.eqb c (ascii_of_nat 163)).

Definition validate_decimal_amount (value : string) : bool :=
  let v := remove_chars
             (fun c => orb (is_currency c)
                           (orb (Py.is_space c) (Ascii.eqb c ","%char))) value in
  match PyFloat.py_float (string_of_list_ascii v) with
  | Some _ => true
  | None => false
  end.

Definition date_formats : list string :=
  ["%Y-%m-%d"; "%d/%m/%Y"; "%m/%d/%Y"; "%d-%m-%Y"; "%m-%d-%Y";
   "%d.%m.%Y"; "%m.%d.%Y"; "%Y/%m/%d"; "%d %b %Y"; "%d %B %Y"].

Definition max_timestamp : Q := 32503680000.

(** [datetime.fromtimestamp(ts)] is reached only with [0 <= ts <=
    max_timestamp] or with a NaN; it returns for the former and raises
    [ValueError] for the latter. *)
Definition fromtimestamp_returns (ts : PyFloat.fval) : bool :=
  match ts with
  | PyFloat.Finite _ => true
  | _ => false
  end.

(** [ts < 0 or ts > 32503680000] on floats: false for a NaN. *)
Definition out_of_range (ts : PyFloat.fval) : bool :=
  match ts with
  | PyFloat.Finite q => orb (Qlt_bool q 0) (Qlt_bool max_timestamp q)
  | PyFloat.Inf _ => true
  | PyFloat.NaN => false
  end.

Fixpoint try_formats (value : string) (fmts : list string) : bool :=
  match fmts with
  | [] => false
  | fmt :: fmts' =>
      match DateTime.strptime value fmt with
      | Some _ => true
      | None => try_formats value fmts'
      end
  end.

Definition validate_date (value : string) : bool :=
  if try_formats value date_formats then true
  else
    match PyFloat.py_float value with
    | Some ts =>
        if out_of_range ts then false
        else fromtimestamp_returns ts
    | None => false
    end.

(** [re.sub(r'\s', '', value)] then [re.match(r'^[0-9\-]{4,10}$', value)]. *)
Definition validate_postal_code (value : string) : bool :=
  let v := remove_chars Py.is_space value in
  andb (length_between 4 10 v)
       (forallb (fun c => orb (Py.is_digit c) (is_hyphen c)) v).

(* ================================================================= *)
(** ** [validate_field_values] *)

(** [lev.ratio(a.lower(), value.lower()) * 100]. *)
Definition similarity_pct (a value : string) : Q :=
  Lev.ratio (Py.lower a) (Py.lower value) * 100.

(** The inner loop over the aliases of one list item: a hit sets
    [is_valid] and leaves the inner loop only. *)
Fixpoint check_aliases (value : string) (min_distance : Q)
         (aliases : list string) (is_valid : bool) : bool :=
  match aliases with
  | [] => is_valid
  | alias :: rest =>
      if Qle_bool min_distance (similarity_pct alias value) then true
      else check_aliases value min_distance rest is_valid
  end.

(** The loop over the list items: a hit on the name leaves the loop. *)
Fixpoint check_items (value : string) (min_distance : Q)
         (items : list ListItem) (is_valid : bool) : bool :=
  match items with
  | [] => is_valid
  | item :: rest =>
      if Qle_bool min_distance (similarity_pct (item_name_of item) value)
      then true
      else check_items value min_distance rest
             (check_aliases value min_distance (item_aliases_of item) is_valid)
  end.

(** The body of the loop over the values: the verdict for one value. *)
Definition field_value_is_valid (field_def : FieldDef) (schema : Schema)
           (value : string) : Exc bool :=
  let validate_type := validate_type_of field_def in
  if andb (negb (Py.truthy value)) (negb (required_of field_def)) then Ok true
  else if String.eqb validate_type "REGEX" then
    Re.re_match (regex_of field_def) value
  else if String.eqb validate_type "SA_ID_NUMBER" then
    Ok (validate_sa_id_number value)
  else if String.eqb validate_type "BANK_ACCOUNT_NUMBER" then
    Ok (validate_bank_account_number value)
  else if String.eqb validate_type "DECIMAL_AMOUNT" then
    Ok (validate_decimal_amount value)
  else if String.eqb validate_type "UNIX_DATE" then
    Ok (validate_date value)
  else if String.eqb validate_type "POSTAL_CODE" then
    Ok (validate_postal_code value)
  else if String.eqb validate_type "ENUM" then
    Ok (Py.mem value (enum_values_of schema (enum_of field_def)))
  else if String.eqb validate_type "LEV_DISTANCE" then
    Ok (check_items value (distance_of field_def)
          (list_items_of schema (list_of field_def)) false)
  else Ok true.

Fixpoint validate_values (field_def : FieldDef) (schema : Schema)
         (values : list string) (valid_count : nat) (errors : list string)
  : Exc (nat * list string) :=
  match values with
  | [] => Ok (valid_count, errors)
  | value :: rest =>
      is_valid <- field_value_is_valid field_def schema value ;;
      if is_valid
      then validate_values field_def schema rest (S valid_count) errors
      else validate_values field_def schema rest valid_count
             (errors ++ [("Invalid value: " ++ value)%string])
  end.

(** The values the loop runs over: the column's cell of every row, less
    the empty ones when the field is not required. *)
Definition column_values (column_name : string) (field_def : FieldDef)
           (data : list Row) : list string :=
  let values := map (fun row => Py.get_default row column_name "") data in
  if negb (required_of field_def) then filter Py.truthy values else values.

Definition validate_field_values (column_name : string) (field_def : FieldDef)
           (data : list Row) (schema : Schema) : Exc ValidationSummary :=
  let values := column_values column_name field_def data in
  let total_count := List.length values in
  '(valid_count, errors) <- validate_values field_def schema values 0 [] ;;
  Ok (mkSummary (Some (valid_count =? total_count)%nat)
        valid_count (Some total_count) None
        (percentage valid_count total_count)
        (Some (firstn 5 errors)) None).

(* ================================================================= *)
(** ** [validate_single_value] *)

Definition valid_result : SingleResult := mkSingle true None [].

(** The scan for the best list match: the running best score and the
    name of the item it came from. *)
Fixpoint best_of_aliases (value item_name : string) (aliases : list string)
         (best : option string * Q) : option string * Q :=
  match aliases with
  | [] => best
  | alias :: rest =>
      let similarity := similarity_pct alias value in
      best_of_aliases value item_name rest
        (if Qlt_bool (snd best) similarity then (Some item_name, similarity)
         else best)
  end.

Fixpoint best_of_items (value : string) (items : list ListItem)
         (best : option string * Q) : option string * Q :=
  match items with
  | [] => best
  | item :: rest =>
      let item_name := item_name_of item in
      let similarity := similarity_pct item_name value in
      let best1 := if Qlt_bool (snd best) similarity
                   then (Some item_name, similarity) else best in
      best_of_items value rest
        (best_of_aliases value item_name (item_aliases_of item) best1)
  end.

(** The threshold the single-value check compares against. *)
Definition single_value_min_distance (field_def : FieldDef) : Q :=
  let min_distance := distance_of field_def in
  let min_distance := 40 in
  min_distance.

Definition shareholder_name_prefix : string :=
  "Validation: REGEX. The shareholder full name".

Definition country_code_prefix : string :=
  "Validation: ENUM. The shareholder country code".

(** The pattern the single-value check matches against. *)
Definition single_value_pattern (field_def : FieldDef) : string :=
  if Py.startswith (description_of field_def) shareholder_name_prefix
  then "^.+$"
  else regex_of field_def.

Definition validate_single_value (value : string) (field_def : FieldDef)
           (schema : Schema) : Exc SingleResult :=
  let validate_type := validate_type_of field_def in
  let required := required_of field_def in
  let result := valid_result in
  if negb (Py.truthy value) then
    if required
    then Ok (mkSingle false None [Msg "Required field is empty"])
    else Ok result
  else if String.eqb validate_type "REGEX" then
    let pattern := single_value_pattern field_def in
    m <- Re.re_match pattern value ;;
    if negb m then
      Ok (mkSingle false (Some ("Match pattern " ++ pattern)%string)
            [Msg ("Value does not match pattern: " ++ pattern)%string])
    else Ok result
  else if String.eqb validate_type "SA_ID_NUMBER" then
    if negb (validate_sa_id_number value)
    then Ok (mkSingle false (Some "Valid SA ID Number")
               [Msg "Invalid South African ID number"])
    else Ok result
  else if String.eqb validate_type "BANK_ACCOUNT_NUMBER" then
    if negb (validate_bank_account_number value)
    then Ok (mkSingle false (Some "Valid bank account number")
               [Msg "Invalid bank account number"])
    else Ok result
  else if String.eqb validate_type "DECIMAL_AMOUNT" then
    if negb (validate_decimal_amount value)
    then Ok (mkSingle false (Some "Decimal amount (e.g. 123.45)")
               [Msg "Invalid decimal amount"])
    else Ok result
  else if String.eqb validate_type "UNIX_DATE" then
    if negb (validate_date value)
    then Ok (mkSingle false (Some "Valid date") [Msg "Invalid date format"])
    else Ok result
  else if String.eqb validate_type "POSTAL_CODE" then
    if negb (validate_postal_code value)
    then Ok (mkSingle false (Some "Valid postal code") [Msg "Invalid postal code"])
    else Ok result
  else if String.eqb validate_type "ENUM" then
    let enum_name := enum_of field_def in
    let enum_values := enum_values_of schema enum_name in
    if andb (Py.startswith (description_of field_def) country_code_prefix)
            (String.eqb value "N/A")
    then Ok result
    else if negb (Py.mem value enum_values)
    then Ok (mkSingle false
               (Some ("One of: " ++ String.concat ", " enum_values)%string)
               [Msg ("Value not in allowed list: " ++ enum_name)%string])
    else Ok result
  else if String.eqb validate_type "LEV_DISTANCE" then
    let list_name := list_of field_def in
    let list_items := list_items_of schema list_name in
    let min_distance := single_value_min_distance field_def in
    let '(best_match, best_score) := best_of_items value list_items (None, 0) in
    if Qlt_bool best_score min_distance
    then Ok (mkSingle false (Some ("Match an item in list: " ++ list_name)%string)
               [NoCloseMatch best_match best_score])
    else Ok result
  else Ok result.

(* ================================================================= *)
(** ** [find_best_column_match] *)

Definition no_match_validation : ValidationSummary :=
  mkSummary (Some false) 0 (Some 0%nat) None 0
    (Some ["No matching column found"]) None.

Definition unclaimed (matched_columns : list string) (col_name : string) : bool :=
  negb (Py.mem col_name matched_columns).

(** The content-based pass: the running best content match and its
    score. *)
Fixpoint content_pass (field_name : string) (field_def : FieldDef)
         (data : list Row) (schema : Schema) (matched_columns : list string)
         (cols : list string) (best : option FieldMatch * Q)
  : Exc (option FieldMatch * Q) :=
  match cols with
  | [] => Ok best
  | col_name :: rest =>
      if Py.mem col_name matched_columns
      then content_pass field_name field_def data schema matched_columns rest best
      else
        validation <- validate_field_values col_name field_def data schema ;;
        let validation_score := vs_valid_percentage validation in
        content_pass field_name field_def data schema matched_columns rest
          (if andb (Qlt_bool (snd best) validation_score)
                   (Qlt_bool 50 validation_score)
           then (Some (mkFieldMatch field_name (Some col_name)
                         "content_validation" validation_score None validation),
                 validation_score)
           else best)
  end.

Definition normalize_name (s : string) : string :=
  Py.replace " "%char "" (Py.replace "_"%char "" (Py.lower s)).

Definition fuzzy_norm (s : string) : string :=
  Py.replace "_"%char " " (Py.lower s).

(** The inner loop of the fuzzy step, over the slugs, for one column. *)
Fixpoint fuzzy_slugs (field_name : string) (field_def : FieldDef)
         (data : list Row) (schema : Schema) (col_name : string)
         (slugs : list string) (best : option FieldMatch * Q)
  : Exc (option FieldMatch * Q) :=
  match slugs with
  | [] => Ok best
  | slug :: rest =>
      let similarity := Lev.ratio (fuzzy_norm slug) (fuzzy_norm col_name) * 100 in
      if andb (Qlt_bool (snd best) similarity) (Qlt_bool 60 similarity) then
        validation <- validate_field_values col_name field_def data schema ;;
        let validation_score := vs_valid_percentage validation in
        let combined_score :=
          similarity * (3 # 10) + validation_score * (7 # 10) in
        fuzzy_slugs field_name field_def data schema col_name rest
          (if Qlt_bool (snd best) combined_score
           then (Some (mkFieldMatch field_name (Some col_name) "fuzzy"
                         combined_score (Some similarity) validation),
                 combined_score)
           else best)
      else fuzzy_slugs field_name field_def data schema col_name rest best
  end.

(** The outer loop of the fuzzy step, over the columns. *)
Fixpoint fuzzy_columns (field_name : string) (field_def : FieldDef)
         (data : list Row) (schema : Schema) (matched_columns : list string)
         (slugs : list string) (cols : list string) (best : option FieldMatch * Q)
  : Exc (option FieldMatch * Q) :=
  match cols with
  | [] => Ok best
  | col_name :: rest =>
      if Py.mem col_name matched_columns
      then fuzzy_columns field_name field_def data schema matched_columns
             slugs rest best
      else
        best' <- fuzzy_slugs field_name field_def data schema col_name slugs best ;;
        fuzzy_columns field_name field_def data schema matched_columns
          slugs rest best'
  end.

(** A name-based hit: the match entry with the column's validation. *)
Definition named_match (field_name : string) (field_def : FieldDef)
           (data : list Row) (schema : Schema) (col_name match_type : string)
           (score : Q) : Exc FieldMatch :=
  validation <- validate_field_values col_name field_def data schema ;;
  Ok (mkFieldMatch field_name (Some col_name) match_type score None validation).

Definition find_best_column_match (field_name : string) (field_def : FieldDef)
           (column_info : dict ColumnInfo) (data : list Row) (schema : Schema)
           (matched_columns : list string) : Exc FieldMatch :=
  let slugs := slugs_of field_name field_def in
  let cols := Py.keys column_info in
  let free := unclaimed matched_columns in
  '(best_content_match, best_content_score) <-
     content_pass field_name field_def data schema matched_columns cols (None, 0) ;;
  let confident :=
    match best_content_match with
    | Some m => if Qlt_bool 70 best_content_score then Some m else None
    | None => None
    end in
  match confident with
  | Some m => Ok m
  | None =>
  if andb (Py.mem field_name cols) (free field_name) then
    named_match field_name field_def data schema field_name "exact_field_name" 100
  else
  match find (fun slug => andb (Py.mem slug cols) (free slug)) slugs with
  | Some slug =>
      named_match field_name field_def data schema slug "exact_slug" 100
  | None =>
  let field_name_lower := Py.lower field_name in
  match find (fun col_name =>
                andb (free col_name)
                     (String.eqb (Py.lower col_name) field_name_lower)) cols with
  | Some col_name =>
      named_match field_name field_def data schema col_name
        "case_insensitive_field" 98
  | None =>
  let slug_lower := map Py.lower slugs in
  match find (fun col_name =>
                andb (free col_name) (Py.mem (Py.lower col_name) slug_lower))
             cols with
  | Some col_name =>
      named_match field_name field_def data schema col_name "case_insensitive" 95
  | None =>
  let field_name_normalized := normalize_name field_name in
  match find (fun col_name =>
                andb (free col_name)
                     (String.eqb (normalize_name col_name) field_name_normalized))
             cols with
  | Some col_name =>
      named_match field_name field_def data schema col_name "normalized_match" 90
  | None =>
  '(best_match, _) <-
     fuzzy_columns field_name field_def data schema matched_columns slugs cols
       (None, 0) ;;
  match best_match with
  | Some m => Ok m
  | None =>
  match best_content_match with
  | Some m => Ok m
  | None =>
      Ok (mkFieldMatch field_name None "none" 0 None no_match_validation)
  end end end end end end end.

(* ================================================================= *)
(** ** [match_schema] *)

Definition column_truthy (c : option string) : bool :=
  match c with Some s => Py.truthy s | None => false end.

(** [best_match["score"] > 0 and best_match["column"]]. *)
Definition is_hit (m : FieldMatch) : bool :=
  andb (Qlt_bool 0 (fm_score m)) (column_truthy (fm_column m)).

Definition column_name_of (m : FieldMatch) : string :=
  match fm_column m with Some c => c | None => "" end.

(** The state of one matching pass. *)
Record MatchState : Type := mkState {
  matched_count : nat;
  field_matches : dict FieldMatch;
  matched_columns : list string
}.

(** Record a match under [key]; a hit is counted and its column
    claimed. *)
Definition record_match (st : MatchState) (key : string) (m : FieldMatch)
  : MatchState :=
  if is_hit m
  then mkState (S (matched_count st)) (Py.set (field_matches st) key m)
         (matched_columns st ++ [column_name_of m])
  else mkState (matched_count st) (Py.set (field_matches st) key m)
         (matched_columns st).

Section Passes.

Variable column_info : dict ColumnInfo.
Variable data : list Row.
Variable schema : Schema.

(** First pass: the fields with [max_matches <= 1]. *)
Fixpoint first_pass (fields : dict FieldDef) (st : MatchState)
  : Exc MatchState :=
  match fields with
  | [] => Ok st
  | (field_name, field_def) :: rest =>
      if (1 <? max_matches_of field_def)%Z then first_pass rest st
      else
        best_match <- find_best_column_match field_name field_def
                        column_info data schema (matched_columns st) ;;
        first_pass rest (record_match st field_name best_match)
  end.

(** The [while matches_found < max_matches] loop; [fuel] is
    [max_matches - matches_found]. *)
Fixpoint additional_matches (field_name : string) (field_def : FieldDef)
         (fuel : nat) (matches_found : nat) (st : MatchState)
  : Exc MatchState :=
  match fuel with
  | O => Ok st
  | S fuel' =>
      let additional_field_name :=
        (field_name ++ "_" ++ Py.str_of_nat (matches_found + 1))%string in
      additional_match <- find_best_column_match field_name field_def
                            column_info data schema (matched_columns st) ;;
      if is_hit additional_match
      then additional_matches field_name field_def fuel' (S matches_found)
             (record_match st additional_field_name additional_match)
      else Ok st
  end.

Definition has_primary (st : MatchState) (field_name : string) : bool :=
  match Py.get (field_matches st) field_name with
  | Some m => is_hit m
  | None => false
  end.

(** Second pass: the fields with [max_matches > 1]. *)
Fixpoint second_pass (fields : dict FieldDef) (st : MatchState)
  : Exc MatchState :=
  match fields with
  | [] => Ok st
  | (field_name, field_def) :: rest =>
      let max_matches := max_matches_of field_def in
      if (max_matches <=? 1)%Z then second_pass rest st
      else
        '(matches_found, st1) <-
           (if has_primary st field_name then Ok (1%nat, st)
            else
              best_match <- find_best_column_match field_name field_def
                              column_info data schema (matched_columns st) ;;
              Ok (if is_hit best_match then 1%nat else 0%nat,
                  record_match st field_name best_match)) ;;
        st2 <- additional_matches field_name field_def
                 (Z.to_nat (max_matches - Z.of_nat matches_found))
                 matches_found st1 ;;
        second_pass rest st2
  end.

End Passes.

Definition required_field_names (schema_fields : dict FieldDef) : list string :=
  map fst (filter (fun kv => required_of (snd kv)) schema_fields).

(** [f in field_matches and field_matches[f]["column"]]. *)
Definition has_column (fm : dict FieldMatch) (f : string) : bool :=
  match Py.get fm f with
  | Some m => column_truthy (fm_column m)
  | None => false
  end.

Definition count_true {A} (p : A -> bool) (l : list A) : nat :=
  List.length (filter p l).

Definition match_score_of (schema_fields : dict FieldDef) (st : MatchState) : Q :=
  let required_fields := required_field_names schema_fields in
  match required_fields with
  | [] => percentage (matched_count st) (List.length schema_fields)
  | _ :: _ =>
      let required_matched :=
        count_true (has_column (field_matches st)) required_fields in
      percentage required_matched (List.length required_fields)
  end.

Definition match_schema (schema : Schema) (column_info : dict ColumnInfo)
           (data : list Row) : Exc (Q * dict FieldMatch) :=
  match s_schema schema with
  | None => Ok (0, [])
  | Some schema_fields =>
      st1 <- first_pass column_info data schema schema_fields (mkState 0 [] []) ;;
      st2 <- second_pass column_info data schema schema_fields st1 ;;
      Ok (match_score_of schema_fields st2, field_matches st2)
  end.

(** The columns bound by the entries of a match map: an entry binds its
    column when the column is neither [None] nor empty, which is the test
    by which the pass counts a match and [validate_row] maps a column. *)
Definition claim_of (m : FieldMatch) : list string :=
  if column_truthy (fm_column m) then [column_name_of m] else [].

Definition claimed_columns (fm : dict FieldMatch) : list string :=
  flat_map (fun kv => claim_of (snd kv)) fm.

(** A match that binds a column binds an unclaimed one and has a
    positive score. *)
Definition fresh_match (matched : list string) (m : FieldMatch) : Prop :=
  exists c, fm_column m = Some c /\ Py.mem c matched = false
            /\ 0 < fm_score m.

(** The state of the fuzzy step: the best score is not negative and the
    best match, if any, is fresh. *)
Definition fuzzy_ok (matched : list string) (best : option FieldMatch * Q)
  : Prop :=
  0 <= snd best /\ forall m, fst best = Some m -> fresh_match matched m.

(** A match binds, if any, a column of the dataset. *)
Definition known_column (known : list string) (m : FieldMatch) : Prop :=
  forall c, fm_column m = Some c -> In c known.

Definition columns_known (known : list string) (st : MatchState) : Prop :=
  forall k m, In (k, m) (field_matches st) -> known_column known m.

(** Where the names of a match map come from: a field of the schema, or
    the numbered name of an additional claim of a field that may claim
    several columns. *)
Definition key_origin (schema_fields : dict FieldDef) (k : string) : Prop :=
  In k (Py.keys schema_fields)
  \/ exists f fd n,
       In (f, fd) schema_fields /\ (1 < max_matches_of fd)%Z
       /\ (2 <= n)%nat /\ (Z.of_nat n <= max_matches_of fd)%Z
       /\ k = (f ++ "_" ++ Py.str_of_nat n)%string.

Definition keys_invariant (schema_fields : dict FieldDef) (st : MatchState)
  : Prop :=
  forall k, In k (Py.keys (field_matches st)) -> key_origin schema_fields k.

(** The invariant of a matching pass: the bound columns are pairwise
    distinct and every one of them is marked as matched. *)
Definition pass_invariant (st : MatchState) : Prop :=
  NoDup (claimed_columns (field_matches st))
  /\ forall c, In c (claimed_columns (field_matches st)) ->
               In c (matched_columns st).

(* ================================================================= *)
(** ** [validate_row] *)

(** The reverse mapping from column names to field names. *)
Fixpoint column_to_field_of (fm : dict FieldMatch) (acc : dict string)
  : dict string :=
  match fm with
  | [] => acc
  | (field_name, match_info) :: rest =>
      match fm_column match_info with
      | Some column_name =>
          if Py.truthy column_name
          then column_to_field_of rest (Py.set acc column_name field_name)
          else column_to_field_of rest acc
      | None => column_to_field_of rest acc
      end
  end.

Definition missing_column_outcome (field_name : string) : FieldOutcome :=
  mkOutcome field_name None None None MISSING_COLUMN false
    [Msg "Required field has no matching column"].

(** Is [field_name] the target of some mapped column? *)
Definition field_is_mapped (column_to_field : dict string) (field_name : string)
  : bool :=
  existsb (fun cf => String.eqb (snd cf) field_name) column_to_field.

(** The loop over the schema fields that reports unmapped required
    fields. *)
Fixpoint check_required (schema_fields : dict FieldDef)
         (column_to_field : dict string) (valid : bool)
         (field_results : list FieldOutcome) : bool * list FieldOutcome :=
  match schema_fields with
  | [] => (valid, field_results)
  | (field_name, field_def) :: rest =>
      if negb (required_of field_def)
      then check_required rest column_to_field valid field_results
      else if String.eqb field_name "DOMICILE_CODE"
      then check_required rest column_to_field valid field_results
      else if negb (field_is_mapped column_to_field field_name)
      then check_required rest column_to_field false
             (field_results ++ [missing_column_outcome field_name])
      else check_required rest column_to_field valid field_results
  end.

(** The loop over the mapped columns. *)
Fixpoint check_mapped (row : Row) (schema : Schema)
         (column_to_field : dict string) (valid : bool)
         (field_results : list FieldOutcome)
  : Exc (bool * list FieldOutcome) :=
  match column_to_field with
  | [] => Ok (valid, field_results)
  | (column_name, field_name) :: rest =>
      let field_def :=
        Py.get_default (schema_fields_of schema) field_name empty_field_def in
      let value := Py.get_default row column_name "" in
      validation <- validate_single_value value field_def schema ;;
      let field_status := if sr_valid validation then MATCH else MISMATCH in
      check_mapped row schema rest
        (if negb (sr_valid validation) then false else valid)
        (field_results ++
           [mkOutcome field_name (Some column_name) (Some value)
              (sr_expected validation) field_status (sr_valid validation)
              (sr_errors validation)])
  end.

(** The row result; [row_id] is filled in by the caller. *)
Definition validate_row (row : Row) (schema : Schema)
           (field_matches : dict FieldMatch) : Exc RowValidationResult :=
  let schema_fields := schema_fields_of schema in
  let column_to_field := column_to_field_of field_matches [] in
  let '(valid, field_results) :=
    check_required schema_fields column_to_field true [] in
  '(valid, field_results) <-
     check_mapped row schema column_to_field valid field_results ;;
  Ok (mkRowResult 0 valid field_results).

(* ================================================================= *)
(** ** [validate_data] *)

(** The session, the imported table and the schema directory are read by
    collaborators; their results are the arguments here: the loaded
    schemas, the stored mapping if one could be loaded, the column
    profile, the column list and the rows. *)

Record MappingInfo : Type := mkMappingInfo { mi_type : option string }.

Definition mapping_type_of (ti : MappingInfo) : string :=
  match mi_type ti with Some t => t | None => "" end.

Record ValidationOutput : Type := mkOutput {
  out_validation_results : AggregateValidationReport;
  out_field_matches : dict FieldMatch;
  out_schema : Schema;
  out_row_validations : list RowValidationResult;
  out_all_columns : list string
}.

Definition name_truthy (n : option string) : bool :=
  match n with Some s => Py.truthy s | None => false end.

(** The schema an existing mapping belongs to: the first schema that
    defines the type of some mapped column. *)
Fixpoint schema_of_mapping (schemas : dict Schema)
         (mapping : dict MappingInfo) (schema_name : option string)
  : option string :=
  match mapping with
  | [] => schema_name
  | (_, type_info) :: rest =>
      let type_name := mapping_type_of type_info in
      let schema_name' :=
        match find (fun ns => Py.contains (schema_fields_of (snd ns)) type_name)
                schemas with
        | Some (s_name, _) => Some s_name
        | None => schema_name
        end in
      if name_truthy schema_name' then schema_name'
      else schema_of_mapping schemas rest schema_name'
  end.

Definition not_mapped_validation : ValidationSummary :=
  mkSummary None 0 None (Some 0%nat) 0 None (Some []).

(** The match entries derived from an existing mapping. *)
Fixpoint manual_matches (mapping : dict MappingInfo) (data : list Row)
         (schema : Schema) (schema_fields : dict FieldDef)
         (best_matches : dict FieldMatch) : Exc (dict FieldMatch) :=
  match schema_fields with
  | [] => Ok best_matches
  | (field_name, field_def) :: rest =>
      match find (fun ct => match mi_type (snd ct) with
                            | Some t => String.eqb t field_name
                            | None => false
                            end) mapping with
      | Some (mapped_column, _) =>
          if Py.truthy mapped_column then
            validation <- validate_field_values mapped_column field_def
                            data schema ;;
            manual_matches mapping data schema rest
              (Py.set best_matches field_name
                 (mkFieldMatch field_name (Some mapped_column) "manual_mapping"
                    100 None validation))
          else
            manual_matches mapping data schema rest
              (Py.set best_matches field_name
                 (mkFieldMatch field_name None "not_mapped" 0 None
                    not_mapped_validation))
      | None =>
          manual_matches mapping data schema rest
            (Py.set best_matches field_name
               (mkFieldMatch field_name None "not_mapped" 0 None
                  not_mapped_validation))
      end
  end.

Definition Qmax (a b : Q) : Q := if Qlt_bool a b then b else a.

(** The score given to an existing mapping: its coverage of the schema's
    fields, but at least 75. *)
Definition mapping_score (mapping : dict MappingInfo)
           (schema_fields : dict FieldDef) : Q :=
  let mapped_types := map (fun ct => mapping_type_of (snd ct)) mapping in
  let schema_types := nodup string_dec (Py.keys schema_fields) in
  match schema_types with
  | [] => 90
  | _ :: _ =>
      Qmax (percentage (count_true (fun t => Py.mem t mapped_types) schema_types)
              (List.length schema_types))
           75
  end.

(** Run [match_schema] on every schema, keeping the scores and matches
    by schema name. *)
Fixpoint score_schemas (schemas : dict Schema) (column_info : dict ColumnInfo)
         (data : list Row) (acc : dict (Q * dict FieldMatch))
  : Exc (dict (Q * dict FieldMatch)) :=
  match schemas with
  | [] => Ok acc
  | (schema_name, schema) :: rest =>
      r <- match_schema schema column_info data ;;
      score_schemas rest column_info data (Py.set acc schema_name r)
  end.

(** [max(schema_scores, key=schema_scores.get)]: the first key with the
    greatest score. *)
Fixpoint first_max {V} (l : dict (Q * V)) (best : string * (Q * V))
  : string * (Q * V) :=
  match l with
  | [] => best
  | (k, v) :: rest =>
      first_max rest (if Qlt_bool (fst (snd best)) (fst v) then (k, v) else best)
  end.

(** The loop that validates every row, numbering the rows from 1. *)
Fixpoint validate_rows (rows : list Row) (i : nat) (schema : Schema)
         (best_matches : dict FieldMatch) : Exc (list RowValidationResult) :=
  match rows with
  | [] => Ok []
  | row :: rest =>
      row_validation <- validate_row row schema best_matches ;;
      rest' <- validate_rows rest (S i) schema best_matches ;;
      Ok (mkRowResult (i + 1) (rv_valid row_validation)
            (rv_fields row_validation) :: rest')
  end.

(** The overall statistics computed from the row validations. *)
Definition validation_results_of (best_schema : string) (schema : Schema)
           (best_score : Q) (row_validations : list RowValidationResult)
  : AggregateValidationReport :=
  let total_rows := List.length row_validations in
  let valid_rows := total_rows in
  let invalid_rows := 0%nat in
  mkReport best_schema
    (match s_type schema with Some t => t | None => best_schema end)
    best_score total_rows valid_rows invalid_rows 100.

Definition validate_data (schemas : dict Schema)
           (existing_mapping : option (dict MappingInfo))
           (column_info : dict ColumnInfo) (columns : list string)
           (data : list Row) : Exc ValidationOutput :=
  match schemas with
  | [] => Raise (ValueError "No schemas found in schemas directory")
  | (first_name, first_schema) :: _ =>
      '(best_schema, best_score, best_matches) <-
         match existing_mapping with
         | Some ((_ :: _) as mapping) =>
             let found := schema_of_mapping schemas mapping None in
             let best_schema :=
               if name_truthy found
               then match found with Some n => n | None => first_name end
               else first_name in
             let schema := Py.get_default schemas best_schema first_schema in
             let schema_fields := schema_fields_of schema in
             best_matches <- manual_matches mapping data schema schema_fields [] ;;
             Ok (best_schema, mapping_score mapping schema_fields, best_matches)
         | _ =>
             scored <- score_schemas schemas column_info data [] ;;
             match scored with
             | [] => Raise (ValueError "max() arg is an empty sequence")
             | first :: rest =>
                 let '(best_schema, (best_score, best_matches)) :=
                   first_max rest first in
                 Ok (best_schema, best_score, best_matches)
             end
         end ;;
      let schema := Py.get_default schemas best_schema first_schema in
      row_validations <- validate_rows data 0 schema best_matches ;;
      Ok (mkOutput
            (validation_results_of best_schema schema best_score row_validations)
            best_matches schema row_validations columns)
  end.

(* ================================================================= *)
(** ** [sanitize_column_name] and [get_column_info] (core/importer.py) *)

Definition double_quote : ascii := ascii_of_nat 34.

(** The name with the double quotes, the single quotes and the
    semicolons replaced by nothing, in this order. *)
Definition sanitize_column_name (name : string) : string :=
  Py.replace ";"%char EmptyString
    (Py.replace "'"%char EmptyString
       (Py.replace double_quote EmptyString name)).

(** The profile of one column: the cells of the rows that have the
    column, the number of non-empty ones, their share and up to five of
    them. *)
Definition column_profile (col : string) (data : list Row) : ColumnInfo :=
  let values := map (fun row => Py.get_default row col "")
                    (filter (fun row => Py.contains row col) data) in
  let non_empty := List.length (filter Py.truthy values) in
  let fill_rate := percentage non_empty (List.length values) in
  let sample_values := firstn 5 (filter Py.truthy values) in
  mkColumnInfo col (List.length values) non_empty fill_rate sample_values.

(** The loop over the columns of the table; the table itself is read by
    [get_table_data]. *)
Fixpoint get_column_info (columns : list string) (data : list Row)
         (column_info : dict ColumnInfo) : dict ColumnInfo :=
  match columns with
  | [] => column_info
  | col :: rest =>
      get_column_info rest data
        (Py.set column_info col (column_profile col data))
  end.

(* ================================================================= *)
(** ** The field mapper (core/mapper.py) *)

(** A mapping entry; the optional keys are present only for a truthy
    property of the field definition. *)
Record MappingEntry : Type := mkEntry {
  me_type : string;
  me_validation : string;
  me_validation_type : string;
  me_required : option bool;
  me_description : option string;
  me_regex : option string;
  me_list : option string;
  me_distance : option Q;
  me_enum : option string;
  me_slug : list string
}.

(** [if field_def.get(key): entry[key] = field_def[key]]. *)
Definition copy_if {A} (truthy : A -> bool) (v : option A) : option A :=
  match v with
  | Some a => if truthy a then Some a else None
  | None => None
  end.

Definition create_mapping_entry (field_name : string) (field_def : FieldDef)
  : MappingEntry :=
  let validate_type := validate_type_of field_def in
  mkEntry field_name validate_type validate_type
    (copy_if (fun b : bool => b) (fd_required field_def))
    (copy_if Py.truthy (fd_description field_def))
    (copy_if Py.truthy (fd_regex field_def))
    (copy_if Py.truthy (fd_list field_def))
    (copy_if (fun q => negb (Qeq_bool q 0)) (fd_distance field_def))
    (copy_if Py.truthy (fd_enum field_def))
    (slugs_of field_name field_def).

(** The loop of [generate_mapping_file] that turns the field matches
    into the mapping, keyed by column. *)
Fixpoint mapping_of_matches (field_matches : dict FieldMatch)
         (schema_fields : dict FieldDef) (mapping : dict MappingEntry)
  : dict MappingEntry :=
  match field_matches with
  | [] => mapping
  | (field_name, match_info) :: rest =>
      match fm_column match_info with
      | Some column_name =>
          if Py.truthy column_name then
            let field_def :=
              Py.get_default schema_fields field_name empty_field_def in
            mapping_of_matches rest schema_fields
              (Py.set mapping column_name
                 (create_mapping_entry field_name field_def))
          else mapping_of_matches rest schema_fields mapping
      | None => mapping_of_matches rest schema_fields mapping
      end
  end.

(** The loop of [generate_mapping_file] that lists the required fields
    no entry of the mapping has as its type. *)
Fixpoint missing_required_of (schema_fields : dict FieldDef)
         (mapping : dict MappingEntry) (missing_required : list string)
  : list string :=
  match schema_fields with
  | [] => missing_required
  | (field_name, field_def) :: rest =>
      if required_of field_def then
        if existsb (fun ce => String.eqb (me_type (snd ce)) field_name) mapping
        then missing_required_of rest mapping missing_required
        else missing_required_of rest mapping
               (missing_required ++ [field_name])
      else missing_required_of rest mapping missing_required
  end.

(** [type_info.get("type") == field_name]. *)
Definition type_is (field_name : string) (ct : string * MappingInfo) : bool :=
  match mi_type (snd ct) with
  | Some t => String.eqb t field_name
  | None => false
  end.

(** The two lookups; the mapping is the one [load_mapping] returns. *)
Definition get_column_for_field (mapping : dict MappingInfo)
           (field_name : string) : option string :=
  match find (type_is field_name) mapping with
  | Some (column, _) => Some column
  | None => None
  end.

Definition get_field_for_column (mapping : dict MappingInfo)
           (column_name : string) : option string :=
  match Py.get mapping column_name with
  | Some type_info => mi_type type_info
  | None => None
  end.

(* ================================================================= *)
(** ** Further notions used in the statements *)

(** The summary of a column without values to check. *)
Definition empty_column_summary : ValidationSummary :=
  mkSummary (Some true) 0 (Some 0%nat) None 0 (Some []) None.

(** The tags the type dispatch knows. *)
Definition known_validate_types : list string :=
  ["REGEX"; "SA_ID_NUMBER"; "BANK_ACCOUNT_NUMBER"; "DECIMAL_AMOUNT";
   "UNIX_DATE"; "POSTAL_CODE"; "ENUM"; "LEV_DISTANCE"].

(** The length of a longest common subsequence, by recursion on the two
    lists; [Lev.lcs] computes it row by row over the prefixes. *)
Fixpoint lcs_spec (xs ys : list ascii) : nat :=
  match xs with
  | [] => 0%nat
  | x :: xs' =>
      (fix on_ys (ys : list ascii) : nat :=
         match ys with
         | [] => 0%nat
         | y :: ys' =>
             if Ascii.eqb x y then S (lcs_spec xs' ys')
             else Nat.max (lcs_spec xs' ys) (on_ys ys')
         end) ys
  end.

(** The row of the table for the prefix whose reversal is [rp]: one
    entry per prefix of the second string, [rd] being the reversal of
    the part already passed. *)
Fixpoint lcs_row_spec (rp rd rest : list ascii) : list nat :=
  match rest with
  | [] => []
  | y :: rest' => lcs_spec rp (y :: rd) :: lcs_row_spec rp (y :: rd) rest'
  end.

(** The match returned when no column fits. *)
Definition no_match (field_name : string) : FieldMatch :=
  mkFieldMatch field_name None "none" 0 None no_match_validation.

(** The match types under which a column is bound. *)
Definition binding_match_types : list string :=
  ["content_validation"; "exact_field_name"; "exact_slug";
   "case_insensitive_field"; "case_insensitive"; "normalized_match"; "fuzzy"].

(** A match that binds a column: it is about the field asked for, of a
    binding type, with a score of at most 100. *)
Definition binding_match (field_name : string) (m : FieldMatch) : Prop :=
  fm_field m = field_name
  /\ fm_score m <= 100
  /\ In (fm_match_type m) binding_match_types.

(** The name-based steps with their scores. *)
Definition named_steps : list (string * Q) :=
  [("exact_field_name", 100); ("exact_slug", 100);
   ("case_insensitive_field", 98); ("case_insensitive", 95);
   ("normalized_match", 90)].

(** The state of the content-based pass: a best match, if any, is a
    content match for the field whose score is the best score, above 50
    and at most 100. *)
Definition content_state (field_name : string)
           (best : option FieldMatch * Q) : Prop :=
  forall m, fst best = Some m ->
    fm_field m = field_name /\ fm_match_type m = "content_validation"
    /\ fm_score m = snd best /\ 50 < snd best /\ snd best <= 100.

(** The state of the fuzzy step: a best match, if any, is a fuzzy match
    for the field whose score is the best score, at most 100. *)
Definition fuzzy_state (field_name : string)
           (best : option FieldMatch * Q) : Prop :=
  forall m, fst best = Some m ->
    fm_field m = field_name /\ fm_match_type m = "fuzzy"
    /\ fm_score m = snd best /\ snd best <= 100.

(** A field whose validation cannot raise: it is not a REGEX field, or
    its pattern compiles. *)
Definition safe_field (field_def : FieldDef) : Prop :=
  validate_type_of field_def <> "REGEX"
  \/ exists r, Re.compile (regex_of field_def) = Ok r.

(** The required fields [validate_row] reports as missing: those outside
    the exemption that are no target of the reverse mapping, in schema
    order. *)
Definition reported_missing (schema_fields : dict FieldDef)
           (column_to_field : dict string) : list string :=
  map fst
    (filter (fun kv =>
               andb (required_of (snd kv))
                    (andb (negb (String.eqb (fst kv) "DOMICILE_CODE"))
                          (negb (field_is_mapped column_to_field (fst kv)))))
       schema_fields).

(** An outcome of a mapped column: MATCH when valid, MISMATCH when
    not. *)
Definition mapped_outcome (o : FieldOutcome) : Prop :=
  (fo_status o = MATCH /\ fo_valid o = true)
  \/ (fo_status o = MISMATCH /\ fo_valid o = false).

(** A field whose single-value check cannot raise: it is not a REGEX
    field, or the pattern the check uses compiles. *)
Definition safe_single_field (field_def : FieldDef) : Prop :=
  validate_type_of field_def <> "REGEX"
  \/ exists r, Re.compile (single_value_pattern field_def) = Ok r.

(** The summary of a column all of whose [n] checked values are valid. *)
Definition all_valid_summary (n : nat) : ValidationSummary :=
  mkSummary (Some true) n (Some n) None (percentage n n) (Some []) None.

(** An entry derived from a stored mapping: a manual match bound to a
    column the mapping gives the field, or an entry without a column. *)
Definition mapping_entry (mapping : dict MappingInfo) (field_name : string)
           (m : FieldMatch) : Prop :=
  fm_field m = field_name
  /\ ((fm_match_type m = "manual_mapping" /\ fm_score m = 100
       /\ exists c ti, fm_column m = Some c /\ Py.truthy c = true
                       /\ In (c, ti) mapping /\ mi_type ti = Some field_name)
      \/ (fm_match_type m = "not_mapped" /\ fm_score m = 0
          /\ fm_column m = None)).

(** A row result is the result of [validate_row] on the row, with its
    number filled in. *)
Definition row_result_of (schema : Schema) (field_matches : dict FieldMatch)
           (row : Row) (rv : RowValidationResult) : Prop :=
  exists r, validate_row row schema field_matches = Ok r
            /\ rv_valid rv = rv_valid r /\ rv_fields rv = rv_fields r.

(** The characters [sanitize_column_name] removes. *)
Definition is_unsafe (c : ascii) : bool :=
  orb (Ascii.eqb c double_quote)
      (orb (Ascii.eqb c "'"%char) (Ascii.eqb c ";"%char)).

(** A generated mapping as it is read back from the mapping file: the
    validator and the lookups read the type of each column only. *)
Definition stored_mapping (mapping : dict MappingEntry) : dict MappingInfo :=
  map (fun ce => (fst ce, mkMappingInfo (Some (me_type (snd ce))))) mapping.

(** The column-to-type view of a generated mapping. *)
Definition types_of (mapping : dict MappingEntry) : dict string :=
  map (fun ce => (fst ce, me_type (snd ce))) mapping.

(** What the manual entry of a field is determined by: the column the
    mapping gives the field, if it has a name. *)
Definition manual_entry_of (mapping : dict MappingInfo) (field_name : string)
           (m : FieldMatch) : Prop :=
  match get_column_for_field mapping field_name with
  | Some c =>
      if Py.truthy c
      then fm_column m = Some c /\ fm_match_type m = "manual_mapping"
      else fm_column m = None /\ fm_match_type m = "not_mapped"
  | None => fm_column m = None /\ fm_match_type m = "not_mapped"
  end.



(* ================================================================= *)
(** ** Sample schemas and datasets *)

Definition column (name : string) : string * ColumnInfo :=
  (name, mkColumnInfo name 0 0 0 []).

(** A register whose only field is a required identity number. *)
Definition id_field : FieldDef :=
  mkFieldDef (Some "SA_ID_NUMBER") (Some true) None None None None None None None.

Definition register_schema : Schema :=
  mkSchema (Some "register") (Some [("ID", id_field)]) None None.

Definition register_rows : list Row := [[("ID", "123")]].

(** A contact sheet whose only field may claim two columns. *)
Definition phone_field : FieldDef :=
  mkFieldDef None None None None None None None (Some 2%Z) None.

Definition contacts_schema : Schema :=
  mkSchema (Some "contacts") (Some [("PHONE", phone_field)]) None None.

Definition contacts_columns : dict ColumnInfo := [column "A"; column "B"].

Definition contacts_rows : list Row := [[("A", "x"); ("B", "y")]].

(** Required fields without a validation rule, and with the default
    pattern. *)
Definition required_plain_field : FieldDef :=
  mkFieldDef None (Some true) None None None None None None None.

Definition required_regex_field : FieldDef :=
  mkFieldDef (Some "REGEX") (Some true) None None None None None None None.

Definition no_schema : Schema := mkSchema None None None None.

Definition blank_rows : list Row := [[("NAME", "")]].

(** A city field checked against a reference list with threshold 80. *)
Definition city_field : FieldDef :=
  mkFieldDef (Some "LEV_DISTANCE") (Some true) None None None
    (Some "cities") (Some 80) None None.

Definition cities : list ListItem :=
  [mkListItem (Some "Johannesburg") (Some ["Joburg"]);
   mkListItem (Some "Cape Town") None].

Definition city_schema : Schema :=
  mkSchema (Some "branches") (Some [("CITY", city_field)]) None
    (Some [("cities", cities)]).

Definition city_rows : list Row := [[("CITY", "Pretoria")]].

(** A shareholder register whose identity field is known under the slug
    [id_number], and a dataset with two similarly named columns. *)
Definition holder_id_field : FieldDef :=
  mkFieldDef (Some "SA_ID_NUMBER") (Some true) (Some ["id_number"])
    None None None None None None.

Definition holders_schema : Schema :=
  mkSchema (Some "holders")
    (Some [("SHAREHOLDER_ID_NUMBER", holder_id_field)]) None None.

Definition partner_column : string := "id_number_of_partner".
Definition member_column : string := "id_number_of_member".

Definition holders_columns : dict ColumnInfo :=
  [column partner_column; column member_column].

Definition holders_rows : list Row :=
  [[(partner_column, "8001015009087"); (member_column, "7502025008081")];
   [(partner_column, "9003035007085"); (member_column, "8504045006089")];
   [(partner_column, "unknown"); (member_column, "n/a")]].

(** A code field whose pattern lacks its closing parenthesis. *)
Definition code_field : FieldDef :=
  mkFieldDef (Some "REGEX") None None (Some "^([A-Z]+$") None None None None None.

Definition code_rows : list Row := [[("CODE", "AB")]].

(** A register with two required fields, neither of which is mapped. *)
Definition domicile_field : FieldDef :=
  mkFieldDef (Some "ENUM") (Some true) None None (Some "countries") None None
    None None.

Definition company_field : FieldDef :=
  mkFieldDef None (Some true) None None None None None None None.

Definition domicile_schema : Schema :=
  mkSchema (Some "domiciles") (Some [("DOMICILE_CODE", domicile_field)])
    (Some [("countries", ["ZA"; "NA"])]) None.

Definition company_schema : Schema :=
  mkSchema (Some "companies") (Some [("COMPANY_NAME", company_field)]) None None.

Definition unmatched (field_name : string) : string * FieldMatch :=
  (field_name, mkFieldMatch field_name None "none" 0 None no_match_validation).

Definition some_row : Row := [("NOTES", "first row")].

(** The shareholder name field, with its declared pattern, and a name
    entered on two lines. *)
Definition shareholder_name_field : FieldDef :=
  mkFieldDef (Some "REGEX") (Some true) None (Some "^[A-Z][a-z]+ [A-Z][a-z]+$")
    None None None None
    (Some "Validation: REGEX. The shareholder full name as on the register").

Definition two_line_name : string :=
  "Smith" ++ String Re.newline "John".

(** A branch list with a blank cell, for a city field that is not
    required. *)
Definition optional_city_field : FieldDef :=
  mkFieldDef (Some "LEV_DISTANCE") None None None None
    (Some "cities") (Some 80) None None.

Definition branch_rows : list Row :=
  [[("CITY", "Cape Town")]; [("CITY", "")]; [("CITY", "Joburg")];
   [("TOWN", "Durban")]].

(** A branch whose city is written in capitals. *)
Definition capital_city : string := "CAPE TOWN".

(** A holders register with a free-text notes column, and the match map
    that binds the identity field to its column. *)
Definition id_match : string * FieldMatch :=
  ("ID", mkFieldMatch "ID" (Some "ID") "exact_field_name" 100 None
           no_match_validation).

Definition good_row : Row := [("ID", "8001015009087"); ("NOTES", "first row")].
Definition good_row_other_notes : Row :=
  [("NOTES", "second thoughts"); ("ID", "8001015009087")].

(** A second phone number recorded under a numbered name. *)
Definition phone_matches : dict FieldMatch :=
  [("PHONE", mkFieldMatch "PHONE" (Some "A") "content_validation" 100 None
               no_match_validation);
   ("PHONE_2", mkFieldMatch "PHONE" (Some "B") "content_validation" 100 None
                 no_match_validation)].

(** A field with a tag the dispatch does not know, and a postal code
    field. *)
Definition email_field : FieldDef :=
  mkFieldDef (Some "EMAIL") (Some true) None None None None None None None.

Definition postal_field : FieldDef :=
  mkFieldDef (Some "POSTAL_CODE") (Some true) None None None None None None None.

Definition postal_schema : Schema :=
  mkSchema (Some "postal") (Some [("POSTAL", postal_field)]) None None.

(** Two schemas to choose from, and a stored mapping for the register. *)
Definition two_schemas : dict Schema :=
  [("contacts", contacts_schema); ("register", register_schema)].

Definition register_mapping : dict MappingInfo :=
  [("ID", mkMappingInfo (Some "ID"))].

(** A table with a sparsely filled column. *)
Definition table_columns : list string := ["ID"; "NOTES"].

Definition table_rows : list Row :=
  [[("ID", "8001015009087"); ("NOTES", "")];
   [("ID", "7502025009086"); ("NOTES", "moved")]].

(** A table one of whose columns has the empty name, and two fields with
    a single match each that both fit it. *)
Definition first_id_field : FieldDef :=
  mkFieldDef (Some "SA_ID_NUMBER") (Some true) None None None None None
             (Some 1%Z) None.

Definition unnamed_schema : Schema :=
  mkSchema (Some "holders")
           (Some [("OWNER_ID", first_id_field); ("PARTNER_ID", first_id_field)])
           None None.

Definition unnamed_columns : dict ColumnInfo := [column ""; column "NOTES"].

Definition unnamed_rows : list Row :=
  [[("", "8001015009087"); ("NOTES", "first row")]].

(** The value [float] reads from a string, compared with a rational. *)
Definition float_reads (s : string) (q : Q) : bool :=
  match PyFloat.py_float s with
  | Some (PyFloat.Finite r) => Qeq_bool r q
  | _ => false
  end.

(* ================================================================= *)
(** ** Checks of the runtime fragment *)

Example lev_ratio_kitten : Lev.ratio "kitten" "sitting" = 8 # 13.
Proof. vm_compute. reflexivity. Qed.

Example re_match_default : Re.re_match ".*" "" = Ok true.
Proof. reflexivity. Qed.

Example re_match_digits :
  Re.re_match "^[0-9]+(-[0-9]+)?$" "082-5551234" = Ok true
  /\ Re.re_match "^[0-9]+(-[0-9]+)?$" "08x" = Ok false
  /\ Re.re_match "[A-Z]\w*\s" "Smith J" = Ok true
  /\ Re.re_match "a|bc" "bcd" = Ok true.
Proof. repeat split; vm_compute; reflexivity. Qed.

Example re_match_malformed :
  Re.re_match "(" "abc" = Raise (re_error "missing ), unterminated subpattern")
  /\ Re.re_match "*a" "abc" = Raise (re_error "nothing to repeat")
  /\ Re.re_match "[a-" "abc" = Raise (re_error "unterminated character set")
  /\ Re.re_match "a)" "abc" = Raise (re_error "unbalanced parenthesis").
Proof. repeat split; vm_compute; reflexivity. Qed.

Example py_float_examples :
  float_reads "1234.5" (2469 # 2) = true
  /\ float_reads " -1 " (- (1 # 1)) = true
  /\ float_reads "1_000e-2" 10 = true
  /\ float_reads "0.1" (3602879701896397 # 36028797018963968) = true
  /\ float_reads "9007199254740993" 9007199254740992 = true
  /\ float_reads "32503680000.0000001" 32503680000 = true
  /\ float_reads "-1e-400" 0 = true
  /\ float_reads "2.4703282292062327e-324" 0 = true
  /\ float_reads "2.4703282292062328e-324" (1 # 2 ^ 1074) = true
  /\ float_reads "1.7976931348623158e308" (inject_Z (2 ^ 1024 - 2 ^ 971)) = true
  /\ PyFloat.py_float "1.7976931348623159e308" = Some (PyFloat.Inf false)
  /\ PyFloat.py_float "-1e999999999999" = Some (PyFloat.Inf true)
  /\ float_reads "1e-999999999999" 0 = true
  /\ PyFloat.py_float "abc" = None
  /\ PyFloat.py_float "" = None
  /\ PyFloat.py_float "1e" = None
  /\ PyFloat.py_float "1__0" = None
  /\ PyFloat.py_float (String (ascii_of_nat 28) "5") = None
  /\ float_reads (String (ascii_of_nat 160) "5") 5 = true
  /\ PyFloat.py_float "Infinity" = Some (PyFloat.Inf false)
  /\ PyFloat.py_float "-nan" = Some PyFloat.NaN.
Proof. repeat split; vm_compute; reflexivity. Qed.

Example strptime_examples :
  DateTime.strptime "2024-01-15" "%Y-%m-%d" = Some (DateTime.mkFields 2024 1 15)
  /\ DateTime.strptime "15/01/2024" "%m/%d/%Y" = None
  /\ DateTime.strptime "29.02.2023" "%d.%m.%Y" = None
  /\ DateTime.strptime "29.02.2024" "%d.%m.%Y" = Some (DateTime.mkFields 2024 2 29)
  /\ DateTime.strptime "3 Sep 2021" "%d %b %Y" = Some (DateTime.mkFields 2021 9 3)
  /\ DateTime.strptime "3 september 2021" "%d %B %Y" = Some (DateTime.mkFields 2021 9 3)
  /\ DateTime.strptime "2024-01-155" "%Y-%m-%d" = None.
Proof. repeat split; vm_compute; reflexivity. Qed.

Example helper_examples :
  validate_sa_id_number "123456789 0123" = true
  /\ validate_sa_id_number "123" = false
  /\ validate_decimal_amount "$1,234.56" = true
  /\ validate_decimal_amount "abc" = false
  /\ validate_bank_account_number "62-1234*5678" = true
  /\ validate_postal_code "7441" = true.
Proof. repeat split; vm_compute; reflexivity. Qed.

(* ================================================================= *)
(** ** The aggregate report of [validate_data] *)

(** Whatever the rows are, the report of a completed run declares every
    row valid. *)
Lemma validate_data_report_is_constant schemas mapping column_info columns
      data out :
  validate_data schemas mapping column_info columns data = Ok out ->
  ar_total_rows (out_validation_results out)
    = List.length (out_row_validations out)
  /\ ar_valid_rows (out_validation_results out)
     = List.length (out_row_validations out)
  /\ ar_invalid_rows (out_validation_results out) = 0%nat
  /\ ar_success_rate (out_validation_results out) = 100.
Proof.
  unfold validate_data.
  destruct schemas as [|[first_name first_schema] rest]; [discriminate|].
  match goal with
  | |- Py.bind ?m _ = _ -> _ => destruct m as [[[bs sc] bm]|e]
  end; simpl; [|discriminate].
  destruct (validate_rows data 0 _ bm) as [rvs|e]; simpl; [|discriminate].
  intros H. injection H as <-. simpl. repeat split.
Qed.

(** C1: the aggregate report should count the rows whose result is valid;
    on a register with one row whose identity number is malformed the row
    result is invalid, yet the report states one valid row, no invalid
    row and a success rate of 100. *)
Theorem validate_data_counts_invalid_row_as_valid :
  exists out,
    validate_data [("register", register_schema)] None [column "ID"] ["ID"]
      register_rows = Ok out
    /\ map rv_valid (out_row_validations out) = [false]
    /\ count_true rv_valid (out_row_validations out) = 0%nat
    /\ ar_total_rows (out_validation_results out) = 1%nat
    /\ ar_valid_rows (out_validation_results out) = 1%nat
    /\ ar_invalid_rows (out_validation_results out) = 0%nat
    /\ ar_success_rate (out_validation_results out) == 100.
Proof.
  eexists. split; [vm_compute; reflexivity|].
  repeat split.
Qed.

(* ================================================================= *)
(** ** The score of [match_schema] *)

Lemma percentage_nonneg a b : 0 <= percentage a b.
Proof.
  unfold percentage. destruct b as [|b]; [apply Qle_refl|].
  apply Qmult_le_0_compat; [|discriminate].
  unfold Qdiv. apply Qmult_le_0_compat.
  - unfold Qle; simpl; lia.
  - apply Qinv_le_0_compat. unfold Qle; simpl; lia.
Qed.

Lemma percentage_le_100 a b : (a <= b)%nat -> percentage a b <= 100.
Proof.
  intros Hab. unfold percentage. destruct b as [|b]; [discriminate|].
  unfold Qdiv, Qmult, Qinv, Qle, inject_Z; simpl.
  rewrite Pos.mul_1_r, Z.mul_1_r. lia.
Qed.

Lemma count_true_le {A} (p : A -> bool) l : (count_true p l <= List.length l)%nat.
Proof. unfold count_true. apply filter_length_le. Qed.

(** With at least one required field the score is a percentage of the
    required fields and stays within bounds. *)
Lemma match_score_required_bounded schema_fields st :
  required_field_names schema_fields <> [] ->
  0 <= match_score_of schema_fields st <= 100.
Proof.
  intros Hreq. unfold match_score_of.
  destruct (required_field_names schema_fields) as [|f fs] eqn:E; [congruence|].
  split; [apply percentage_nonneg|].
  apply percentage_le_100, count_true_le.
Qed.

Lemma record_match_count st key m :
  (matched_count (record_match st key m) <= S (matched_count st))%nat.
Proof. unfold record_match. destruct (is_hit m); simpl; lia. Qed.

Lemma first_pass_count column_info data schema fields :
  forall st st',
    first_pass column_info data schema fields st = Ok st' ->
    (matched_count st' <= matched_count st + List.length fields)%nat.
Proof.
  induction fields as [|[f fd] rest IH]; intros st st'; simpl.
  - intros H. injection H as <-. lia.
  - destruct (1 <? max_matches_of fd)%Z.
    + intros H. apply IH in H. lia.
    + destruct (find_best_column_match f fd column_info data schema
                  (matched_columns st)) as [m|e]; simpl; [|discriminate].
      intros H. apply IH in H.
      pose proof (record_match_count st f m). lia.
Qed.

Lemma second_pass_single column_info data schema fields :
  (forall f fd, In (f, fd) fields -> (max_matches_of fd <= 1)%Z) ->
  forall st, second_pass column_info data schema fields st = Ok st.
Proof.
  induction fields as [|[f fd] rest IH]; intros Hmax st; simpl; [reflexivity|].
  assert (E : (max_matches_of fd <=? 1)%Z = true).
  { apply Z.leb_le, (Hmax f fd). now left. }
  rewrite E. apply IH. intros f' fd' Hin. apply (Hmax f' fd'). now right.
Qed.

(** X12: the score is never negative, and it stays within 100 when no
    field may claim more than one column. *)
Lemma match_schema_score_bounded_single schema column_info data score fm :
  match_schema schema column_info data = Ok (score, fm) ->
  0 <= score
  /\ ((forall f fd, In (f, fd) (schema_fields_of schema) ->
                    (max_matches_of fd <= 1)%Z) ->
      score <= 100).
Proof.
  unfold match_schema, schema_fields_of.
  destruct (s_schema schema) as [fields|].
  - destruct (first_pass column_info data schema fields (mkState 0 [] []))
      as [st1|e] eqn:E1; simpl; [|discriminate].
    destruct (second_pass column_info data schema fields st1)
      as [st2|e] eqn:E2; simpl; [|discriminate].
    intros H. injection H as <- _.
    unfold match_score_of. split.
    + destruct (required_field_names fields); apply percentage_nonneg.
    + intros Hmax. rewrite (second_pass_single _ _ _ _ Hmax) in E2.
      injection E2 as <-.
      destruct (required_field_names fields) as [|r rs] eqn:Er.
      * apply percentage_le_100.
        apply first_pass_count in E1. simpl in E1. exact E1.
      * apply percentage_le_100, count_true_le.
  - intros H. injection H as <- _. split; [apply Qle_refl|]. intros _.
    unfold Qle; simpl; lia.
Qed.

(** C2: the score should stay within [0, 100]; for a schema without
    required fields whose only field may claim two columns, both columns
    are counted against the single field and the score is 200. *)
Theorem match_schema_score_exceeds_100 :
  exists field_matches,
    match_schema contacts_schema contacts_columns contacts_rows
      = Ok (200, field_matches)
    /\ Py.keys field_matches = ["PHONE"; "PHONE_2"]
    /\ required_field_names (schema_fields_of contacts_schema) = []
    /\ List.length (schema_fields_of contacts_schema) = 1%nat
    /\ ~ (200 <= 100)%Q.
Proof.
  eexists. split; [vm_compute; reflexivity|].
  repeat split. intros H. unfold Qle in H. simpl in H. lia.
Qed.

(* ================================================================= *)
(** ** Empty values *)

(** The single-value check settles an empty value on the [required] flag
    alone. *)
Lemma validate_single_value_empty field_def schema :
  validate_single_value "" field_def schema
  = Ok (if required_of field_def
        then mkSingle false None [Msg "Required field is empty"]
        else valid_result).
Proof. unfold validate_single_value. simpl. destruct (required_of field_def); reflexivity. Qed.

(** C6: an empty value on a required field should be invalid in both
    checks; the per-column aggregation counts it valid when the field has
    no validation rule, or the default pattern, while the single-value
    check rejects it. *)
Theorem validate_field_values_accepts_empty_required :
  (exists s,
     validate_field_values "NAME" required_plain_field blank_rows no_schema = Ok s
     /\ vs_valid s = Some true /\ vs_valid_count s = 1%nat
     /\ vs_total_count s = Some 1%nat)
  /\ (exists s,
        validate_field_values "NAME" required_regex_field blank_rows no_schema = Ok s
        /\ vs_valid s = Some true /\ vs_valid_count s = 1%nat
        /\ vs_total_count s = Some 1%nat)
  /\ (exists r,
        validate_single_value "" required_plain_field no_schema = Ok r
        /\ sr_valid r = false)
  /\ (exists r,
        validate_single_value "" required_regex_field no_schema = Ok r
        /\ sr_valid r = false).
Proof.
  repeat split; eexists; (split; [vm_compute; reflexivity|]); repeat split.
Qed.

(* ================================================================= *)
(** ** List lookups by similarity *)

Lemma check_aliases_true_iff value d aliases b :
  check_aliases value d aliases b = true
  <-> b = true
      \/ exists alias, In alias aliases /\ d <= similarity_pct alias value.
Proof.
  induction aliases as [|a rest IH]; simpl.
  - split; [auto|]. intros [H|[x [[] _]]]; assumption.
  - destruct (Qle_bool d (similarity_pct a value)) eqn:E.
    + split; [|reflexivity]. intros _. right. exists a. split; [now left|].
      now apply Qle_bool_iff.
    + rewrite IH. split.
      * intros [H|[x [Hx Hd]]]; [now left|]. right. exists x. split; [now right|assumption].
      * intros [H|[x [[<-|Hx] Hd]]]; [now left| |].
        -- apply Qle_bool_iff in Hd. congruence.
        -- right. exists x. split; assumption.
Qed.

(** In the per-column aggregation a value passes exactly when some list
    entry's name or alias reaches the threshold. *)
Lemma check_items_true_iff value d items b :
  check_items value d items b = true
  <-> b = true
      \/ exists item, In item items
           /\ (d <= similarity_pct (item_name_of item) value
               \/ exists alias, In alias (item_aliases_of item)
                    /\ d <= similarity_pct alias value).
Proof.
  revert b. induction items as [|it rest IH]; intros b; simpl.
  - split; [auto|]. intros [H|[x [[] _]]]; assumption.
  - destruct (Qle_bool d (similarity_pct (item_name_of it) value)) eqn:E.
    + split; [|reflexivity]. intros _. right. exists it. split; [now left|].
      left. now apply Qle_bool_iff.
    + rewrite IH, check_aliases_true_iff. split.
      * intros [[H|[a [Ha Hd]]]|[x [Hx Hd]]].
        -- now left.
        -- right. exists it. split; [now left|]. right. exists a. split; assumption.
        -- right. exists x. split; [now right|assumption].
      * intros [H|[x [[<-|Hx] Hd]]].
        -- left. now left.
        -- destruct Hd as [Hd|[a [Ha Hd]]].
           ++ apply Qle_bool_iff in Hd. congruence.
           ++ left. right. exists a. split; assumption.
        -- right. exists x. split; assumption.
Qed.

(** The single-value check compares against 40 whatever the schema
    declares. *)
Lemma single_value_min_distance_is_40 field_def :
  single_value_min_distance field_def = 40.
Proof. reflexivity. Qed.

(** C7: the schema-declared threshold should decide in both checks; with
    a declared threshold of 80 and no list entry within 80 of the value,
    the per-column aggregation rejects the value while the single-value
    check, comparing against 40, accepts it. *)
Theorem validate_single_value_ignores_declared_distance :
  distance_of city_field == 80
  /\ check_items "Pretoria" (distance_of city_field) cities false = false
  /\ (exists s,
        validate_field_values "CITY" city_field city_rows city_schema = Ok s
        /\ vs_valid s = Some false /\ vs_valid_count s = 0%nat)
  /\ validate_single_value "Pretoria" city_field city_schema = Ok valid_result
  /\ similarity_pct "Cape Town" "Pretoria" == 800 # 17.
Proof.
  split; [reflexivity|].
  split; [vm_compute; reflexivity|].
  split; [eexists; split; [vm_compute; reflexivity|]; split; reflexivity|].
  split; vm_compute; reflexivity.
Qed.

(* ================================================================= *)
(** ** The fuzzy step of [find_best_column_match] *)

(** No candidate at or below the similarity floor of 60 enters the fuzzy
    comparison. *)
Lemma fuzzy_slugs_floor field_name field_def data schema col_name slug best :
  Lev.ratio (fuzzy_norm slug) (fuzzy_norm col_name) * 100 <= 60 ->
  fuzzy_slugs field_name field_def data schema col_name [slug] best = Ok best.
Proof.
  intros H. simpl. unfold Qlt_bool at 2.
  apply Qle_bool_iff in H. rewrite H. simpl.
  now rewrite andb_false_r.
Qed.

(** C8: the fuzzy step should return the candidate with the greatest
    combined score; with two columns above the floor whose contents
    validate equally, the first column is returned although the second
    has the greater combined score, because the second column's
    similarity is compared with the first one's combined score. *)
Theorem fuzzy_match_is_not_the_maximum :
  exists m v,
    find_best_column_match "SHAREHOLDER_ID_NUMBER" holder_id_field
      holders_columns holders_rows holders_schema [] = Ok m
    /\ fm_match_type m = "fuzzy"
    /\ fm_column m = Some partner_column
    /\ validate_field_values member_column holder_id_field holders_rows
         holders_schema = Ok v
    /\ 60 < Lev.ratio (fuzzy_norm "id_number") (fuzzy_norm member_column) * 100
    /\ fm_score m
       < Lev.ratio (fuzzy_norm "id_number") (fuzzy_norm member_column) * 100
           * (3 # 10)
         + vs_valid_percentage v * (7 # 10).
Proof.
  eexists. eexists.
  split; [vm_compute; reflexivity|].
  split; [reflexivity|].
  split; [reflexivity|].
  split; [vm_compute; reflexivity|].
  split; vm_compute; reflexivity.
Qed.

(* ================================================================= *)
(** ** Malformed patterns *)

Lemma re_match_compile_error pattern s e :
  Re.compile pattern = Raise e -> Re.re_match pattern s = Raise e.
Proof. unfold Re.re_match. intros ->. reflexivity. Qed.

(** Every value the loop runs over reaches the type dispatch: the empty
    values of a field that is not required have been filtered out. *)
Lemma column_values_reach_dispatch column_name field_def data value :
  In value (column_values column_name field_def data) ->
  andb (negb (Py.truthy value)) (negb (required_of field_def)) = false.
Proof.
  unfold column_values. destruct (required_of field_def); simpl.
  - intros _. apply andb_false_r.
  - intros H. apply filter_In in H as [_ ->]. reflexivity.
Qed.

(** C5: a malformed pattern should cost only the affected value; as soon
    as the column has a value to check, the error of the pattern leaves
    [validate_field_values] as an exception and no summary is returned. *)
Theorem validate_field_values_raises_on_malformed_pattern
        column_name field_def data schema e :
  validate_type_of field_def = "REGEX" ->
  Re.compile (regex_of field_def) = Raise e ->
  column_values column_name field_def data <> [] ->
  validate_field_values column_name field_def data schema = Raise e.
Proof.
  intros Hty Hre Hne. unfold validate_field_values.
  destruct (column_values column_name field_def data) as [|v vs] eqn:E;
    [congruence|].
  assert (Hd : andb (negb (Py.truthy v)) (negb (required_of field_def)) = false).
  { apply (column_values_reach_dispatch column_name field_def data).
    rewrite E. now left. }
  simpl. unfold field_value_is_valid. rewrite Hd, Hty. simpl.
  rewrite (re_match_compile_error _ _ _ Hre). reflexivity.
Qed.

Lemma validate_field_values_raises_on_malformed_pattern_witness :
  validate_field_values "CODE" code_field code_rows no_schema
  = Raise (re_error "missing ), unterminated subpattern").
Proof.
  apply validate_field_values_raises_on_malformed_pattern.
  - reflexivity.
  - vm_compute. reflexivity.
  - vm_compute. discriminate.
Defined.

(** The exception is not caught on the way up: the match of the schema
    fails with it. *)
Lemma match_schema_raises_on_malformed_pattern :
  match_schema (mkSchema None (Some [("CODE", code_field)]) None None)
    [column "CODE"] code_rows
  = Raise (re_error "missing ), unterminated subpattern").
Proof. vm_compute. reflexivity. Qed.

(* ================================================================= *)
(** ** Unmapped required fields in [validate_row] *)

(** Only the names of entries with a column become targets of the
    reverse mapping. *)
Lemma column_to_field_targets fm acc field_name :
  field_is_mapped (column_to_field_of fm acc) field_name = true ->
  field_is_mapped acc field_name = true
  \/ exists m, In (field_name, m) fm /\ column_truthy (fm_column m) = true.
Proof.
  revert acc. induction fm as [|[k m] rest IH]; intros acc H; simpl in H.
  - now left.
  - assert (Hstep :
      field_is_mapped acc field_name = true
      \/ (exists m0, In (field_name, m0) rest
                     /\ column_truthy (fm_column m0) = true)
      -> field_is_mapped acc field_name = true
         \/ exists m0, In (field_name, m0) ((k, m) :: rest)
                       /\ column_truthy (fm_column m0) = true).
    { intros [Ha|[m0 [Hin Ht]]]; [now left|].
      right. exists m0. split; [now right|assumption]. }
    destruct (fm_column m) as [c|] eqn:Ec; [|now apply Hstep, IH].
    destruct (Py.truthy c) eqn:Et; [|now apply Hstep, IH].
    apply IH in H as [H|H]; [|now apply Hstep; right].
    assert (Hset : forall d,
      field_is_mapped (Py.set d c k) field_name = true ->
      field_is_mapped d field_name = true \/ k = field_name).
    { clear. induction d as [|[c' f'] d IHd]; simpl.
      - rewrite orb_false_r. intros H. right. now apply String.eqb_eq.
      - destruct (String.eqb c c'); simpl; intros H.
        + apply orb_true_iff in H as [H|H].
          * right. now apply String.eqb_eq.
          * left. rewrite H. apply orb_true_r.
        + apply orb_true_iff in H as [H|H].
          * left. now rewrite H.
          * apply IHd in H as [H|H]; [left; rewrite H; apply orb_true_r|now right]. }
    apply Hset in H as [H|<-]; [now left|].
    right. exists m. split; [now left|]. now rewrite Ec.
Qed.

(** The loop over the schema fields: results only grow, an invalid row
    stays invalid, and a required field outside the exemption that is no
    target of the reverse mapping is reported. *)
Lemma check_required_spec ctf fields valid results :
  let '(v, r) := check_required fields ctf valid results in
  (valid = false -> v = false)
  /\ (forall o, In o results -> In o r)
  /\ (forall f fd,
        In (f, fd) fields -> required_of fd = true ->
        f <> "DOMICILE_CODE" -> field_is_mapped ctf f = false ->
        v = false /\ In (missing_column_outcome f) r).
Proof.
  revert valid results.
  induction fields as [|[f0 fd0] rest IH]; intros valid results; simpl.
  - split; [auto|]. split; [auto|]. intros f fd [].
  - assert (Hskip :
      (required_of fd0 = false \/ f0 = "DOMICILE_CODE"
       \/ field_is_mapped ctf f0 = true) ->
      let '(v, r) := check_required rest ctf valid results in
      (valid = false -> v = false)
      /\ (forall o, In o results -> In o r)
      /\ (forall f fd,
            In (f, fd) ((f0, fd0) :: rest) -> required_of fd = true ->
            f <> "DOMICILE_CODE" -> field_is_mapped ctf f = false ->
            v = false /\ In (missing_column_outcome f) r)).
    { intros Hcase. specialize (IH valid results).
      destruct (check_required rest ctf valid results) as [v r].
      destruct IH as (I1 & I2 & I3).
      split; [exact I1|]. split; [exact I2|].
      intros f fd [H|H] Hr Hd Hm; [|eapply I3; eassumption].
      injection H as -> ->.
      destruct Hcase as [Hc|[Hc|Hc]]; congruence. }
    destruct (required_of fd0) eqn:Er; simpl; [|apply Hskip; now left].
    destruct (String.eqb f0 "DOMICILE_CODE") eqn:Ed.
    { apply Hskip. right. left. now apply String.eqb_eq. }
    destruct (field_is_mapped ctf f0) eqn:Em; simpl.
    { apply Hskip. right. now right. }
    clear Hskip.
    specialize (IH false (results ++ [missing_column_outcome f0])).
    destruct (check_required rest ctf false _) as [v r].
    destruct IH as (I1 & I2 & I3).
    split; [auto|]. split.
    + intros o Ho. apply I2, in_or_app. now left.
    + intros f fd [H|H] Hr Hd Hm; [|eapply I3; eassumption].
      injection H as <- <-. split; [now apply I1|].
      apply I2, in_or_app. right. now left.
Qed.

(** The loop over the mapped columns returns when every single-value
    check returns; it keeps the results so far and never turns an invalid
    row valid. *)
Lemma check_mapped_spec row schema ctf valid results :
  (forall c f, In (c, f) ctf ->
     exists r,
       validate_single_value (Py.get_default row c "")
         (Py.get_default (schema_fields_of schema) f empty_field_def) schema
       = Ok r) ->
  exists v r,
    check_mapped row schema ctf valid results = Ok (v, r)
    /\ (valid = false -> v = false)
    /\ (forall o, In o results -> In o r).
Proof.
  revert valid results.
  induction ctf as [|[c f] rest IH]; intros valid results Hret; simpl.
  - exists valid, results. repeat split; auto.
  - destruct (Hret c f (or_introl eq_refl)) as [sv Hsv]. rewrite Hsv. simpl.
    edestruct IH as (v & r & Heq & Hv & Hr);
      [intros c' f' Hin; apply Hret; now right|].
    exists v, r. split; [exact Heq|]. split.
    + intros ->. apply Hv. now destruct (sr_valid sv).
    + intros o Ho. apply Hr, in_or_app. now left.
Qed.

(** Whatever the loop over the mapped columns returns, it keeps the
    results so far and never turns an invalid row valid. *)
Lemma check_mapped_keeps row schema ctf :
  forall valid results v r,
    check_mapped row schema ctf valid results = Ok (v, r) ->
    (valid = false -> v = false) /\ (forall o, In o results -> In o r).
Proof.
  induction ctf as [|[c f] rest IH]; intros valid results v r; simpl.
  - intros H. injection H as <- <-. auto.
  - destruct (validate_single_value _ _ schema) as [sv|e]; simpl;
      [|discriminate].
    intros H. apply IH in H as [Hv Hr]. split.
    + intros ->. apply Hv. now destruct (sr_valid sv).
    + intros o Ho. apply Hr, in_or_app. now left.
Qed.

(** C3, as the code has it: a required field other than [DOMICILE_CODE]
    for which no match entry carries a column yields a [MISSING_COLUMN]
    outcome and an invalid row in every result [validate_row] returns;
    and it returns one whenever the checks of the mapped columns
    return. *)
Theorem validate_row_reports_missing_required
        row schema field_matches field_name field_def :
  In (field_name, field_def) (schema_fields_of schema) ->
  required_of field_def = true ->
  field_name <> "DOMICILE_CODE" ->
  (forall m, In (field_name, m) field_matches ->
             column_truthy (fm_column m) = false) ->
  (forall res,
     validate_row row schema field_matches = Ok res ->
     rv_valid res = false
     /\ exists o, In o (rv_fields res)
                  /\ fo_field o = field_name /\ fo_status o = MISSING_COLUMN)
  /\ ((forall c f, In (c, f) (column_to_field_of field_matches []) ->
         exists r,
           validate_single_value (Py.get_default row c "")
             (Py.get_default (schema_fields_of schema) f empty_field_def)
             schema
           = Ok r) ->
      exists res, validate_row row schema field_matches = Ok res).
Proof.
  intros Hin Hreq Hdom Hnocol. unfold validate_row.
  assert (Hunmapped :
    field_is_mapped (column_to_field_of field_matches []) field_name = false).
  { destruct (field_is_mapped _ field_name) eqn:E; [|reflexivity].
    apply column_to_field_targets in E as [E|[m [Hm Ht]]]; [discriminate|].
    rewrite (Hnocol m Hm) in Ht. discriminate. }
  pose proof (check_required_spec (column_to_field_of field_matches [])
                (schema_fields_of schema) true []) as Hcr.
  destruct (check_required _ _ true []) as [v0 r0].
  destruct Hcr as (_ & _ & H3).
  destruct (H3 _ _ Hin Hreq Hdom Hunmapped) as [-> Hin0].
  split.
  - intros res.
    destruct (check_mapped row schema _ false r0) as [[v r]|e] eqn:Em;
      simpl; [|discriminate].
    intros H. injection H as <-. simpl.
    apply check_mapped_keeps in Em as [Hv Hr].
    split; [now apply Hv|].
    exists (missing_column_outcome field_name). auto.
  - intros Hret.
    destruct (check_mapped_spec row schema _ false r0 Hret)
      as (v & r & Heq & _).
    rewrite Heq. simpl. eexists. reflexivity.
Qed.

Lemma validate_row_reports_missing_required_witness :
  validate_row some_row company_schema [unmatched "COMPANY_NAME"]
  = Ok (mkRowResult 0 false [missing_column_outcome "COMPANY_NAME"])
  /\ forall res,
       validate_row some_row company_schema [unmatched "COMPANY_NAME"] = Ok res ->
       rv_valid res = false
       /\ exists o, In o (rv_fields res)
                    /\ fo_field o = "COMPANY_NAME"
                    /\ fo_status o = MISSING_COLUMN.
Proof.
  split; [vm_compute; reflexivity|].
  apply (validate_row_reports_missing_required some_row company_schema
           [unmatched "COMPANY_NAME"] "COMPANY_NAME" company_field).
  - simpl. now left.
  - reflexivity.
  - discriminate.
  - intros m [H|[]]. injection H as <-. reflexivity.
Defined.

(** C3, as stated, fails: the required field [DOMICILE_CODE] without a
    mapped column produces no outcome at all and leaves the row valid. *)
Lemma validate_row_exempts_domicile_code :
  In ("DOMICILE_CODE", domicile_field) (schema_fields_of domicile_schema)
  /\ required_of domicile_field = true
  /\ (forall m, In ("DOMICILE_CODE", m) [unmatched "DOMICILE_CODE"] ->
                column_truthy (fm_column m) = false)
  /\ validate_row some_row domicile_schema [unmatched "DOMICILE_CODE"]
     = Ok (mkRowResult 0 true []).
Proof.
  split; [simpl; now left|]. split; [reflexivity|]. split.
  - intros m [H|[]]. injection H as <-. reflexivity.
  - vm_compute. reflexivity.
Qed.

(* ================================================================= *)
(** ** Dates *)

Lemma Qlt_bool_iff a b : Qlt_bool a b = true <-> a < b.
Proof.
  unfold Qlt_bool. rewrite negb_true_iff. split.
  - intros H. apply Qnot_le_lt. intros Hle.
    apply Qle_bool_iff in Hle. congruence.
  - intros H. destruct (Qle_bool b a) eqn:E; [|reflexivity].
    apply Qle_bool_iff in E. exfalso. exact (Qlt_not_le _ _ H E).
Qed.

Lemma Qlt_bool_false_iff a b : Qlt_bool a b = false <-> b <= a.
Proof.
  unfold Qlt_bool. rewrite negb_false_iff. apply Qle_bool_iff.
Qed.


(* ================================================================= *)
(** ** Rounding to binary64 *)

Section Rounding.

Local Open Scope Z_scope.




















Lemma finite_zero_in_range neg d :
  PyFloat.of_decimal neg d = PyFloat.Finite 0 ->
  exists ts, PyFloat.of_decimal neg d = PyFloat.Finite ts /\ (0 <= ts)%Q
             /\ (ts <= 32503680000)%Q.
Proof.
  intros ->. exists 0%Q. split; [reflexivity|].
  split; unfold Qle; simpl; lia.
Qed.









End Rounding.



(* ================================================================= *)
(** ** The lenient pattern for shareholder names *)

(** For a field so described the declared pattern plays no part. *)
Lemma single_value_pattern_lenient field_def :
  Py.startswith (description_of field_def) shareholder_name_prefix = true ->
  single_value_pattern field_def = "^.+$".
Proof. unfold single_value_pattern. intros ->. reflexivity. Qed.

Lemma compile_lenient :
  Re.compile "^.+$"
  = Ok (Re.Seq Re.Bol
          (Re.Seq (Re.Seq Re.any_char (Re.Star Re.any_char))
             (Re.Seq Re.Eol Re.Eps))).
Proof. reflexivity. Qed.

(** A run of characters other than the newline is consumed whole by the
    starred dot. *)
Lemma star_any_consumes s :
  forall n b k,
    forallb Re.not_newline s = true ->
    (List.length s <= n)%nat ->
    (forall b', k b' [] = true) ->
    Re.star_loop (Re.run Re.any_char) k n b s = true.
Proof.
  induction s as [|c s IH]; intros n b k Hs Hn Hk.
  - destruct n; simpl; rewrite Hk; reflexivity.
  - destruct n as [|n]; [simpl in Hn; lia|].
    simpl in Hs. apply andb_true_iff in Hs as [Hc Hs].
    cbn [Re.star_loop Re.run Re.any_char].
    rewrite Hc.
    assert (Hlt : (List.length s <? List.length (c :: s))%nat = true)
      by (apply Nat.ltb_lt; simpl; lia).
    rewrite Hlt. rewrite IH; [reflexivity|assumption|simpl in Hn; lia|assumption].
Qed.

(** Every non-empty value without a line break matches the lenient
    pattern. *)
Lemma lenient_accepts_single_line value :
  value <> "" ->
  forallb Re.not_newline (Py.chars value) = true ->
  Re.re_match "^.+$" value = Ok true.
Proof.
  intros Hne Hs. unfold Re.re_match. rewrite compile_lenient. simpl Py.bind.
  f_equal.
  destruct value as [|c v]; [congruence|].
  unfold Py.chars in *. simpl list_ascii_of_string in *.
  simpl in Hs. apply andb_true_iff in Hs as [Hc Hs].
  cbn [Re.run Re.any_char andb]. rewrite Hc.
  cbn [andb]. apply star_any_consumes; [assumption|lia|].
  intros b'. reflexivity.
Qed.

Lemma shareholder_name_single_line_valid value field_def schema :
  validate_type_of field_def = "REGEX" ->
  Py.startswith (description_of field_def) shareholder_name_prefix = true ->
  value <> "" ->
  forallb Re.not_newline (Py.chars value) = true ->
  validate_single_value value field_def schema = Ok valid_result.
Proof.
  intros Hty Hd Hne Hs. unfold validate_single_value.
  destruct value as [|c v]; [congruence|]. cbn [Py.truthy negb].
  rewrite Hty. cbn [String.eqb Ascii.eqb Bool.eqb andb].
  rewrite (single_value_pattern_lenient _ Hd).
  rewrite (lenient_accepts_single_line (String c v) Hne Hs). reflexivity.
Qed.

(** C10: for a field described as the shareholder full name the declared
    pattern is replaced by [^.+$], which should accept every non-empty
    value; a name entered on two lines is non-empty and is rejected,
    since the dot does not match the line break. *)
Theorem validate_single_value_rejects_two_line_name :
  validate_type_of shareholder_name_field = "REGEX"
  /\ Py.startswith (description_of shareholder_name_field)
       shareholder_name_prefix = true
  /\ single_value_pattern shareholder_name_field = "^.+$"
  /\ Py.truthy two_line_name = true
  /\ validate_single_value two_line_name shareholder_name_field no_schema
     = Ok (mkSingle false (Some "Match pattern ^.+$")
             [Msg "Value does not match pattern: ^.+$"]).
Proof.
  repeat split; vm_compute; reflexivity.
Qed.

(* ================================================================= *)
(** ** Columns are claimed once *)

(** A name-based step that hit: the hypothesis of the search gives the
    unclaimed column, the lemma [Hnamed] the conclusion. *)
Ltac named_case Hnamed :=
  let H := fresh "H" in
  intros H;
  repeat match goal with
         | E : find _ _ = Some _ |- _ =>
             apply find_some in E; destruct E as [_ E]
         | E : andb _ _ = true |- _ =>
             apply andb_true_iff in E; destruct E as [? ?]
         end;
  eapply Hnamed; [exact H|assumption|reflexivity].

Section Claims.

Variable column_info : dict ColumnInfo.
Variable data : list Row.
Variable schema : Schema.

Lemma content_pass_fresh field_name field_def matched cols :
  forall best r,
    content_pass field_name field_def data schema matched cols best = Ok r ->
    (forall m, fst best = Some m -> fresh_match matched m) ->
    forall m, fst r = Some m -> fresh_match matched m.
Proof.
  induction cols as [|col rest IH]; intros best r; simpl.
  - intros H. injection H as <-. auto.
  - destruct (Py.mem col matched) eqn:Em; [apply IH|].
    destruct (validate_field_values col field_def data schema) as [v|e];
      simpl; [|discriminate].
    intros H Hbest. eapply IH; [exact H|].
    destruct (Qlt_bool (snd best) (vs_valid_percentage v)
              && Qlt_bool 50 (vs_valid_percentage v)) eqn:Ec; [|exact Hbest].
    simpl. intros m Hm. injection Hm as <-.
    exists col. simpl. repeat split; [assumption|].
    apply andb_true_iff in Ec as [_ Ec]. apply Qlt_bool_iff in Ec.
    eapply Qlt_trans; [|exact Ec]. reflexivity.
Qed.

Lemma fuzzy_slugs_ok field_name field_def matched col slugs :
  Py.mem col matched = false ->
  forall best r,
    fuzzy_slugs field_name field_def data schema col slugs best = Ok r ->
    fuzzy_ok matched best -> fuzzy_ok matched r.
Proof.
  intros Em. induction slugs as [|slug rest IH]; intros best r; simpl.
  - intros H. injection H as <-. auto.
  - destruct (Qlt_bool (snd best) _ && Qlt_bool 60 _); [|apply IH].
    destruct (validate_field_values col field_def data schema) as [v|e];
      simpl; [|discriminate].
    intros H Hbest. eapply IH; [exact H|].
    match goal with
    | |- fuzzy_ok _ (if Qlt_bool _ ?c then _ else _) =>
        destruct (Qlt_bool (snd best) c) eqn:Ec; [|exact Hbest]
    end.
    apply Qlt_bool_iff in Ec. destruct Hbest as [H0 _].
    split; simpl.
    + eapply Qle_trans; [exact H0|]. now apply Qlt_le_weak.
    + intros m Hm. injection Hm as <-. exists col. simpl.
      repeat split; [assumption|]. eapply Qle_lt_trans; eassumption.
Qed.

Lemma fuzzy_columns_ok field_name field_def matched slugs cols :
  forall best r,
    fuzzy_columns field_name field_def data schema matched slugs cols best
    = Ok r ->
    fuzzy_ok matched best -> fuzzy_ok matched r.
Proof.
  induction cols as [|col rest IH]; intros best r; simpl.
  - intros H. injection H as <-. auto.
  - destruct (Py.mem col matched) eqn:Em; [apply IH|].
    destruct (fuzzy_slugs field_name field_def data schema col slugs best)
      as [b'|e] eqn:Es; simpl; [|discriminate].
    intros H Hbest. eapply IH; [exact H|].
    eapply fuzzy_slugs_ok; eassumption.
Qed.

Lemma named_match_fresh field_name field_def matched col match_type score m :
  named_match field_name field_def data schema col match_type score = Ok m ->
  Py.mem col matched = false -> 0 < score -> fresh_match matched m.
Proof.
  unfold named_match.
  destruct (validate_field_values col field_def data schema) as [v|e];
    simpl; [|discriminate].
  intros H Em Hs. injection H as <-. exists col. simpl. auto.
Qed.

Lemma unclaimed_mem matched col :
  unclaimed matched col = true -> Py.mem col matched = false.
Proof. unfold unclaimed. now rewrite negb_true_iff. Qed.

(** The result of [find_best_column_match] binds no column or a fresh
    one. *)
Lemma find_best_column_match_fresh field_name field_def matched m :
  find_best_column_match field_name field_def column_info data schema matched
  = Ok m ->
  fm_column m = None \/ fresh_match matched m.
Proof.
  unfold find_best_column_match.
  destruct (content_pass field_name field_def data schema matched
              (Py.keys column_info) (None, 0)) as [[bcm bcs]|e] eqn:Ec;
    cbn [Py.bind]; [|discriminate].
  assert (Hbcm : forall m0, bcm = Some m0 -> fresh_match matched m0).
  { intros m0 ->.
    eapply (content_pass_fresh _ _ _ _ _ _ Ec); [|reflexivity].
    simpl. discriminate. }
  assert (Hnamed : forall col mt sc,
    named_match field_name field_def data schema col mt sc = Ok m ->
    unclaimed matched col = true -> 0 < sc ->
    fm_column m = None \/ fresh_match matched m).
  { intros col mt sc H Hu Hs. right.
    eapply named_match_fresh; [exact H|now apply unclaimed_mem|exact Hs]. }
  cbv zeta.
  match goal with
  | |- match ?x with _ => _ end = _ -> _ => destruct x as [m0|] eqn:Econf
  end.
  { intros H. injection H as <-. right. apply Hbcm.
    destruct bcm as [m1|]; [|discriminate].
    destruct (Qlt_bool 70 bcs); [assumption|discriminate]. }
  clear Econf.
  match goal with
  | |- (if ?c then _ else _) = _ -> _ => destruct c eqn:E1
  end; [named_case Hnamed|].
  do 4 (match goal with
        | |- match ?x with _ => _ end = _ -> _ => destruct x eqn:?E
        end; [named_case Hnamed|]).
  match goal with
  | |- Py.bind ?x _ = _ -> _ => destruct x as [[bm bs]|e] eqn:Ef
  end; cbn [Py.bind]; [|discriminate].
  assert (Hf : fuzzy_ok matched (bm, bs)).
  { eapply fuzzy_columns_ok; [exact Ef|].
    split; simpl; [apply Qle_refl|discriminate]. }
  destruct bm as [m1|].
  { intros H. injection H as <-. right. now apply Hf. }
  destruct bcm as [m1|]; intros H; injection H as <-.
  - right. now apply Hbcm.
  - now left.
Qed.

End Claims.

Lemma mem_false_not_in x l : Py.mem x l = false -> ~ In x l.
Proof.
  unfold Py.mem. intros H Hin.
  assert (existsb (String.eqb x) l = true); [|congruence].
  apply existsb_exists. exists x. split; [assumption|apply String.eqb_refl].
Qed.

Lemma claimed_set_in fm k m c :
  In c (claimed_columns (Py.set fm k m)) ->
  In c (claimed_columns fm) \/ In c (claim_of m).
Proof.
  induction fm as [|[k' v'] d IH]; simpl.
  - rewrite app_nil_r. now right.
  - destruct (String.eqb k k'); simpl; intros H;
      apply in_app_or in H as [H|H].
    + now right.
    + left. apply in_or_app. now right.
    + left. apply in_or_app. now left.
    + apply IH in H as [H|H]; [left; apply in_or_app; now right|now right].
Qed.

Lemma claim_of_nodup m : NoDup (claim_of m).
Proof.
  unfold claim_of. destruct (column_truthy (fm_column m)); repeat constructor.
  intros [].
Qed.

Lemma nodup_app_intro {A} (l1 l2 : list A) :
  NoDup l1 -> NoDup l2 -> (forall x, In x l1 -> ~ In x l2) -> NoDup (l1 ++ l2).
Proof.
  induction l1 as [|a l1 IH]; simpl; intros H1 H2 Hd; [assumption|].
  inversion H1 as [|? ? Ha H1']; subst. constructor.
  - intros Hin. apply in_app_or in Hin as [Hin|Hin]; [contradiction|].
    exact (Hd a (or_introl eq_refl) Hin).
  - apply IH; auto.
Qed.

Lemma nodup_app_parts {A} (l1 l2 : list A) :
  NoDup (l1 ++ l2) ->
  NoDup l1 /\ NoDup l2 /\ forall x, In x l1 -> ~ In x l2.
Proof.
  induction l1 as [|a l1 IH]; simpl; intros H.
  - repeat split; [constructor|assumption|intros x []].
  - inversion H as [|? ? Ha H']; subst.
    destruct (IH H') as (I1 & I2 & I3). repeat split.
    + constructor; [|assumption]. intros Hin. apply Ha, in_or_app. now left.
    + assumption.
    + intros x [<-|Hx]; [|now apply I3].
      intros Hin. apply Ha, in_or_app. now right.
Qed.

(** Storing a match whose column no entry binds keeps the bound columns
    distinct, whether the key is new or overwritten. *)
Lemma claimed_set_nodup fm k m :
  NoDup (claimed_columns fm) ->
  (forall c, In c (claim_of m) -> ~ In c (claimed_columns fm)) ->
  NoDup (claimed_columns (Py.set fm k m)).
Proof.
  induction fm as [|[k' v'] d IH]; simpl; intros Hnd Hfresh.
  - rewrite app_nil_r. apply claim_of_nodup.
  - apply nodup_app_parts in Hnd as (N1 & N2 & N3).
    destruct (String.eqb k k'); simpl.
    + apply nodup_app_intro; [apply claim_of_nodup|assumption|].
      intros x Hx Hin. apply (Hfresh x Hx), in_or_app. now right.
    + apply nodup_app_intro; [assumption| |].
      * apply IH; [assumption|].
        intros c Hc Hin. apply (Hfresh c Hc), in_or_app. now right.
      * intros x Hx Hin. apply claimed_set_in in Hin as [Hin|Hin].
        -- exact (N3 x Hx Hin).
        -- apply (Hfresh x Hin), in_or_app. now left.
Qed.

Lemma fresh_claims matched m :
  fm_column m = None \/ fresh_match matched m ->
  (forall c, In c (claim_of m) -> is_hit m = true /\ ~ In c matched).
Proof.
  unfold claim_of, is_hit, column_name_of.
  intros [Hn|(c0 & Hc & Hm & Hs)] c.
  - rewrite Hn. simpl. intros [].
  - rewrite Hc. simpl. destruct (Py.truthy c0); simpl; [|intros []].
    intros [<-|[]]. split; [|now apply mem_false_not_in].
    rewrite andb_true_r. now apply Qlt_bool_iff.
Qed.

Lemma record_match_invariant st key m :
  pass_invariant st ->
  fm_column m = None \/ fresh_match (matched_columns st) m ->
  pass_invariant (record_match st key m).
Proof.
  intros [Hnd Hsub] Hm. pose proof (fresh_claims _ _ Hm) as Hc.
  assert (Hnew : NoDup (claimed_columns (Py.set (field_matches st) key m))).
  { apply claimed_set_nodup; [assumption|].
    intros c Hin Hcl. destruct (Hc c Hin) as [_ Hnot]. auto. }
  unfold record_match. destruct (is_hit m) eqn:Eh; split; simpl; try assumption.
  - intros c Hin. apply in_or_app.
    apply claimed_set_in in Hin as [Hin|Hin]; [left; auto|].
    right. unfold claim_of in Hin.
    destruct (column_truthy (fm_column m)); [assumption|destruct Hin].
  - intros c Hin. apply claimed_set_in in Hin as [Hin|Hin]; [auto|].
    destruct (Hc c Hin) as [Hhit _]. congruence.
Qed.

Section PassInvariants.

Variable column_info : dict ColumnInfo.
Variable data : list Row.
Variable schema : Schema.

Lemma first_pass_invariant fields :
  forall st st',
    first_pass column_info data schema fields st = Ok st' ->
    pass_invariant st -> pass_invariant st'.
Proof.
  induction fields as [|[f fd] rest IH]; intros st st'; simpl.
  - intros H. injection H as <-. auto.
  - destruct (1 <? max_matches_of fd)%Z; [apply IH|].
    destruct (find_best_column_match f fd column_info data schema
                (matched_columns st)) as [m|e] eqn:Em; simpl; [|discriminate].
    intros H Hinv. eapply IH; [exact H|].
    apply record_match_invariant; [assumption|].
    eapply find_best_column_match_fresh; exact Em.
Qed.

Lemma additional_matches_invariant f fd fuel :
  forall found st st',
    additional_matches column_info data schema f fd fuel found st = Ok st' ->
    pass_invariant st -> pass_invariant st'.
Proof.
  induction fuel as [|fuel IH]; intros found st st'; simpl.
  - intros H. injection H as <-. auto.
  - destruct (find_best_column_match f fd column_info data schema
                (matched_columns st)) as [m|e] eqn:Em; simpl; [|discriminate].
    destruct (is_hit m).
    + intros H Hinv. eapply IH; [exact H|].
      apply record_match_invariant; [assumption|].
      eapply find_best_column_match_fresh; exact Em.
    + intros H. injection H as <-. auto.
Qed.

Lemma second_pass_invariant fields :
  forall st st',
    second_pass column_info data schema fields st = Ok st' ->
    pass_invariant st -> pass_invariant st'.
Proof.
  induction fields as [|[f fd] rest IH]; intros st st'; simpl.
  - intros H. injection H as <-. auto.
  - destruct (max_matches_of fd <=? 1)%Z; [apply IH|].
    destruct (has_primary st f).
    + simpl.
      destruct (additional_matches column_info data schema f fd _ 1 st)
        as [st2|e] eqn:Ea; simpl; [|discriminate].
      intros H Hinv. eapply IH; [exact H|].
      eapply additional_matches_invariant; eassumption.
    + destruct (find_best_column_match f fd column_info data schema
                  (matched_columns st)) as [m|e] eqn:Em; simpl; [|discriminate].
      destruct (additional_matches column_info data schema f fd _ _ _)
        as [st2|e] eqn:Ea; simpl; [|discriminate].
      intros H Hinv. eapply IH; [exact H|].
      eapply additional_matches_invariant; [exact Ea|].
      apply record_match_invariant; [assumption|].
      eapply find_best_column_match_fresh; exact Em.
Qed.

End PassInvariants.

Lemma keys_set {V} (d : dict V) k v k' :
  In k' (Py.keys (Py.set d k v)) -> In k' (Py.keys d) \/ k' = k.
Proof.
  unfold Py.keys. induction d as [|[k0 v0] d IH]; simpl.
  - intros [<-|[]]. now right.
  - destruct (String.eqb k k0); simpl.
    + intros [H|H]; [left; now left|left; now right].
    + intros [H|H]; [left; now left|].
      apply IH in H as [H|H]; [left; now right|now right].
Qed.

Lemma record_match_keys fields st key m :
  keys_invariant fields st -> key_origin fields key ->
  keys_invariant fields (record_match st key m).
Proof.
  intros Hinv Hkey k. unfold record_match.
  destruct (is_hit m); simpl; intros H;
    apply keys_set in H as [H| ->]; auto.
Qed.

Lemma record_match_miss st key m :
  is_hit m = false ->
  matched_columns (record_match st key m) = matched_columns st.
Proof. unfold record_match. intros ->. reflexivity. Qed.

Section KeyInvariants.

Variable column_info : dict ColumnInfo.
Variable data : list Row.
Variable schema : Schema.
Variable all_fields : dict FieldDef.

Lemma first_pass_keys fields :
  incl fields all_fields ->
  forall st st',
    first_pass column_info data schema fields st = Ok st' ->
    keys_invariant all_fields st -> keys_invariant all_fields st'.
Proof.
  induction fields as [|[f fd] rest IH]; intros Hincl st st'; simpl.
  - intros H. injection H as <-. auto.
  - assert (Hrest : incl rest all_fields)
      by (intros x Hx; apply Hincl; now right).
    destruct (1 <? max_matches_of fd)%Z; [now apply IH|].
    destruct (find_best_column_match f fd column_info data schema
                (matched_columns st)) as [m|e]; simpl; [|discriminate].
    intros H Hinv. eapply IH; [assumption|exact H|].
    apply record_match_keys; [assumption|]. left.
    apply (in_map fst all_fields (f, fd)), Hincl. now left.
Qed.

Lemma additional_matches_keys f fd :
  In (f, fd) all_fields -> (1 < max_matches_of fd)%Z ->
  forall fuel found st st',
    (1 <= found)%nat ->
    (Z.of_nat (found + fuel) <= max_matches_of fd)%Z ->
    additional_matches column_info data schema f fd fuel found st = Ok st' ->
    keys_invariant all_fields st -> keys_invariant all_fields st'.
Proof.
  intros Hin Hmax.
  induction fuel as [|fuel IH]; intros found st st' Hfound Hbound; simpl.
  - intros H. injection H as <-. auto.
  - destruct (find_best_column_match f fd column_info data schema
                (matched_columns st)) as [m|e]; simpl; [|discriminate].
    destruct (is_hit m).
    + intros H Hinv. eapply (IH (S found)); [lia|lia|exact H|].
      apply record_match_keys; [assumption|]. right.
      exists f, fd, (found + 1)%nat. repeat split; try assumption; lia.
    + intros H. injection H as <-. auto.
Qed.

(** When the first search of a field finds nothing, the loop for
    additional matches repeats the same search and stops at once. *)
Lemma additional_matches_after_miss f fd fuel st m :
  find_best_column_match f fd column_info data schema (matched_columns st)
  = Ok m ->
  is_hit m = false ->
  additional_matches column_info data schema f fd fuel 0 (record_match st f m)
  = Ok (record_match st f m).
Proof.
  intros Hm Hmiss. destruct fuel as [|fuel]; simpl; [reflexivity|].
  rewrite (record_match_miss _ _ _ Hmiss), Hm. simpl. now rewrite Hmiss.
Qed.

Lemma second_pass_keys fields :
  incl fields all_fields ->
  forall st st',
    second_pass column_info data schema fields st = Ok st' ->
    keys_invariant all_fields st -> keys_invariant all_fields st'.
Proof.
  induction fields as [|[f fd] rest IH]; intros Hincl st st'; simpl.
  - intros H. injection H as <-. auto.
  - assert (Hrest : incl rest all_fields)
      by (intros x Hx; apply Hincl; now right).
    assert (Hin : In (f, fd) all_fields) by (apply Hincl; now left).
    destruct (max_matches_of fd <=? 1)%Z eqn:Emax; [now apply IH|].
    apply Z.leb_gt in Emax.
    assert (Hprimary : key_origin all_fields f).
    { left. apply (in_map fst all_fields (f, fd)), Hin. }
    destruct (has_primary st f).
    + simpl.
      destruct (additional_matches column_info data schema f fd _ 1 st)
        as [st2|e] eqn:Ea; simpl; [|discriminate].
      intros H Hinv. eapply IH; [assumption|exact H|].
      eapply (additional_matches_keys f fd Hin Emax); [| |exact Ea|exact Hinv];
        lia.
    + destruct (find_best_column_match f fd column_info data schema
                  (matched_columns st)) as [m|e] eqn:Em; simpl; [|discriminate].
      destruct (is_hit m) eqn:Eh.
      * destruct (additional_matches column_info data schema f fd _ 1 _)
          as [st2|e] eqn:Ea; simpl; [|discriminate].
        intros H Hinv. eapply IH; [assumption|exact H|].
        eapply (additional_matches_keys f fd Hin Emax); [| |exact Ea|]; try lia.
        now apply record_match_keys.
      * rewrite (additional_matches_after_miss _ _ _ _ _ Em Eh). simpl.
        intros H Hinv. eapply IH; [assumption|exact H|].
        now apply record_match_keys.
Qed.

End KeyInvariants.

(** *** The bound columns are columns of the dataset *)

Lemma mem_true_in x l : Py.mem x l = true -> In x l.
Proof.
  unfold Py.mem. intros H. apply existsb_exists in H as [y [Hy E]].
  apply String.eqb_eq in E. now subst.
Qed.

Ltac known_case Hnamed :=
  let H := fresh "H" in
  intros H;
  repeat match goal with
         | E : find _ _ = Some _ |- _ =>
             apply find_some in E; destruct E as [? E]
         | E : andb _ _ = true |- _ =>
             apply andb_true_iff in E; destruct E as [? ?]
         | E : Py.mem _ _ = true |- _ => apply mem_true_in in E
         end;
  eapply Hnamed; [exact H|assumption].

Section Known.

Variable column_info : dict ColumnInfo.
Variable data : list Row.
Variable schema : Schema.

Lemma content_pass_known field_name field_def matched known cols :
  incl cols known ->
  forall best r,
    content_pass field_name field_def data schema matched cols best = Ok r ->
    (forall m, fst best = Some m -> known_column known m) ->
    forall m, fst r = Some m -> known_column known m.
Proof.
  induction cols as [|col rest IH]; intros Hincl best r; simpl.
  - intros H. injection H as <-. auto.
  - assert (Hrest : incl rest known) by (intros x Hx; apply Hincl; now right).
    destruct (Py.mem col matched); [now apply IH|].
    destruct (validate_field_values col field_def data schema) as [v|e];
      simpl; [|discriminate].
    intros H Hbest. eapply IH; [assumption|exact H|].
    destruct (Qlt_bool (snd best) (vs_valid_percentage v)
              && Qlt_bool 50 (vs_valid_percentage v)); [|exact Hbest].
    simpl. intros m Hm. injection Hm as <-. intros c Hc. simpl in Hc.
    injection Hc as <-. apply Hincl. now left.
Qed.

Lemma fuzzy_slugs_known field_name field_def known col slugs :
  In col known ->
  forall best r,
    fuzzy_slugs field_name field_def data schema col slugs best = Ok r ->
    (forall m, fst best = Some m -> known_column known m) ->
    forall m, fst r = Some m -> known_column known m.
Proof.
  intros Hcol. induction slugs as [|slug rest IH]; intros best r; simpl.
  - intros H. injection H as <-. auto.
  - destruct (Qlt_bool (snd best) _ && Qlt_bool 60 _); [|apply IH].
    destruct (validate_field_values col field_def data schema) as [v|e];
      simpl; [|discriminate].
    intros H Hbest. eapply IH; [exact H|].
    match goal with
    | |- forall m, fst (if ?c then _ else _) = _ -> _ =>
        destruct c; [|exact Hbest]
    end.
    simpl. intros m Hm. injection Hm as <-. intros c Hc. simpl in Hc.
    now injection Hc as <-.
Qed.

Lemma fuzzy_columns_known field_name field_def matched known slugs cols :
  incl cols known ->
  forall best r,
    fuzzy_columns field_name field_def data schema matched slugs cols best
    = Ok r ->
    (forall m, fst best = Some m -> known_column known m) ->
    forall m, fst r = Some m -> known_column known m.
Proof.
  induction cols as [|col rest IH]; intros Hincl best r; simpl.
  - intros H. injection H as <-. auto.
  - assert (Hrest : incl rest known) by (intros x Hx; apply Hincl; now right).
    destruct (Py.mem col matched); [now apply IH|].
    destruct (fuzzy_slugs field_name field_def data schema col slugs best)
      as [b'|e] eqn:Es; simpl; [|discriminate].
    intros H Hbest. eapply IH; [assumption|exact H|].
    eapply fuzzy_slugs_known; [|exact Es|exact Hbest].
    apply Hincl. now left.
Qed.

Lemma named_match_known field_name field_def known col match_type score m :
  named_match field_name field_def data schema col match_type score = Ok m ->
  In col known -> known_column known m.
Proof.
  unfold named_match.
  destruct (validate_field_values col field_def data schema) as [v|e];
    simpl; [|discriminate].
  intros H Hcol. injection H as <-. intros c Hc. simpl in Hc.
  now injection Hc as <-.
Qed.

Lemma find_best_column_match_known field_name field_def matched m :
  find_best_column_match field_name field_def column_info data schema matched
  = Ok m ->
  known_column (Py.keys column_info) m.
Proof.
  unfold find_best_column_match.
  destruct (content_pass field_name field_def data schema matched
              (Py.keys column_info) (None, 0)) as [[bcm bcs]|e] eqn:Ec;
    cbn [Py.bind]; [|discriminate].
  assert (Hbcm : forall m0, bcm = Some m0 ->
                            known_column (Py.keys column_info) m0).
  { intros m0 ->.
    eapply (content_pass_known _ _ _ _ _ (incl_refl _) _ _ Ec); [|reflexivity].
    simpl. discriminate. }
  assert (Hnamed : forall col mt sc,
    named_match field_name field_def data schema col mt sc = Ok m ->
    In col (Py.keys column_info) ->
    known_column (Py.keys column_info) m).
  { intros col mt sc H Hcol. eapply named_match_known; eassumption. }
  cbv zeta.
  match goal with
  | |- match ?x with _ => _ end = _ -> _ => destruct x as [m0|] eqn:Econf
  end.
  { intros H. injection H as <-. apply Hbcm.
    destruct bcm as [m1|]; [|discriminate].
    destruct (Qlt_bool 70 bcs); [assumption|discriminate]. }
  clear Econf.
  match goal with
  | |- (if ?c then _ else _) = _ -> _ => destruct c eqn:E1
  end; [known_case Hnamed|].
  do 4 (match goal with
        | |- match ?x with _ => _ end = _ -> _ => destruct x eqn:?E
        end; [known_case Hnamed|]).
  match goal with
  | |- Py.bind ?x _ = _ -> _ => destruct x as [[bm bs]|e] eqn:Ef
  end; cbn [Py.bind]; [|discriminate].
  assert (Hf : forall m1, bm = Some m1 ->
                          known_column (Py.keys column_info) m1).
  { intros m1 ->.
    eapply (fuzzy_columns_known _ _ _ _ _ _ (incl_refl _) _ _ Ef);
      [|reflexivity].
    simpl. discriminate. }
  destruct bm as [m1|].
  { intros H. injection H as <-. now apply Hf. }
  destruct bcm as [m1|]; intros H; injection H as <-.
  - now apply Hbcm.
  - intros c Hc. discriminate.
Qed.

Lemma in_set {V} (d : dict V) k v k' v' :
  In (k', v') (Py.set d k v) -> In (k', v') d \/ v' = v.
Proof.
  induction d as [|[k0 v0] d IH]; simpl.
  - intros [H|[]]. injection H as _ <-. now right.
  - destruct (String.eqb k k0); simpl.
    + intros [H|H]; [injection H as _ <-; now right|left; now right].
    + intros [H|H]; [left; now left|].
      apply IH in H as [H|H]; [left; now right|now right].
Qed.

Lemma record_match_known known st key m :
  columns_known known st -> known_column known m ->
  columns_known known (record_match st key m).
Proof.
  intros Hinv Hm k' m'. unfold record_match.
  destruct (is_hit m); simpl; intros H;
    apply in_set in H as [H| ->]; eauto.
Qed.

Lemma first_pass_known fields :
  forall st st',
    first_pass column_info data schema fields st = Ok st' ->
    columns_known (Py.keys column_info) st ->
    columns_known (Py.keys column_info) st'.
Proof.
  induction fields as [|[f fd] rest IH]; intros st st'; simpl.
  - intros H. injection H as <-. auto.
  - destruct (1 <? max_matches_of fd)%Z; [apply IH|].
    destruct (find_best_column_match f fd column_info data schema
                (matched_columns st)) as [m|e] eqn:Em; simpl; [|discriminate].
    intros H Hinv. eapply IH; [exact H|].
    apply record_match_known; [assumption|].
    eapply find_best_column_match_known; exact Em.
Qed.

Lemma additional_matches_known f fd fuel :
  forall found st st',
    additional_matches column_info data schema f fd fuel found st = Ok st' ->
    columns_known (Py.keys column_info) st ->
    columns_known (Py.keys column_info) st'.
Proof.
  induction fuel as [|fuel IH]; intros found st st'; simpl.
  - intros H. injection H as <-. auto.
  - destruct (find_best_column_match f fd column_info data schema
                (matched_columns st)) as [m|e] eqn:Em; simpl; [|discriminate].
    destruct (is_hit m).
    + intros H Hinv. eapply IH; [exact H|].
      apply record_match_known; [assumption|].
      eapply find_best_column_match_known; exact Em.
    + intros H. injection H as <-. auto.
Qed.

Lemma second_pass_known fields :
  forall st st',
    second_pass column_info data schema fields st = Ok st' ->
    columns_known (Py.keys column_info) st ->
    columns_known (Py.keys column_info) st'.
Proof.
  induction fields as [|[f fd] rest IH]; intros st st'; simpl.
  - intros H. injection H as <-. auto.
  - destruct (max_matches_of fd <=? 1)%Z; [apply IH|].
    destruct (has_primary st f).
    + simpl.
      destruct (additional_matches column_info data schema f fd _ 1 st)
        as [st2|e] eqn:Ea; simpl; [|discriminate].
      intros H Hinv. eapply IH; [exact H|].
      eapply additional_matches_known; eassumption.
    + destruct (find_best_column_match f fd column_info data schema
                  (matched_columns st)) as [m|e] eqn:Em; simpl; [|discriminate].
      destruct (additional_matches column_info data schema f fd _ _ _)
        as [st2|e] eqn:Ea; simpl; [|discriminate].
      intros H Hinv. eapply IH; [exact H|].
      eapply additional_matches_known; [exact Ea|].
      apply record_match_known; [assumption|].
      eapply find_best_column_match_known; exact Em.
Qed.

End Known.

Lemma get_in {V} (d : dict V) k v : Py.get d k = Some v -> In (k, v) d.
Proof.
  induction d as [|[k0 v0] d IH]; simpl; [discriminate|].
  destruct (String.eqb k k0) eqn:E.
  - intros H. injection H as ->. apply String.eqb_eq in E as ->. now left.
  - intros H. right. now apply IH.
Qed.

Lemma get_in_claimed fm k m c :
  Py.get fm k = Some m -> fm_column m = Some c -> Py.truthy c = true ->
  In c (claimed_columns fm).
Proof.
  induction fm as [|[k' v'] d IH]; simpl; [discriminate|].
  destruct (String.eqb k k').
  - intros H Hc Ht. injection H as ->. apply in_or_app. left.
    unfold claim_of, column_name_of. rewrite Hc. simpl. rewrite Ht. now left.
  - intros H Hc Ht. apply in_or_app. right. now apply IH.
Qed.

(** Distinct bound columns, read through lookups: two keys that bind the
    same column are the same key. *)
Lemma claimed_nodup_lookup fm :
  NoDup (claimed_columns fm) ->
  forall k1 k2 m1 m2 c,
    Py.get fm k1 = Some m1 -> Py.get fm k2 = Some m2 ->
    fm_column m1 = Some c -> fm_column m2 = Some c -> Py.truthy c = true ->
    k1 = k2.
Proof.
  induction fm as [|[k v] d IH]; simpl; intros Hnd k1 k2 m1 m2 c;
    [discriminate|].
  apply nodup_app_parts in Hnd as (N1 & N2 & N3).
  assert (Hhead : forall m, fm_column m = Some c -> Py.truthy c = true ->
                            In c (claim_of m)).
  { intros m Hc Ht. unfold claim_of, column_name_of. rewrite Hc. simpl.
    rewrite Ht. now left. }
  destruct (String.eqb k1 k) eqn:E1, (String.eqb k2 k) eqn:E2;
    intros H1 H2 C1 C2 Ht.
  - apply String.eqb_eq in E1, E2. congruence.
  - injection H1 as ->. exfalso.
    apply (N3 c (Hhead _ C1 Ht)). eapply get_in_claimed; eassumption.
  - injection H2 as ->. exfalso.
    apply (N3 c (Hhead _ C2 Ht)). eapply get_in_claimed; eassumption.
  - eapply IH; eassumption.
Qed.

(** X30: in the match map of a completed pass the columns bound by the
    entries are pairwise distinct: two entries under different names, be
    they fields with a single match or the numbered entries of a field
    with several, never bind the same column (a column is bound when it
    is neither absent nor the empty name; when the dataset has no column
    with the empty name, every column of an entry is bound); and every
    name in the map is a field of the schema or the numbered name
    [field_k], [k >= 2], of a field with [max_matches > 1]. *)
Theorem match_schema_claims_distinct schema column_info data score fm :
  match_schema schema column_info data = Ok (score, fm) ->
  NoDup (claimed_columns fm)
  /\ (forall k1 k2 m1 m2 c,
        Py.get fm k1 = Some m1 -> Py.get fm k2 = Some m2 ->
        fm_column m1 = Some c -> fm_column m2 = Some c ->
        Py.truthy c = true -> k1 = k2)
  /\ ((forall c, In c (Py.keys column_info) -> c <> "") ->
      forall k1 k2 m1 m2 c,
        Py.get fm k1 = Some m1 -> Py.get fm k2 = Some m2 ->
        fm_column m1 = Some c -> fm_column m2 = Some c -> k1 = k2)
  /\ (forall k, In k (Py.keys fm) -> key_origin (schema_fields_of schema) k).
Proof.
  unfold match_schema, schema_fields_of. intros H.
  assert (Hall :
    NoDup (claimed_columns fm)
    /\ (forall k m, In (k, m) fm -> known_column (Py.keys column_info) m)
    /\ forall k, In k (Py.keys fm) ->
                 key_origin (match s_schema schema with
                             | Some fs => fs | None => [] end) k).
  { destruct (s_schema schema) as [fields|].
    - destruct (first_pass column_info data schema fields (mkState 0 [] []))
        as [st1|e] eqn:E1; simpl in H; [|discriminate].
      destruct (second_pass column_info data schema fields st1)
        as [st2|e] eqn:E2; simpl in H; [|discriminate].
      injection H as _ <-. split; [|split].
      + eapply second_pass_invariant; [exact E2|].
        eapply first_pass_invariant; [exact E1|].
        split; simpl; [constructor|intros c []].
      + eapply (second_pass_known column_info data schema); [exact E2|].
        eapply (first_pass_known column_info data schema); [exact E1|].
        intros k m [].
      + eapply (second_pass_keys column_info data schema fields fields);
          [apply incl_refl|exact E2|].
        eapply (first_pass_keys column_info data schema fields fields);
          [apply incl_refl|exact E1|].
        intros k [].
    - injection H as _ <-.
      split; [constructor|]. split; [intros k m []|intros k []]. }
  destruct Hall as (Hnd & Hknown & Hkeys).
  split; [exact Hnd|]. split; [now apply claimed_nodup_lookup|].
  split; [|exact Hkeys].
  intros Hnames k1 k2 m1 m2 c G1 G2 C1 C2.
  apply (claimed_nodup_lookup fm Hnd k1 k2 m1 m2 c G1 G2 C1 C2).
  assert (Hc : c <> "").
  { apply Hnames, (Hknown k1 m1); [now apply get_in|exact C1]. }
  destruct c; [congruence|reflexivity].
Qed.

Lemma match_schema_claims_distinct_witness :
  exists fm,
    match_schema contacts_schema contacts_columns contacts_rows = Ok (200, fm)
    /\ Py.keys fm = ["PHONE"; "PHONE_2"]
    /\ claimed_columns fm = ["A"; "B"]
    /\ NoDup (claimed_columns fm).
Proof.
  eexists. split; [vm_compute; reflexivity|].
  split; [reflexivity|]. split; [reflexivity|].
  eapply (match_schema_claims_distinct contacts_schema contacts_columns
            contacts_rows 200).
  vm_compute. reflexivity.
Defined.

(* ================================================================= *)
(** ** The summary of [validate_field_values] *)

(** Apart from a pattern, nothing in the verdict for a value can fail. *)
Lemma field_value_is_valid_returns field_def schema value :
  validate_type_of field_def <> "REGEX"
  \/ (exists r, Re.compile (regex_of field_def) = Ok r) ->
  exists b, field_value_is_valid field_def schema value = Ok b.
Proof.
  intros H. unfold field_value_is_valid.
  destruct (negb (Py.truthy value) && negb (required_of field_def));
    [eexists; reflexivity|].
  destruct (String.eqb (validate_type_of field_def) "REGEX") eqn:E.
  - apply String.eqb_eq in E. destruct H as [H|[r Hr]]; [congruence|].
    unfold Re.re_match. rewrite Hr. simpl. eexists. reflexivity.
  - repeat match goal with
           | |- exists b, (if ?c then _ else _) = _ => destruct c
           end; eexists; reflexivity.
Qed.

Lemma validate_values_counts field_def schema values :
  forall valid_count errors valid_count' errors',
    validate_values field_def schema values valid_count errors
    = Ok (valid_count', errors') ->
    (valid_count' + List.length errors'
     = valid_count + List.length errors + List.length values)%nat
    /\ (valid_count <= valid_count')%nat
    /\ (List.length errors <= List.length errors')%nat.
Proof.
  induction values as [|v rest IH]; intros vc errs vc' errs'; simpl.
  - intros H. injection H as <- <-. lia.
  - destruct (field_value_is_valid field_def schema v) as [[|]|e]; simpl;
      [| |discriminate]; intros H; apply IH in H.
    + lia.
    + rewrite length_app in H. simpl in H. lia.
Qed.

Lemma validate_values_returns field_def schema values :
  (forall v, In v values ->
             exists b, field_value_is_valid field_def schema v = Ok b) ->
  forall valid_count errors,
    exists r, validate_values field_def schema values valid_count errors = Ok r.
Proof.
  induction values as [|v rest IH]; intros Hret vc errs; simpl.
  - eexists. reflexivity.
  - destruct (Hret v (or_introl eq_refl)) as [b ->]. simpl.
    destruct b; apply IH; intros v' Hv'; apply Hret; now right.
Qed.

Lemma column_values_length column_name field_def data :
  (List.length (column_values column_name field_def data)
   <= List.length data)%nat.
Proof.
  unfold column_values. destruct (negb (required_of field_def)).
  - etransitivity; [apply filter_length_le|]. now rewrite length_map.
  - now rewrite length_map.
Qed.

(** X1: a summary returned by [validate_field_values] is coherent: the
    total is the number of values checked and never exceeds the number
    of rows, the valid count never exceeds the total, the flag says
    whether the two are equal, the percentage lies within [0, 100], and
    the error list holds one entry per invalid value up to five. *)
Theorem validate_field_values_summary column_name field_def data schema s :
  validate_field_values column_name field_def data schema = Ok s ->
  exists total errors,
    vs_total_count s = Some total
    /\ total = List.length (column_values column_name field_def data)
    /\ (total <= List.length data)%nat
    /\ (vs_valid_count s <= total)%nat
    /\ vs_valid s = Some (vs_valid_count s =? total)%nat
    /\ 0 <= vs_valid_percentage s /\ vs_valid_percentage s <= 100
    /\ vs_errors s = Some errors
    /\ List.length errors = Nat.min 5 (total - vs_valid_count s).
Proof.
  unfold validate_field_values.
  destruct (validate_values field_def schema
              (column_values column_name field_def data) 0 [])
    as [[vc errs]|e] eqn:E; simpl; [|discriminate].
  intros H. injection H as <-. simpl.
  apply validate_values_counts in E. simpl in E.
  destruct E as (Hsum & _ & _).
  exists (List.length (column_values column_name field_def data)),
         (firstn 5 errs).
  split; [reflexivity|]. split; [reflexivity|].
  split; [apply column_values_length|].
  split; [lia|]. split; [reflexivity|].
  split; [apply percentage_nonneg|].
  split; [apply percentage_le_100; lia|].
  split; [reflexivity|].
  rewrite length_firstn.
  replace (List.length (column_values column_name field_def data) - vc)%nat
    with (List.length errs) by lia.
  reflexivity.
Qed.

Lemma validate_field_values_summary_witness :
  exists total errors,
    vs_total_count
      (mkSummary (Some false) 0 (Some 1%nat) None 0
         (Some ["Invalid value: Pretoria"]) None) = Some total
    /\ total = List.length (column_values "CITY" city_field city_rows)
    /\ (total <= List.length city_rows)%nat
    /\ (0 <= total)%nat
    /\ Some false = Some (0 =? total)%nat
    /\ 0 <= 0 /\ 0 <= 100
    /\ Some ["Invalid value: Pretoria"] = Some errors
    /\ List.length errors = Nat.min 5 (total - 0).
Proof.
  apply (validate_field_values_summary "CITY" city_field city_rows city_schema).
  vm_compute. reflexivity.
Defined.

(** X2: [validate_field_values] returns a summary for every column and
    dataset unless the field is a REGEX field whose pattern does not
    compile; no other validation type can raise. *)
Theorem validate_field_values_returns column_name field_def data schema :
  validate_type_of field_def <> "REGEX"
  \/ (exists r, Re.compile (regex_of field_def) = Ok r) ->
  exists s, validate_field_values column_name field_def data schema = Ok s.
Proof.
  intros H. unfold validate_field_values.
  destruct (validate_values_returns field_def schema
              (column_values column_name field_def data)
              (fun v _ => field_value_is_valid_returns field_def schema v H)
              0%nat []) as [[vc errs] ->].
  simpl. eexists. reflexivity.
Qed.

Lemma validate_field_values_returns_witness :
  exists s, validate_field_values "CITY" city_field city_rows city_schema = Ok s.
Proof.
  apply validate_field_values_returns. left. discriminate.
Defined.

(** X3: for a field that is not required, a row whose cell is empty or
    absent leaves the summary untouched: only non-empty cells are
    counted. *)
Theorem validate_field_values_skips_blank
        column_name field_def before row after schema :
  required_of field_def = false ->
  Py.get_default row column_name "" = "" ->
  validate_field_values column_name field_def (before ++ row :: after) schema
  = validate_field_values column_name field_def (before ++ after) schema.
Proof.
  intros Hreq Hblank. unfold validate_field_values, column_values.
  rewrite Hreq. simpl negb. cbv iota.
  rewrite !map_app, !filter_app. simpl. rewrite Hblank. reflexivity.
Qed.

Lemma validate_field_values_skips_blank_witness :
  validate_field_values "CITY" optional_city_field
    ([[("CITY", "Cape Town")]] ++ [("CITY", "")]
       :: [[("CITY", "Joburg")]; [("TOWN", "Durban")]]) city_schema
  = validate_field_values "CITY" optional_city_field
      ([[("CITY", "Cape Town")]] ++ [[("CITY", "Joburg")]; [("TOWN", "Durban")]])
      city_schema.
Proof.
  apply validate_field_values_skips_blank; reflexivity.
Defined.

(** X4: a column with nothing to check (no rows, or only empty or absent
    cells for a field that is not required) gets the summary of an empty
    column, flagged valid with a percentage of 0, whatever the
    validation type and even for a pattern that does not compile. *)
Theorem validate_field_values_no_values column_name field_def data schema :
  (data = []
   \/ (required_of field_def = false
       /\ forall row, In row data -> Py.get_default row column_name "" = "")) ->
  validate_field_values column_name field_def data schema
  = Ok empty_column_summary.
Proof.
  intros H.
  assert (E : column_values column_name field_def data = []).
  { unfold column_values. destruct H as [->|[Hreq Hblank]].
    - simpl. now destruct (negb (required_of field_def)).
    - rewrite Hreq. simpl. induction data as [|row rest IH]; [reflexivity|].
      simpl. rewrite (Hblank row (or_introl eq_refl)). simpl.
      apply IH. intros r Hr. apply Hblank. now right. }
  unfold validate_field_values. rewrite E. reflexivity.
Qed.

Lemma validate_field_values_no_values_witness :
  validate_field_values "CODE" code_field [[("NAME", "x")]; [("CODE", "")]]
    no_schema
  = Ok empty_column_summary.
Proof.
  apply validate_field_values_no_values. right. split; [reflexivity|].
  intros row [<-|[<-|[]]]; reflexivity.
Defined.

(* ================================================================= *)
(** ** Similarity *)

Lemma lcs_spec_nil_r xs : lcs_spec xs [] = 0%nat.
Proof. destruct xs; reflexivity. Qed.

Lemma lcs_spec_cons x xs y ys :
  lcs_spec (x :: xs) (y :: ys)
  = if Ascii.eqb x y then S (lcs_spec xs ys)
    else Nat.max (lcs_spec xs (y :: ys)) (lcs_spec (x :: xs) ys).
Proof. reflexivity. Qed.

Lemma lcs_row_correct a rp rest :
  forall rd,
    Lev.lcs_row a rest (lcs_row_spec rp rd rest)
      (lcs_spec rp rd) (lcs_spec (a :: rp) rd)
    = lcs_row_spec (a :: rp) rd rest.
Proof.
  induction rest as [|y rest IH]; intros rd; [reflexivity|].
  cbn [Lev.lcs_row lcs_row_spec].
  rewrite <- (lcs_spec_cons a rp y rd). f_equal. apply IH.
Qed.

Lemma lcs_rows_correct xs ys :
  forall rp,
    Lev.lcs_rows xs ys (lcs_row_spec rp [] ys)
    = lcs_row_spec (rev xs ++ rp) [] ys.
Proof.
  induction xs as [|a xs IH]; intros rp; [reflexivity|].
  cbn [Lev.lcs_rows].
  pose proof (lcs_row_correct a rp ys []) as H.
  rewrite lcs_spec_nil_r in H. cbn [lcs_spec] in H. rewrite H.
  rewrite IH. simpl. now rewrite <- app_assoc.
Qed.

Lemma lcs_row_spec_nil rd rest :
  lcs_row_spec [] rd rest = repeat 0%nat (List.length rest).
Proof.
  revert rd. induction rest as [|y rest IH]; intros rd; [reflexivity|].
  simpl. f_equal. apply IH.
Qed.

Lemma lcs_row_spec_last rp rest :
  forall rd d,
    last (lcs_row_spec rp rd rest) d
    = match rest with
      | [] => d
      | _ :: _ => lcs_spec rp (rev rest ++ rd)
      end.
Proof.
  induction rest as [|y rest IH]; intros rd d; [reflexivity|].
  cbn [lcs_row_spec]. destruct rest as [|z rest'].
  - reflexivity.
  - change (last (lcs_spec rp (y :: rd) :: lcs_row_spec rp (y :: rd) (z :: rest')) d)
      with (last (lcs_row_spec rp (y :: rd) (z :: rest')) d).
    rewrite IH. simpl. now rewrite <- !app_assoc.
Qed.

(** [Lev.lcs] is the length of a longest common subsequence. *)
Lemma lcs_correct s t :
  Lev.lcs s t = lcs_spec (rev (Py.chars s)) (rev (Py.chars t)).
Proof.
  unfold Lev.lcs. rewrite <- (lcs_row_spec_nil [] (Py.chars t)).
  rewrite lcs_rows_correct, lcs_row_spec_last, !app_nil_r.
  destruct (Py.chars t); [now rewrite lcs_spec_nil_r|reflexivity].
Qed.

Lemma lcs_spec_le xs :
  forall ys, (lcs_spec xs ys <= List.length xs)%nat
             /\ (lcs_spec xs ys <= List.length ys)%nat.
Proof.
  induction xs as [|x xs IHx]; intros ys; [simpl; lia|].
  induction ys as [|y ys IHy]; [simpl; lia|].
  rewrite lcs_spec_cons. destruct (Ascii.eqb x y).
  - destruct (IHx ys). simpl. lia.
  - destruct (IHx (y :: ys)). simpl in *. lia.
Qed.

Lemma lcs_spec_refl xs : lcs_spec xs xs = List.length xs.
Proof.
  induction xs as [|x xs IH]; [reflexivity|].
  rewrite lcs_spec_cons, Ascii.eqb_refl, IH. reflexivity.
Qed.

Lemma chars_length s : List.length (Py.chars s) = String.length s.
Proof. induction s as [|c s IH]; simpl; [reflexivity|now rewrite IH]. Qed.

Lemma lcs_le s t :
  (Lev.lcs s t <= String.length s)%nat /\ (Lev.lcs s t <= String.length t)%nat.
Proof.
  rewrite lcs_correct, <- !chars_length.
  destruct (lcs_spec_le (rev (Py.chars s)) (rev (Py.chars t))) as [H1 H2].
  rewrite !length_rev in *. auto.
Qed.

Lemma Zpos_of_nat_S n : Z.pos (Pos.of_nat (S n)) = Z.of_nat (S n).
Proof. rewrite <- Pos.of_nat_succ, Zpos_P_of_succ_nat. lia. Qed.

Lemma ratio_bounds s t : 0 <= Lev.ratio s t /\ Lev.ratio s t <= 1.
Proof.
  unfold Lev.ratio. destruct (lcs_le s t) as [H1 H2].
  destruct (String.length s + String.length t)%nat as [|n] eqn:E.
  - split; unfold Qle; simpl; lia.
  - split; unfold Qle; cbn [Qnum Qden]; rewrite ?Zpos_of_nat_S; lia.
Qed.

Lemma ratio_refl s : Lev.ratio s s == 1.
Proof.
  unfold Lev.ratio.
  assert (H : Lev.lcs s s = String.length s).
  { rewrite lcs_correct, lcs_spec_refl, length_rev. apply chars_length. }
  destruct (String.length s + String.length s)%nat as [|n] eqn:E;
    [reflexivity|].
  unfold Qeq. cbn [Qnum Qden]. rewrite Zpos_of_nat_S, H. lia.
Qed.


Lemma similarity_pct_bounds a value :
  0 <= similarity_pct a value /\ similarity_pct a value <= 100.
Proof.
  unfold similarity_pct.
  destruct (ratio_bounds (Py.lower a) (Py.lower value)) as [H0 H1].
  split; lra.
Qed.

Lemma similarity_pct_same a value :
  Py.lower a = Py.lower value -> similarity_pct a value == 100.
Proof.
  intros H. unfold similarity_pct. rewrite H, ratio_refl. reflexivity.
Qed.

Lemma best_of_aliases_ge value item_name aliases :
  forall best,
    snd best <= snd (best_of_aliases value item_name aliases best)
    /\ forall alias, In alias aliases ->
         similarity_pct alias value
         <= snd (best_of_aliases value item_name aliases best).
Proof.
  induction aliases as [|a rest IH]; intros best; simpl.
  - split; [apply Qle_refl|intros alias []].
  - match goal with
    | |- context [best_of_aliases _ _ _ ?b] => destruct (IH b) as [Hb Hin]
    end.
    destruct (Qlt_bool (snd best) (similarity_pct a value)) eqn:E;
      simpl in Hb.
    + apply Qlt_bool_iff in E. split.
      * eapply Qle_trans; [apply Qlt_le_weak; exact E|exact Hb].
      * intros alias [<-|H]; [exact Hb|now apply Hin].
    + apply Qlt_bool_false_iff in E. split; [exact Hb|].
      intros alias [<-|H]; [|now apply Hin].
      eapply Qle_trans; [exact E|exact Hb].
Qed.

(** The scan of the single-value check ends with a score no smaller
    than the similarity of any name or alias in the list. *)
Lemma best_of_items_ge value items :
  forall best,
    snd best <= snd (best_of_items value items best)
    /\ forall item, In item items ->
         similarity_pct (item_name_of item) value
         <= snd (best_of_items value items best)
         /\ forall alias, In alias (item_aliases_of item) ->
              similarity_pct alias value
              <= snd (best_of_items value items best).
Proof.
  induction items as [|it rest IH]; intros best; simpl.
  - split; [apply Qle_refl|intros item []].
  - match goal with
    | |- context [best_of_items _ _ ?b] => destruct (IH b) as [Hb Hin]
    end.
    match goal with
    | Hb : snd (best_of_aliases _ _ _ ?b1) <= _ |- _ =>
        destruct (best_of_aliases_ge value (item_name_of it)
                    (item_aliases_of it) b1) as [Ha Hal];
        assert (H1 : snd best <= snd b1
                     /\ similarity_pct (item_name_of it) value <= snd b1)
    end.
    { destruct (Qlt_bool (snd best) (similarity_pct (item_name_of it) value))
        eqn:E; simpl.
      - apply Qlt_bool_iff in E. split; [now apply Qlt_le_weak|apply Qle_refl].
      - apply Qlt_bool_false_iff in E. split; [apply Qle_refl|exact E]. }
    destruct H1 as [H1 H2]. split.
    + eapply Qle_trans; [exact H1|]. eapply Qle_trans; [exact Ha|exact Hb].
    + intros item [<-|H]; [|now apply Hin]. split.
      * eapply Qle_trans; [exact H2|]. eapply Qle_trans; [exact Ha|exact Hb].
      * intros alias Hal'. eapply Qle_trans; [apply Hal, Hal'|exact Hb].
Qed.

(** X5: a value that equals, without regard to case, the name or an
    alias of an entry of the field's list passes the LEV_DISTANCE check:
    in the per-column check for every declared distance up to 100, and
    in the single-value check for every non-empty value. *)
Theorem lev_distance_accepts_listed_name value field_def schema item :
  validate_type_of field_def = "LEV_DISTANCE" ->
  In item (list_items_of schema (list_of field_def)) ->
  (Py.lower (item_name_of item) = Py.lower value
   \/ exists alias, In alias (item_aliases_of item)
                    /\ Py.lower alias = Py.lower value) ->
  (distance_of field_def <= 100 ->
   field_value_is_valid field_def schema value = Ok true)
  /\ (Py.truthy value = true ->
      validate_single_value value field_def schema = Ok valid_result).
Proof.
  intros Hty Hin Hsame. split.
  - intros Hd. unfold field_value_is_valid.
    destruct (negb (Py.truthy value) && negb (required_of field_def));
      [reflexivity|].
    rewrite Hty. simpl. f_equal.
    apply check_items_true_iff. right. exists item. split; [exact Hin|].
    destruct Hsame as [Hn|[alias [Ha Hn]]].
    + left. rewrite (similarity_pct_same _ _ Hn). exact Hd.
    + right. exists alias. split; [exact Ha|].
      rewrite (similarity_pct_same _ _ Hn). exact Hd.
  - intros Ht. unfold validate_single_value. rewrite Ht, Hty. simpl.
    destruct (best_of_items value (list_items_of schema (list_of field_def))
                (None, 0)) as [bm bs] eqn:Eb.
    assert (Hbs : 100 <= bs).
    { destruct (best_of_items_ge value
                  (list_items_of schema (list_of field_def)) (None, 0))
        as [_ Hge].
      rewrite Eb in Hge. destruct (Hge item Hin) as [Hn Hal]. simpl in *.
      destruct Hsame as [Hs|[alias [Ha Hs]]].
      - rewrite <- (similarity_pct_same _ _ Hs). exact Hn.
      - rewrite <- (similarity_pct_same _ _ Hs). now apply Hal. }
    assert (E : Qlt_bool bs (single_value_min_distance field_def) = false).
    { apply Qlt_bool_false_iff. unfold single_value_min_distance.
      eapply Qle_trans; [|exact Hbs]. unfold Qle; simpl; lia. }
    rewrite E. reflexivity.
Qed.

Lemma lev_distance_accepts_listed_name_witness :
  field_value_is_valid city_field city_schema capital_city = Ok true
  /\ validate_single_value capital_city city_field city_schema
     = Ok valid_result.
Proof.
  destruct (lev_distance_accepts_listed_name capital_city city_field
              city_schema (mkListItem (Some "Cape Town") None)) as [H1 H2].
  - reflexivity.
  - simpl. right. now left.
  - left. reflexivity.
  - split; [apply H1; unfold Qle; simpl; lia|apply H2; reflexivity].
Defined.

(* ================================================================= *)
(** ** Results of [find_best_column_match] *)

Lemma find_none_all {A} (p : A -> bool) l :
  (forall x, In x l -> p x = false) -> find p l = None.
Proof.
  induction l as [|a l IH]; intros H; simpl; [reflexivity|].
  rewrite (H a (or_introl eq_refl)). apply IH. intros x Hx. apply H. now right.
Qed.

Lemma content_pass_all_claimed field_name field_def data schema matched cols :
  (forall c, In c cols -> Py.mem c matched = true) ->
  forall best,
    content_pass field_name field_def data schema matched cols best = Ok best.
Proof.
  induction cols as [|c rest IH]; intros H best; simpl; [reflexivity|].
  rewrite (H c (or_introl eq_refl)). apply IH. intros x Hx. apply H. now right.
Qed.

Lemma fuzzy_columns_all_claimed
      field_name field_def data schema matched slugs cols :
  (forall c, In c cols -> Py.mem c matched = true) ->
  forall best,
    fuzzy_columns field_name field_def data schema matched slugs cols best
    = Ok best.
Proof.
  induction cols as [|c rest IH]; intros H best; simpl; [reflexivity|].
  rewrite (H c (or_introl eq_refl)). apply IH. intros x Hx. apply H. now right.
Qed.

(** X6: when the dataset has no column left to claim (no column at all,
    or every column already matched), [find_best_column_match] returns
    the no-match entry, with no column, type "none" and score 0, and
    does so without validating anything. *)
Theorem find_best_column_match_no_candidates
        field_name field_def column_info data schema matched :
  (forall c, In c (Py.keys column_info) -> Py.mem c matched = true) ->
  find_best_column_match field_name field_def column_info data schema matched
  = Ok (no_match field_name).
Proof.
  intros H. unfold find_best_column_match.
  rewrite (content_pass_all_claimed _ _ _ _ _ _ H). cbn [Py.bind].
  cbv zeta.
  assert (Hfree : forall c, In c (Py.keys column_info) ->
                            unclaimed matched c = false).
  { intros c Hc. unfold unclaimed. now rewrite (H c Hc). }
  assert (E1 : Py.mem field_name (Py.keys column_info)
               && unclaimed matched field_name = false).
  { destruct (Py.mem field_name (Py.keys column_info)) eqn:E; [|reflexivity].
    apply mem_true_in in E. now rewrite (Hfree _ E). }
  rewrite E1.
  rewrite (find_none_all _ (slugs_of field_name field_def)).
  2:{ intros slug _.
      destruct (Py.mem slug (Py.keys column_info)) eqn:E; [|reflexivity].
      apply mem_true_in in E. now rewrite (Hfree _ E). }
  rewrite (find_none_all _ (Py.keys column_info)).
  2:{ intros c Hc. now rewrite (Hfree c Hc). }
  rewrite (find_none_all _ (Py.keys column_info)).
  2:{ intros c Hc. now rewrite (Hfree c Hc). }
  rewrite (find_none_all _ (Py.keys column_info)).
  2:{ intros c Hc. now rewrite (Hfree c Hc). }
  rewrite (fuzzy_columns_all_claimed _ _ _ _ _ _ _ H). reflexivity.
Qed.

Lemma find_best_column_match_no_candidates_witness :
  find_best_column_match "CODE" code_field [column "CODE"] code_rows no_schema
    ["CODE"]
  = Ok (no_match "CODE").
Proof.
  apply find_best_column_match_no_candidates.
  intros c [<-|[]]. reflexivity.
Defined.


Lemma validate_field_values_percentage column_name field_def data schema v :
  validate_field_values column_name field_def data schema = Ok v ->
  0 <= vs_valid_percentage v /\ vs_valid_percentage v <= 100.
Proof.
  unfold validate_field_values.
  destruct (validate_values field_def schema
              (column_values column_name field_def data) 0 [])
    as [[vc errs]|e] eqn:E; simpl; [|discriminate].
  intros H. injection H as <-. simpl.
  apply validate_values_counts in E. simpl in E.
  split; [apply percentage_nonneg|apply percentage_le_100; lia].
Qed.

Section Cascade.

Variable field_name : string.
Variable field_def : FieldDef.
Variable column_info : dict ColumnInfo.
Variable data : list Row.
Variable schema : Schema.
Variable matched : list string.

Lemma content_pass_state cols :
  forall best r,
    content_pass field_name field_def data schema matched cols best = Ok r ->
    content_state field_name best -> content_state field_name r.
Proof.
  induction cols as [|col rest IH]; intros best r; simpl.
  - intros H. injection H as <-. auto.
  - destruct (Py.mem col matched); [apply IH|].
    destruct (validate_field_values col field_def data schema) as [v|e] eqn:Ev;
      simpl; [|discriminate].
    intros H Hbest. eapply IH; [exact H|].
    destruct (Qlt_bool (snd best) (vs_valid_percentage v)
              && Qlt_bool 50 (vs_valid_percentage v)) eqn:Ec; [|exact Hbest].
    intros m Hm. simpl in Hm. injection Hm as <-. simpl.
    apply andb_true_iff in Ec as [_ Ec]. apply Qlt_bool_iff in Ec.
    apply validate_field_values_percentage in Ev as [_ Ev]. auto.
Qed.

(** The best score of the content-based pass is the greatest valid
    percentage above 50 among the unclaimed columns passed. *)
Lemma content_pass_max cols :
  forall best r,
    content_pass field_name field_def data schema matched cols best = Ok r ->
    snd best <= snd r
    /\ forall c v, In c cols -> Py.mem c matched = false ->
         validate_field_values c field_def data schema = Ok v ->
         vs_valid_percentage v <= 50 \/ vs_valid_percentage v <= snd r.
Proof.
  induction cols as [|col rest IH]; intros best r; simpl.
  - intros H. injection H as <-. split; [apply Qle_refl|intros c v []].
  - destruct (Py.mem col matched) eqn:Em.
    + intros H. destruct (IH _ _ H) as [Hb Hc]. split; [exact Hb|].
      intros c v [<-|Hin] Hm Hv; [congruence|eauto].
    + destruct (validate_field_values col field_def data schema) as [v0|e]
        eqn:Ev; simpl; [|discriminate].
      intros H. destruct (IH _ _ H) as [Hb Hc]. clear IH H.
      destruct (Qlt_bool (snd best) (vs_valid_percentage v0)) eqn:E1;
        destruct (Qlt_bool 50 (vs_valid_percentage v0)) eqn:E2;
        simpl in Hb;
        try apply Qlt_bool_iff in E1; try apply Qlt_bool_false_iff in E1;
        try apply Qlt_bool_iff in E2; try apply Qlt_bool_false_iff in E2.
      * split; [eapply Qle_trans; [apply Qlt_le_weak; exact E1|exact Hb]|].
        intros c v [<-|Hin] Hm Hv; [|eauto].
        rewrite Ev in Hv. injection Hv as <-. now right.
      * split; [exact Hb|].
        intros c v [<-|Hin] Hm Hv; [|eauto].
        rewrite Ev in Hv. injection Hv as <-. now left.
      * split; [exact Hb|].
        intros c v [<-|Hin] Hm Hv; [|eauto].
        rewrite Ev in Hv. injection Hv as <-. right.
        eapply Qle_trans; [exact E1|exact Hb].
      * split; [exact Hb|].
        intros c v [<-|Hin] Hm Hv; [|eauto].
        rewrite Ev in Hv. injection Hv as <-. now left.
Qed.

Lemma fuzzy_slugs_state col slugs :
  forall best r,
    fuzzy_slugs field_name field_def data schema col slugs best = Ok r ->
    fuzzy_state field_name best -> fuzzy_state field_name r.
Proof.
  induction slugs as [|slug rest IH]; intros best r; simpl.
  - intros H. injection H as <-. auto.
  - destruct (Qlt_bool (snd best) _ && Qlt_bool 60 _); [|apply IH].
    destruct (validate_field_values col field_def data schema) as [v|e] eqn:Ev;
      simpl; [|discriminate].
    intros H Hbest. eapply IH; [exact H|].
    match goal with
    | |- fuzzy_state _ (if ?c then _ else _) => destruct c; [|exact Hbest]
    end.
    intros m Hm. simpl in Hm. injection Hm as <-. simpl.
    repeat split.
    apply validate_field_values_percentage in Ev as [_ Ev].
    destruct (ratio_bounds (fuzzy_norm slug) (fuzzy_norm col)) as [_ Hr].
    lra.
Qed.

Lemma fuzzy_columns_state slugs cols :
  forall best r,
    fuzzy_columns field_name field_def data schema matched slugs cols best
    = Ok r ->
    fuzzy_state field_name best -> fuzzy_state field_name r.
Proof.
  induction cols as [|col rest IH]; intros best r; simpl.
  - intros H. injection H as <-. auto.
  - destruct (Py.mem col matched); [apply IH|].
    destruct (fuzzy_slugs field_name field_def data schema col slugs best)
      as [b'|e] eqn:Es; simpl; [|discriminate].
    intros H Hbest. eapply IH; [exact H|].
    eapply fuzzy_slugs_state; eassumption.
Qed.

(** Where the result of the cascade comes from: the content-based pass,
    a name-based step, the fuzzy step, or none of them. *)
Lemma cascade_cases bcm bcs m :
  content_pass field_name field_def data schema matched
    (Py.keys column_info) (None, 0) = Ok (bcm, bcs) ->
  find_best_column_match field_name field_def column_info data schema matched
  = Ok m ->
  bcm = Some m
  \/ (exists col mt sc,
        named_match field_name field_def data schema col mt sc = Ok m
        /\ In (mt, sc) named_steps)
  \/ (exists bs,
        fuzzy_columns field_name field_def data schema matched
          (slugs_of field_name field_def) (Py.keys column_info) (None, 0)
        = Ok (Some m, bs))
  \/ m = no_match field_name.
Proof.
  intros Ec. unfold find_best_column_match. rewrite Ec. cbn [Py.bind].
  cbv zeta.
  match goal with
  | |- match ?x with _ => _ end = _ -> _ => destruct x as [m0|] eqn:Econf
  end.
  { intros H. injection H as <-. left.
    destruct bcm as [m1|]; [|discriminate].
    destruct (Qlt_bool 70 bcs); [assumption|discriminate]. }
  clear Econf.
  match goal with
  | |- (if ?c then _ else _) = _ -> _ => destruct c
  end.
  { intros H. right. left. do 3 eexists. split; [exact H|]. simpl. auto. }
  do 4 (match goal with
        | |- match ?x with _ => _ end = _ -> _ => destruct x
        end;
        [intros H; right; left; do 3 eexists;
         split; [exact H|]; simpl; auto 10|]).
  match goal with
  | |- Py.bind ?x _ = _ -> _ => destruct x as [[bm bs]|e] eqn:Ef
  end; cbn [Py.bind]; [|discriminate].
  destruct bm as [m1|].
  { intros H. injection H as <-. right. right. left. now exists bs. }
  destruct bcm as [m1|]; intros H; injection H as <-.
  - now left.
  - right. right. now right.
Qed.

End Cascade.

(** X7: whatever [find_best_column_match] returns is either the no-match
    entry or a match for the field that binds an unclaimed column of the
    dataset, under one of the seven binding match types, with a score
    above 0 and at most 100. *)
Theorem find_best_column_match_result
        field_name field_def column_info data schema matched m :
  find_best_column_match field_name field_def column_info data schema matched
  = Ok m ->
  m = no_match field_name
  \/ (binding_match field_name m
      /\ exists c, fm_column m = Some c
                   /\ In c (Py.keys column_info) /\ ~ In c matched
                   /\ 0 < fm_score m).
Proof.
  intros H.
  destruct (content_pass field_name field_def data schema matched
              (Py.keys column_info) (None, 0)) as [[bcm bcs]|e] eqn:Ec.
  2:{ unfold find_best_column_match in H. rewrite Ec in H. discriminate. }
  assert (Hcol : m = no_match field_name
                 \/ exists c, fm_column m = Some c
                      /\ In c (Py.keys column_info) /\ ~ In c matched
                      /\ 0 < fm_score m).
  { destruct (find_best_column_match_fresh _ _ _ _ _ _ _ H)
      as [Hn|(c & Hc & Hm & Hs)].
    - left.
      destruct (cascade_cases _ _ _ _ _ _ _ _ _ Ec H)
        as [Hb|[(col & mt & sc & Hnm & _)|[(bs & Hf)|Hno]]].
      + subst bcm.
        destruct (content_pass_fresh _ _ _ _ _ _ _ _ Ec) with (m := m)
          as (c & Hc & _); [simpl; discriminate|reflexivity|congruence].
      + unfold named_match in Hnm.
        destruct (validate_field_values col field_def data schema);
          simpl in Hnm; [|discriminate].
        injection Hnm as <-. discriminate.
      + destruct (fuzzy_columns_ok _ _ _ _ _ _ _ _ _ Hf) as [_ Hfm].
        { split; simpl; [apply Qle_refl|discriminate]. }
        destruct (Hfm m eq_refl) as (c & Hc & _). congruence.
      + exact Hno.
    - right. exists c. repeat split; try assumption.
      + eapply find_best_column_match_known; eassumption.
      + now apply mem_false_not_in. }
  destruct Hcol as [Hno|Hcol]; [now left|]. right. split; [|exact Hcol].
  destruct (cascade_cases _ _ _ _ _ _ _ _ _ Ec H)
    as [Hb|[(col & mt & sc & Hnm & Hin)|[(bs & Hf)|Hno]]].
  - subst bcm.
    destruct (content_pass_state _ _ _ _ _ _ _ _ Ec) with (m := m)
      as (F & T & S & _ & B); [intros m0 Hm0; discriminate|reflexivity|].
    simpl in S, B. repeat split; [exact F|now rewrite S|].
    rewrite T. simpl. auto.
  - unfold named_match in Hnm.
    destruct (validate_field_values col field_def data schema);
      simpl in Hnm; [|discriminate].
    injection Hnm as <-. simpl in Hin. repeat split; simpl.
    + destruct Hin as [E|[E|[E|[E|[E|[]]]]]]; injection E as _ <-;
        unfold Qle; simpl; lia.
    + destruct Hin as [E|[E|[E|[E|[E|[]]]]]]; injection E as <- _;
        simpl; auto 10.
  - destruct (fuzzy_columns_state _ _ _ _ _ _ _ _ _ Hf) with (m := m)
      as (F & T & S & B); [intros m0 Hm0; discriminate|reflexivity|].
    simpl in S, B. repeat split; [exact F|now rewrite S|].
    rewrite T. simpl. auto 10.
  - destruct Hcol as (c & Hc & _). subst m. discriminate.
Qed.

Lemma find_best_column_match_result_witness :
  exists m,
    find_best_column_match "SHAREHOLDER_ID_NUMBER" holder_id_field
      holders_columns holders_rows holders_schema [] = Ok m
    /\ (m = no_match "SHAREHOLDER_ID_NUMBER"
        \/ (binding_match "SHAREHOLDER_ID_NUMBER" m
            /\ exists c, fm_column m = Some c
                         /\ In c (Py.keys holders_columns) /\ ~ In c []
                         /\ 0 < fm_score m)).
Proof.
  eexists. split; [vm_compute; reflexivity|].
  apply (find_best_column_match_result "SHAREHOLDER_ID_NUMBER" holder_id_field
           holders_columns holders_rows holders_schema []).
  vm_compute. reflexivity.
Defined.


Lemma in_mem_true x l : In x l -> Py.mem x l = true.
Proof.
  intros H. unfold Py.mem. apply existsb_exists. exists x.
  split; [assumption|apply String.eqb_refl].
Qed.

Lemma not_in_mem_false x l : ~ In x l -> Py.mem x l = false.
Proof.
  intros H. destruct (Py.mem x l) eqn:E; [|reflexivity].
  apply mem_true_in in E. contradiction.
Qed.

(** X8: an unclaimed column that carries the exact name of the field is
    the one chosen, with score 100, unless the content of some column is
    conclusive (a content match with a score above 70). *)
Theorem find_best_column_match_exact_name
        field_name field_def column_info data schema matched m :
  In field_name (Py.keys column_info) ->
  ~ In field_name matched ->
  find_best_column_match field_name field_def column_info data schema matched
  = Ok m ->
  (fm_match_type m = "content_validation" /\ 70 < fm_score m)
  \/ (fm_match_type m = "exact_field_name"
      /\ fm_column m = Some field_name /\ fm_score m = 100).
Proof.
  intros Hin Hfree.
  destruct (content_pass field_name field_def data schema matched
              (Py.keys column_info) (None, 0)) as [[bcm bcs]|e] eqn:Ec.
  2:{ unfold find_best_column_match. rewrite Ec. discriminate. }
  pose proof (content_pass_state _ _ _ _ _ _ _ _ Ec) as Hst.
  unfold find_best_column_match. rewrite Ec. cbn [Py.bind]. cbv zeta.
  match goal with
  | |- match ?x with _ => _ end = _ -> _ => destruct x as [m0|] eqn:Econf
  end.
  { intros H. injection H as <-. left.
    destruct bcm as [m1|]; [|discriminate].
    destruct (Qlt_bool 70 bcs) eqn:E70; [|discriminate].
    injection Econf as <-.
    destruct (Hst (fun m0 Hm0 => ltac:(discriminate)) m1 eq_refl)
      as (_ & T & S & _).
    simpl in S. split; [exact T|]. rewrite S. now apply Qlt_bool_iff. }
  rewrite (in_mem_true _ _ Hin). unfold unclaimed.
  rewrite (not_in_mem_false _ _ Hfree). cbn [negb andb].
  unfold named_match.
  destruct (validate_field_values field_name field_def data schema);
    simpl; [|discriminate].
  intros H. injection H as <-. right. repeat split.
Qed.

Lemma find_best_column_match_exact_name_witness :
  exists m,
    find_best_column_match "ID" id_field [column "ID"] register_rows
      register_schema [] = Ok m
    /\ ((fm_match_type m = "content_validation" /\ 70 < fm_score m)
        \/ (fm_match_type m = "exact_field_name"
            /\ fm_column m = Some "ID" /\ fm_score m = 100)).
Proof.
  eexists. split; [vm_compute; reflexivity|].
  apply (find_best_column_match_exact_name "ID" id_field [column "ID"]
           register_rows register_schema []).
  - simpl. now left.
  - intros [].
  - vm_compute. reflexivity.
Defined.

(** X9: a content-validation match is the best by content: its score is
    above 50 and no unclaimed column validates at a higher percentage
    than the column it binds. *)
Theorem content_match_is_best
        field_name field_def column_info data schema matched m :
  find_best_column_match field_name field_def column_info data schema matched
  = Ok m ->
  fm_match_type m = "content_validation" ->
  50 < fm_score m
  /\ forall c v,
       In c (Py.keys column_info) -> ~ In c matched ->
       validate_field_values c field_def data schema = Ok v ->
       vs_valid_percentage v <= fm_score m.
Proof.
  intros H Hty.
  destruct (content_pass field_name field_def data schema matched
              (Py.keys column_info) (None, 0)) as [[bcm bcs]|e] eqn:Ec.
  2:{ unfold find_best_column_match in H. rewrite Ec in H. discriminate. }
  destruct (cascade_cases _ _ _ _ _ _ _ _ _ Ec H)
    as [Hb|[(col & mt & sc & Hnm & Hin)|[(bs & Hf)|Hno]]].
  - subst bcm.
    destruct (content_pass_state _ _ _ _ _ _ _ _ Ec) with (m := m)
      as (_ & _ & S & B & _); [intros m0 Hm0; discriminate|reflexivity|].
    simpl in S, B. rewrite S. split; [exact B|].
    intros c v Hc Hfree Hv.
    destruct (content_pass_max _ _ _ _ _ _ _ _ Ec) as [_ Hmax].
    destruct (Hmax c v Hc (not_in_mem_false _ _ Hfree) Hv) as [Hle|Hle];
      [|exact Hle].
    eapply Qle_trans; [exact Hle|now apply Qlt_le_weak].
  - unfold named_match in Hnm.
    destruct (validate_field_values col field_def data schema);
      simpl in Hnm; [|discriminate].
    injection Hnm as <-. simpl in Hty, Hin. subst mt.
    destruct Hin as [E|[E|[E|[E|[E|[]]]]]]; discriminate.
  - destruct (fuzzy_columns_state _ _ _ _ _ _ _ _ _ Hf) with (m := m)
      as (_ & T & _); [intros m0 Hm0; discriminate|reflexivity|].
    rewrite T in Hty. discriminate.
  - subst m. discriminate.
Qed.

Lemma content_match_is_best_witness :
  exists m,
    find_best_column_match "PHONE" phone_field contacts_columns contacts_rows
      contacts_schema [] = Ok m
    /\ fm_column m = Some "A"
    /\ 50 < fm_score m
    /\ forall c v,
         In c (Py.keys contacts_columns) -> ~ In c [] ->
         validate_field_values c phone_field contacts_rows contacts_schema
         = Ok v ->
         vs_valid_percentage v <= fm_score m.
Proof.
  eexists. split; [vm_compute; reflexivity|]. split; [reflexivity|].
  apply (content_match_is_best "PHONE" phone_field contacts_columns
           contacts_rows contacts_schema []).
  - vm_compute. reflexivity.
  - reflexivity.
Defined.

(* ================================================================= *)
(** ** Results of [match_schema] *)

Lemma keys_set_keep {V} (d : dict V) k v k' :
  In k' (Py.keys d) -> In k' (Py.keys (Py.set d k v)).
Proof.
  unfold Py.keys. induction d as [|[k0 v0] d IH]; simpl; [intros []|].
  destruct (String.eqb k k0); simpl; intros [H|H]; auto.
Qed.

Lemma keys_set_new {V} (d : dict V) k v : In k (Py.keys (Py.set d k v)).
Proof.
  unfold Py.keys. induction d as [|[k0 v0] d IH]; simpl; [now left|].
  destruct (String.eqb k k0) eqn:E; simpl.
  - left. symmetry. now apply String.eqb_eq.
  - now right.
Qed.

Lemma get_some_iff_key {V} (d : dict V) k :
  In k (Py.keys d) <-> exists v, Py.get d k = Some v.
Proof.
  unfold Py.keys. induction d as [|[k0 v0] d IH]; simpl.
  - split; [intros []|intros [v H]; discriminate].
  - destruct (String.eqb k k0) eqn:E.
    + apply String.eqb_eq in E. split; [intros _; now exists v0|now left].
    + rewrite <- IH. split; [intros [H|H]; [|exact H]|now right].
      subst. rewrite String.eqb_refl in E. discriminate.
Qed.

Lemma record_match_keeps_keys st key m k :
  In k (Py.keys (field_matches st)) ->
  In k (Py.keys (field_matches (record_match st key m))).
Proof.
  unfold record_match. destruct (is_hit m); simpl; apply keys_set_keep.
Qed.

Lemma record_match_adds_key st key m :
  In key (Py.keys (field_matches (record_match st key m))).
Proof.
  unfold record_match. destruct (is_hit m); simpl; apply keys_set_new.
Qed.

Section EntryForEveryField.

Variable column_info : dict ColumnInfo.
Variable data : list Row.
Variable schema : Schema.

Lemma first_pass_keeps_keys fields :
  forall st st' k,
    first_pass column_info data schema fields st = Ok st' ->
    In k (Py.keys (field_matches st)) -> In k (Py.keys (field_matches st')).
Proof.
  induction fields as [|[f fd] rest IH]; intros st st' k; simpl.
  - intros H. injection H as <-. auto.
  - destruct (1 <? max_matches_of fd)%Z; [apply IH|].
    destruct (find_best_column_match f fd column_info data schema
                (matched_columns st)) as [m|e]; simpl; [|discriminate].
    intros H Hk. eapply IH; [exact H|]. now apply record_match_keeps_keys.
Qed.

Lemma first_pass_adds_keys fields :
  forall st st' f fd,
    first_pass column_info data schema fields st = Ok st' ->
    In (f, fd) fields -> (max_matches_of fd <= 1)%Z ->
    In f (Py.keys (field_matches st')).
Proof.
  induction fields as [|[f0 fd0] rest IH]; intros st st' f fd; simpl.
  - intros _ [].
  - destruct (1 <? max_matches_of fd0)%Z eqn:E.
    + intros H [Hin|Hin] Hmax; [|eapply IH; eassumption].
      injection Hin as -> ->. apply Z.ltb_lt in E. lia.
    + destruct (find_best_column_match f0 fd0 column_info data schema
                  (matched_columns st)) as [m|e]; simpl; [|discriminate].
      intros H [Hin|Hin] Hmax; [|eapply IH; eassumption].
      injection Hin as -> ->.
      eapply first_pass_keeps_keys; [exact H|]. apply record_match_adds_key.
Qed.

Lemma additional_matches_keeps_keys f fd fuel :
  forall found st st' k,
    additional_matches column_info data schema f fd fuel found st = Ok st' ->
    In k (Py.keys (field_matches st)) -> In k (Py.keys (field_matches st')).
Proof.
  induction fuel as [|fuel IH]; intros found st st' k; simpl.
  - intros H. injection H as <-. auto.
  - destruct (find_best_column_match f fd column_info data schema
                (matched_columns st)) as [m|e]; simpl; [|discriminate].
    destruct (is_hit m).
    + intros H Hk. eapply IH; [exact H|]. now apply record_match_keeps_keys.
    + intros H. injection H as <-. auto.
Qed.

Lemma second_pass_keys_grow fields :
  forall st st',
    second_pass column_info data schema fields st = Ok st' ->
    (forall k, In k (Py.keys (field_matches st)) ->
               In k (Py.keys (field_matches st')))
    /\ (forall f fd, In (f, fd) fields -> (1 < max_matches_of fd)%Z ->
                     In f (Py.keys (field_matches st'))).
Proof.
  induction fields as [|[f0 fd0] rest IH]; intros st st'; simpl.
  - intros H. injection H as <-. split; [auto|intros f fd []].
  - destruct (max_matches_of fd0 <=? 1)%Z eqn:E.
    + intros H. destruct (IH _ _ H) as [I1 I2]. split; [exact I1|].
      intros f fd [Hin|Hin] Hmax; [|eapply I2; eassumption].
      injection Hin as -> ->. apply Z.leb_le in E. lia.
    + destruct (has_primary st f0) eqn:Ep.
      * simpl.
        destruct (additional_matches column_info data schema f0 fd0 _ 1 st)
          as [st2|e] eqn:Ea; simpl; [|discriminate].
        intros H. destruct (IH _ _ H) as [I1 I2].
        assert (Hkeep : forall k, In k (Py.keys (field_matches st)) ->
                                  In k (Py.keys (field_matches st'))).
        { intros k Hk. apply I1.
          eapply additional_matches_keeps_keys; eassumption. }
        split; [exact Hkeep|].
        intros f fd [Hin|Hin] Hmax; [|eapply I2; eassumption].
        injection Hin as -> ->. apply Hkeep, get_some_iff_key.
        unfold has_primary in Ep.
        destruct (Py.get (field_matches st) f) as [m|]; [|discriminate].
        now exists m.
      * destruct (find_best_column_match f0 fd0 column_info data schema
                    (matched_columns st)) as [m|e]; simpl; [|discriminate].
        destruct (additional_matches column_info data schema f0 fd0 _ _ _)
          as [st2|e] eqn:Ea; simpl; [|discriminate].
        intros H. destruct (IH _ _ H) as [I1 I2]. split.
        -- intros k Hk. apply I1.
           eapply additional_matches_keeps_keys; [exact Ea|].
           now apply record_match_keeps_keys.
        -- intros f fd [Hin|Hin] Hmax; [|eapply I2; eassumption].
           injection Hin as -> ->. apply I1.
           eapply additional_matches_keeps_keys; [exact Ea|].
           apply record_match_adds_key.
Qed.

End EntryForEveryField.

(** X10: the match map returned by [match_schema] has an entry under the
    name of every field of the schema, matched or not. *)
Theorem match_schema_entry_for_every_field
        schema column_info data score fm field_name :
  match_schema schema column_info data = Ok (score, fm) ->
  In field_name (Py.keys (schema_fields_of schema)) ->
  exists m, Py.get fm field_name = Some m.
Proof.
  unfold match_schema, schema_fields_of.
  destruct (s_schema schema) as [fields|]; [|intros _ []].
  destruct (first_pass column_info data schema fields (mkState 0 [] []))
    as [st1|e] eqn:E1; simpl; [|discriminate].
  destruct (second_pass column_info data schema fields st1)
    as [st2|e] eqn:E2; simpl; [|discriminate].
  intros H Hin. injection H as _ <-. apply get_some_iff_key.
  destruct (second_pass_keys_grow _ _ _ _ _ _ E2) as [Hkeep Hadd].
  unfold Py.keys in Hin. apply in_map_iff in Hin as [[f fd] [<- Hin]].
  simpl. destruct (Z.le_gt_cases (max_matches_of fd) 1) as [Hle|Hgt].
  - apply Hkeep. eapply first_pass_adds_keys; eassumption.
  - eapply Hadd; [exact Hin|lia].
Qed.

Lemma match_schema_entry_for_every_field_witness :
  exists fm,
    match_schema contacts_schema contacts_columns contacts_rows = Ok (200, fm)
    /\ exists m, Py.get fm "PHONE" = Some m.
Proof.
  eexists. split; [vm_compute; reflexivity|].
  eapply (match_schema_entry_for_every_field contacts_schema
            contacts_columns contacts_rows 200).
  - vm_compute. reflexivity.
  - simpl. now left.
Defined.

Lemma percentage_100_iff a b :
  (0 < b)%nat -> (percentage a b == 100 <-> a = b).
Proof.
  intros Hb. unfold percentage. destruct b as [|b]; [lia|].
  unfold Qeq, Qdiv, Qmult, Qinv, inject_Z; simpl.
  rewrite Pos.mul_1_r, Z.mul_1_r. lia.
Qed.

Lemma count_true_all {A} (p : A -> bool) l :
  count_true p l = List.length l <-> forall x, In x l -> p x = true.
Proof.
  unfold count_true. induction l as [|a l IH]; simpl.
  - split; [intros _ x []|reflexivity].
  - destruct (p a) eqn:E; simpl.
    + split.
      * intros H x [<-|Hx]; [exact E|]. apply IH; [lia|exact Hx].
      * intros H. f_equal. apply IH. intros x Hx. apply H. now right.
    + split.
      * intros H. pose proof (filter_length_le p l). lia.
      * intros H. rewrite (H a (or_introl eq_refl)) in E. discriminate.
Qed.

(** X11: for a schema with at least one required field the score lies
    within [0, 100], and it is 100 exactly when every required field has
    an entry with a column. *)
Theorem match_schema_required_score schema column_info data score fm :
  required_field_names (schema_fields_of schema) <> [] ->
  match_schema schema column_info data = Ok (score, fm) ->
  0 <= score /\ score <= 100
  /\ (score == 100
      <-> forall f, In f (required_field_names (schema_fields_of schema)) ->
                    has_column fm f = true).
Proof.
  unfold match_schema, schema_fields_of.
  destruct (s_schema schema) as [fields|]; [|intros H; now contradiction H].
  intros Hreq.
  destruct (first_pass column_info data schema fields (mkState 0 [] []))
    as [st1|e] eqn:E1; simpl; [|discriminate].
  destruct (second_pass column_info data schema fields st1)
    as [st2|e] eqn:E2; simpl; [|discriminate].
  intros H. injection H as <- <-. unfold match_score_of.
  destruct (required_field_names fields) as [|r rs] eqn:Er; [congruence|].
  split; [apply percentage_nonneg|].
  split; [apply percentage_le_100, count_true_le|].
  rewrite percentage_100_iff by (simpl; lia).
  apply count_true_all.
Qed.

Lemma match_schema_required_score_witness :
  exists fm,
    match_schema register_schema [column "ID"] register_rows = Ok (100, fm)
    /\ 0 <= 100 /\ 100 <= 100
    /\ (100 == 100
        <-> forall f, In f (required_field_names
                              (schema_fields_of register_schema)) ->
                      has_column fm f = true).
Proof.
  eexists. split; [vm_compute; reflexivity|].
  apply (match_schema_required_score register_schema [column "ID"]
           register_rows).
  - discriminate.
  - vm_compute. reflexivity.
Defined.

Lemma match_schema_score_bounded_single_witness :
  exists fm,
    match_schema register_schema [column "ID"] register_rows = Ok (100, fm)
    /\ 0 <= 100
    /\ ((forall f fd, In (f, fd) (schema_fields_of register_schema) ->
                      (max_matches_of fd <= 1)%Z) ->
        100 <= 100).
Proof.
  eexists. split; [vm_compute; reflexivity|].
  eapply (match_schema_score_bounded_single register_schema [column "ID"]
            register_rows 100).
  vm_compute. reflexivity.
Defined.


Section Returns.

Variable column_info : dict ColumnInfo.
Variable data : list Row.
Variable schema : Schema.

Lemma validate_field_values_safe column_name field_def :
  safe_field field_def ->
  exists s, validate_field_values column_name field_def data schema = Ok s.
Proof.
  intros H. unfold validate_field_values.
  destruct (validate_values_returns field_def schema
              (column_values column_name field_def data)
              (fun v _ => field_value_is_valid_returns field_def schema v H)
              0%nat []) as [[vc errs] ->].
  simpl. eexists. reflexivity.
Qed.

Lemma content_pass_returns field_name field_def matched cols :
  safe_field field_def ->
  forall best,
    exists r,
      content_pass field_name field_def data schema matched cols best = Ok r.
Proof.
  intros Hsafe. induction cols as [|col rest IH]; intros best; simpl.
  - eexists. reflexivity.
  - destruct (Py.mem col matched); [apply IH|].
    destruct (validate_field_values_safe col field_def Hsafe) as [v ->].
    simpl. apply IH.
Qed.

Lemma fuzzy_slugs_returns field_name field_def col slugs :
  safe_field field_def ->
  forall best,
    exists r,
      fuzzy_slugs field_name field_def data schema col slugs best = Ok r.
Proof.
  intros Hsafe. induction slugs as [|slug rest IH]; intros best; simpl.
  - eexists. reflexivity.
  - destruct (Qlt_bool (snd best) _ && Qlt_bool 60 _); [|apply IH].
    destruct (validate_field_values_safe col field_def Hsafe) as [v ->].
    simpl. apply IH.
Qed.

Lemma fuzzy_columns_returns field_name field_def matched slugs cols :
  safe_field field_def ->
  forall best,
    exists r,
      fuzzy_columns field_name field_def data schema matched slugs cols best
      = Ok r.
Proof.
  intros Hsafe. induction cols as [|col rest IH]; intros best; simpl.
  - eexists. reflexivity.
  - destruct (Py.mem col matched); [apply IH|].
    destruct (fuzzy_slugs_returns field_name field_def col slugs Hsafe best)
      as [b' ->].
    simpl. apply IH.
Qed.

Lemma named_match_returns field_name field_def col match_type score :
  safe_field field_def ->
  exists m,
    named_match field_name field_def data schema col match_type score = Ok m.
Proof.
  intros Hsafe. unfold named_match.
  destruct (validate_field_values_safe col field_def Hsafe) as [v ->].
  simpl. eexists. reflexivity.
Qed.

Lemma find_best_column_match_returns field_name field_def matched :
  safe_field field_def ->
  exists m,
    find_best_column_match field_name field_def column_info data schema
      matched = Ok m.
Proof.
  intros Hsafe. unfold find_best_column_match.
  destruct (content_pass_returns field_name field_def matched
              (Py.keys column_info) Hsafe (None, 0)) as [[bcm bcs] ->].
  cbn [Py.bind]. cbv zeta.
  match goal with
  | |- exists m, match ?x with _ => _ end = _ => destruct x
  end; [eexists; reflexivity|].
  match goal with
  | |- exists m, (if ?c then _ else _) = _ => destruct c
  end; [now apply named_match_returns|].
  do 4 (match goal with
        | |- exists m, match ?x with _ => _ end = _ => destruct x
        end; [now apply named_match_returns|]).
  destruct (fuzzy_columns_returns field_name field_def matched
              (slugs_of field_name field_def) (Py.keys column_info)
              Hsafe (None, 0)) as [[bm bs] ->].
  cbn [Py.bind]. destruct bm; [eexists; reflexivity|].
  destruct bcm; eexists; reflexivity.
Qed.

Lemma first_pass_returns fields :
  (forall f fd, In (f, fd) fields -> safe_field fd) ->
  forall st, exists st', first_pass column_info data schema fields st = Ok st'.
Proof.
  induction fields as [|[f fd] rest IH]; intros Hsafe st; simpl.
  - eexists. reflexivity.
  - assert (Hrest : forall f' fd', In (f', fd') rest -> safe_field fd')
      by (intros f' fd' H; apply (Hsafe f' fd'); now right).
    destruct (1 <? max_matches_of fd)%Z; [now apply IH|].
    destruct (find_best_column_match_returns f fd (matched_columns st)
                (Hsafe f fd (or_introl eq_refl))) as [m ->].
    simpl. now apply IH.
Qed.

Lemma additional_matches_returns f fd fuel :
  safe_field fd ->
  forall found st,
    exists st',
      additional_matches column_info data schema f fd fuel found st = Ok st'.
Proof.
  intros Hsafe. induction fuel as [|fuel IH]; intros found st; simpl.
  - eexists. reflexivity.
  - destruct (find_best_column_match_returns f fd (matched_columns st) Hsafe)
      as [m ->].
    simpl. destruct (is_hit m); [apply IH|eexists; reflexivity].
Qed.

Lemma second_pass_returns fields :
  (forall f fd, In (f, fd) fields -> safe_field fd) ->
  forall st, exists st', second_pass column_info data schema fields st = Ok st'.
Proof.
  induction fields as [|[f fd] rest IH]; intros Hsafe st; simpl.
  - eexists. reflexivity.
  - assert (Hrest : forall f' fd', In (f', fd') rest -> safe_field fd')
      by (intros f' fd' H; apply (Hsafe f' fd'); now right).
    pose proof (Hsafe f fd (or_introl eq_refl)) as Hfd.
    destruct (max_matches_of fd <=? 1)%Z; [now apply IH|].
    destruct (has_primary st f).
    + cbn [Py.bind].
      match goal with
      | |- exists st', Py.bind (additional_matches _ _ _ _ _ ?fuel ?found ?s) _
                       = _ =>
          destruct (additional_matches_returns f fd fuel Hfd found s)
            as [st2 ->]
      end.
      simpl. now apply IH.
    + destruct (find_best_column_match_returns f fd (matched_columns st) Hfd)
        as [m ->].
      simpl.
      match goal with
      | |- exists st', Py.bind (additional_matches _ _ _ _ _ ?fuel ?found ?s) _
                       = _ =>
          destruct (additional_matches_returns f fd fuel Hfd found s)
            as [st2 ->]
      end.
      simpl. now apply IH.
Qed.

End Returns.

(** X13: [match_schema] returns a score and a match map for every
    dataset when no field of the schema is a REGEX field with a pattern
    that does not compile; nothing else in the matching can raise. *)
Theorem match_schema_returns schema column_info data :
  (forall f fd, In (f, fd) (schema_fields_of schema) -> safe_field fd) ->
  exists score fm, match_schema schema column_info data = Ok (score, fm).
Proof.
  unfold match_schema, schema_fields_of. intros Hsafe.
  destruct (s_schema schema) as [fields|]; [|do 2 eexists; reflexivity].
  destruct (first_pass_returns column_info data schema fields Hsafe
              (mkState 0 [] [])) as [st1 ->].
  simpl.
  destruct (second_pass_returns column_info data schema fields Hsafe st1)
    as [st2 ->].
  simpl. do 2 eexists. reflexivity.
Qed.

Lemma match_schema_returns_witness :
  exists score fm,
    match_schema city_schema [column "CITY"] city_rows = Ok (score, fm).
Proof.
  apply match_schema_returns.
  intros f fd [H|[]]. injection H as _ <-. left. discriminate.
Defined.

(* ================================================================= *)
(** ** Results of [validate_row] *)

Lemma check_required_out ctf fields :
  forall valid results,
    check_required fields ctf valid results
    = (andb valid
         (match reported_missing fields ctf with [] => true | _ => false end),
       results ++ map missing_column_outcome (reported_missing fields ctf)).
Proof.
  unfold reported_missing.
  induction fields as [|[f fd] rest IH]; intros valid results; simpl.
  - now rewrite andb_true_r, app_nil_r.
  - destruct (required_of fd); simpl; [|apply IH].
    destruct (String.eqb f "DOMICILE_CODE"); simpl; [apply IH|].
    destruct (field_is_mapped ctf f); simpl; [apply IH|].
    rewrite IH, <- app_assoc, andb_false_r. reflexivity.
Qed.

(** What the loop over the mapped columns appends: one outcome per
    mapped column, in the order of the mapping, carrying the column, the
    field, the cell and a status that follows the verdict. *)
Lemma check_mapped_out row schema ctf :
  forall valid results v r,
    check_mapped row schema ctf valid results = Ok (v, r) ->
    exists outs,
      r = results ++ outs
      /\ map fo_column outs = map (fun cf => Some (fst cf)) ctf
      /\ map fo_field outs = map snd ctf
      /\ map fo_value outs
         = map (fun cf => Some (Py.get_default row (fst cf) "")) ctf
      /\ Forall mapped_outcome outs
      /\ v = andb valid (forallb fo_valid outs).
Proof.
  induction ctf as [|[c f] rest IH]; intros valid results v r; simpl.
  - intros H. injection H as <- <-. exists [].
    rewrite app_nil_r, andb_true_r. repeat split. constructor.
  - destruct (validate_single_value _ _ schema) as [sv|e]; simpl;
      [|discriminate].
    intros H. apply IH in H as (outs & -> & Hc & Hf & Hv & Ho & ->).
    eexists (_ :: outs). rewrite <- app_assoc. simpl.
    split; [reflexivity|]. rewrite Hc, Hf, Hv.
    repeat split.
    + constructor; [|exact Ho]. unfold mapped_outcome. simpl.
      destruct (sr_valid sv); auto.
    + destruct (sr_valid sv), valid; reflexivity.
Qed.

Lemma missing_outcomes_invalid names :
  forallb fo_valid (map missing_column_outcome names)
  = match names with [] => true | _ => false end.
Proof. destruct names; reflexivity. Qed.

(** X14: in every result of [validate_row] the row is valid exactly when
    all of its outcomes are; the outcomes are the MISSING_COLUMN entries
    of the unmapped required fields (in schema order, DOMICILE_CODE
    left out) followed by one MATCH or MISMATCH entry per mapped column
    (in mapping order); the status MISSING_DATA never occurs. *)
Theorem validate_row_result row schema field_matches res :
  validate_row row schema field_matches = Ok res ->
  let ctf := column_to_field_of field_matches [] in
  exists outs,
    rv_fields res
    = map missing_column_outcome
        (reported_missing (schema_fields_of schema) ctf) ++ outs
    /\ map fo_column outs = map (fun cf => Some (fst cf)) ctf
    /\ map fo_field outs = map snd ctf
    /\ Forall mapped_outcome outs
    /\ rv_valid res = forallb fo_valid (rv_fields res)
    /\ Forall (fun o => fo_status o <> MISSING_DATA) (rv_fields res).
Proof.
  unfold validate_row. rewrite check_required_out. simpl.
  destruct (check_mapped row schema _ _ _) as [[v r]|e] eqn:Em; simpl;
    [|discriminate].
  intros H. injection H as <-. simpl.
  apply check_mapped_out in Em as (outs & -> & Hc & Hf & _ & Ho & ->).
  exists outs. split; [reflexivity|]. split; [exact Hc|].
  split; [exact Hf|]. split; [exact Ho|]. split.
  - now rewrite forallb_app, missing_outcomes_invalid.
  - apply Forall_app. split.
    + apply Forall_forall. intros o Hin. apply in_map_iff in Hin as [n [<- _]].
      discriminate.
    + eapply Forall_impl; [|exact Ho].
      intros o [[-> _]|[-> _]]; discriminate.
Qed.

Lemma validate_row_result_witness :
  exists res outs,
    validate_row good_row register_schema [id_match] = Ok res
    /\ rv_fields res
       = map missing_column_outcome
           (reported_missing (schema_fields_of register_schema)
              (column_to_field_of [id_match] [])) ++ outs
    /\ rv_valid res = forallb fo_valid (rv_fields res)
    /\ rv_valid res = true.
Proof.
  destruct (validate_row good_row register_schema [id_match]) as [res|e] eqn:E;
    [|vm_compute in E; discriminate].
  destruct (validate_row_result good_row register_schema [id_match] res E)
    as (outs & H1 & _ & _ & _ & H2 & _).
  exists res, outs. split; [reflexivity|]. split; [exact H1|].
  split; [exact H2|].
  vm_compute in E. injection E as <-. reflexivity.
Defined.

Lemma check_mapped_ext row1 row2 schema ctf :
  (forall c, In c (Py.keys ctf) ->
             Py.get_default row1 c "" = Py.get_default row2 c "") ->
  forall valid results,
    check_mapped row1 schema ctf valid results
    = check_mapped row2 schema ctf valid results.
Proof.
  induction ctf as [|[c f] rest IH]; intros Hagree valid results; simpl;
    [reflexivity|].
  rewrite (Hagree c (or_introl eq_refl)).
  destruct (validate_single_value _ _ schema) as [sv|e]; simpl; [|reflexivity].
  apply IH. intros c' Hc'. apply Hagree. now right.
Qed.

(** X15: [validate_row] reads a row only through the cells of the mapped
    columns: two rows that agree on those columns (a missing cell
    counting as empty) get the same result, whatever their other
    columns hold. *)
Theorem validate_row_reads_mapped_columns row1 row2 schema field_matches :
  (forall c, In c (Py.keys (column_to_field_of field_matches [])) ->
             Py.get_default row1 c "" = Py.get_default row2 c "") ->
  validate_row row1 schema field_matches
  = validate_row row2 schema field_matches.
Proof.
  intros Hagree. unfold validate_row.
  destruct (check_required _ _ true []) as [v r].
  now rewrite (check_mapped_ext row1 row2 schema _ Hagree).
Qed.

Lemma validate_row_reads_mapped_columns_witness :
  validate_row good_row register_schema [id_match]
  = validate_row good_row_other_notes register_schema [id_match].
Proof.
  apply validate_row_reads_mapped_columns.
  intros c [<-|[]]. reflexivity.
Defined.

Lemma validate_single_value_no_definition value schema :
  validate_single_value value empty_field_def schema = Ok valid_result.
Proof. unfold validate_single_value. destruct value; reflexivity. Qed.

Lemma get_default_none {V} (d : dict V) k dflt :
  Py.get d k = None -> Py.get_default d k dflt = dflt.
Proof. unfold Py.get_default. now intros ->. Qed.

Lemma check_mapped_undefined_field row schema ctf c k :
  In (c, k) ctf ->
  Py.get (schema_fields_of schema) k = None ->
  forall valid results v r,
    check_mapped row schema ctf valid results = Ok (v, r) ->
    In (mkOutcome k (Some c) (Some (Py.get_default row c "")) None MATCH true [])
       r.
Proof.
  intros Hin Hget.
  induction ctf as [|[c0 f0] rest IH]; intros valid results v r;
    cbn [check_mapped]; [destruct Hin|].
  destruct Hin as [E|Hin].
  - injection E as -> ->.
    rewrite (get_default_none _ _ empty_field_def Hget).
    rewrite validate_single_value_no_definition. cbn [Py.bind].
    intros H. apply check_mapped_keeps in H as [_ Hr].
    apply Hr, in_or_app. right. now left.
  - destruct (validate_single_value _ _ schema) as [sv|e]; cbn [Py.bind];
      [|discriminate].
    now apply IH.
Qed.

(** X16: a mapped column whose field name the schema does not define
    (such as the numbered entry of an additional claim) is checked
    against the empty definition: its outcome is MATCH, valid, whatever
    the cell holds. *)
Theorem validate_row_undefined_field_matches
        row schema field_matches c k res :
  In (c, k) (column_to_field_of field_matches []) ->
  Py.get (schema_fields_of schema) k = None ->
  validate_row row schema field_matches = Ok res ->
  In (mkOutcome k (Some c) (Some (Py.get_default row c "")) None MATCH true [])
     (rv_fields res).
Proof.
  intros Hin Hget. unfold validate_row.
  destruct (check_required _ _ true []) as [v0 r0].
  destruct (check_mapped row schema _ v0 r0) as [[v r]|e] eqn:Em; simpl;
    [|discriminate].
  intros H. injection H as <-. simpl.
  eapply check_mapped_undefined_field; eassumption.
Qed.

Lemma validate_row_undefined_field_matches_witness :
  exists res,
    validate_row [("A", "0825551234"); ("B", "not a phone number")]
      contacts_schema phone_matches = Ok res
    /\ In (mkOutcome "PHONE_2" (Some "B") (Some "not a phone number") None
             MATCH true [])
          (rv_fields res).
Proof.
  eexists. split; [vm_compute; reflexivity|].
  apply (validate_row_undefined_field_matches
           [("A", "0825551234"); ("B", "not a phone number")]
           contacts_schema phone_matches "B" "PHONE_2").
  - simpl. right. now left.
  - reflexivity.
  - vm_compute. reflexivity.
Defined.


Lemma get_set_same {V} (d : dict V) k v : Py.get (Py.set d k v) k = Some v.
Proof.
  induction d as [|[k0 v0] d IH]; simpl.
  - now rewrite String.eqb_refl.
  - destruct (String.eqb k k0) eqn:E; simpl; rewrite E; [reflexivity|exact IH].
Qed.

Lemma get_set_other {V} (d : dict V) k v k' :
  k <> k' -> Py.get (Py.set d k v) k' = Py.get d k'.
Proof.
  intros Hne. induction d as [|[k0 v0] d IH]; simpl.
  - destruct (String.eqb k' k) eqn:E; [|reflexivity].
    apply String.eqb_eq in E. congruence.
  - destruct (String.eqb k k0) eqn:E; simpl.
    + apply String.eqb_eq in E. subst k0.
      destruct (String.eqb k' k) eqn:E'; [|reflexivity].
      apply String.eqb_eq in E'. congruence.
    + destruct (String.eqb k' k0); [reflexivity|exact IH].
Qed.

Lemma column_to_field_keeps fm :
  forall acc c,
    ~ In c (claimed_columns fm) ->
    Py.get (column_to_field_of fm acc) c = Py.get acc c.
Proof.
  induction fm as [|[k m] rest IH]; intros acc c Hc; simpl; [reflexivity|].
  simpl in Hc. unfold claim_of, column_name_of in Hc.
  destruct (fm_column m) as [col|]; simpl in Hc.
  - destruct (Py.truthy col); simpl in Hc.
    + rewrite IH by (intros H; apply Hc; now right).
      apply get_set_other. intros ->. apply Hc. now left.
    + now apply IH.
  - now apply IH.
Qed.

(** With distinct bound columns, the reverse mapping sends the column of
    every entry back to the entry's name. *)
Lemma column_to_field_binds fm :
  NoDup (claimed_columns fm) ->
  forall f m c acc,
    In (f, m) fm -> fm_column m = Some c -> Py.truthy c = true ->
    Py.get (column_to_field_of fm acc) c = Some f.
Proof.
  induction fm as [|[k m0] rest IH]; intros Hnd f m c acc Hin Hc Ht;
    [destruct Hin|].
  simpl in Hnd. apply nodup_app_parts in Hnd as (_ & N2 & N3).
  destruct Hin as [E|Hin].
  - injection E as -> ->. simpl. rewrite Hc, Ht.
    rewrite column_to_field_keeps; [apply get_set_same|].
    apply N3. unfold claim_of, column_name_of. rewrite Hc. simpl.
    rewrite Ht. now left.
  - simpl. destruct (fm_column m0) as [c0|]; [|now apply (IH N2 f m)].
    destruct (Py.truthy c0); now apply (IH N2 f m).
Qed.

Lemma get_field_is_mapped ctf c f :
  Py.get ctf c = Some f -> field_is_mapped ctf f = true.
Proof.
  intros H. apply get_in in H. unfold field_is_mapped.
  apply existsb_exists. exists (c, f). split; [exact H|apply String.eqb_refl].
Qed.

Lemma match_schema_nodup schema column_info data score fm :
  match_schema schema column_info data = Ok (score, fm) ->
  NoDup (claimed_columns fm).
Proof.
  unfold match_schema.
  destruct (s_schema schema) as [fields|].
  - destruct (first_pass column_info data schema fields (mkState 0 [] []))
      as [st1|e] eqn:E1; simpl; [|discriminate].
    destruct (second_pass column_info data schema fields st1)
      as [st2|e] eqn:E2; simpl; [|discriminate].
    intros H. injection H as _ <-.
    eapply second_pass_invariant; [exact E2|].
    eapply first_pass_invariant; [exact E1|].
    split; simpl; [constructor|intros c []].
  - intros H. injection H as _ <-. constructor.
Qed.

(** X17: matching and row validation agree on what is bound: a field
    whose entry in the map returned by [match_schema] has a column is a
    target of the reverse mapping of [validate_row], so no row is ever
    given a MISSING_COLUMN outcome for it. *)
Theorem matched_field_is_never_missing
        schema column_info data score fm field_name row res :
  match_schema schema column_info data = Ok (score, fm) ->
  has_column fm field_name = true ->
  validate_row row schema fm = Ok res ->
  field_is_mapped (column_to_field_of fm []) field_name = true
  /\ forall o, In o (rv_fields res) -> fo_field o = field_name ->
               fo_status o <> MISSING_COLUMN.
Proof.
  intros Hm Hcol Hrow.
  assert (Hmapped :
    field_is_mapped (column_to_field_of fm []) field_name = true).
  { unfold has_column in Hcol.
    destruct (Py.get fm field_name) as [m|] eqn:Eg; [|discriminate].
    destruct (fm_column m) as [c|] eqn:Ec; [|discriminate]. simpl in Hcol.
    eapply get_field_is_mapped.
    eapply column_to_field_binds;
      [eapply match_schema_nodup; exact Hm|apply get_in; exact Eg
      |exact Ec|exact Hcol]. }
  split; [exact Hmapped|].
  unfold validate_row in Hrow. rewrite check_required_out in Hrow.
  simpl in Hrow.
  destruct (check_mapped row schema _ _ _) as [[v r]|e] eqn:Em;
    simpl in Hrow; [|discriminate].
  injection Hrow as <-. simpl.
  apply check_mapped_out in Em as (outs & -> & _ & _ & _ & Ho & _).
  intros o Hin Hf. apply in_app_or in Hin as [Hin|Hin].
  - apply in_map_iff in Hin as [n [<- Hn]]. simpl in Hf. subst n.
    unfold reported_missing in Hn. apply in_map_iff in Hn as [[f fd] [E Hn]].
    simpl in E. subst f. apply filter_In in Hn as [_ Hn]. simpl in Hn.
    rewrite Hmapped in Hn. simpl in Hn.
    rewrite !andb_false_r in Hn. discriminate.
  - rewrite Forall_forall in Ho. destruct (Ho o Hin) as [[-> _]|[-> _]];
      discriminate.
Qed.

Lemma matched_field_is_never_missing_witness :
  exists fm res,
    match_schema register_schema [column "ID"] register_rows = Ok (100, fm)
    /\ validate_row good_row register_schema fm = Ok res
    /\ field_is_mapped (column_to_field_of fm []) "ID" = true
    /\ forall o, In o (rv_fields res) -> fo_field o = "ID" ->
                 fo_status o <> MISSING_COLUMN.
Proof.
  eexists. eexists. split; [vm_compute; reflexivity|].
  split; [vm_compute; reflexivity|].
  eapply (matched_field_is_never_missing register_schema [column "ID"]
            register_rows 100 _ "ID" good_row).
  - vm_compute. reflexivity.
  - reflexivity.
  - vm_compute. reflexivity.
Defined.


Lemma validate_values_all_valid field_def schema values :
  (forall v, In v values -> field_value_is_valid field_def schema v = Ok true) ->
  forall valid_count errors,
    validate_values field_def schema values valid_count errors
    = Ok ((valid_count + List.length values)%nat, errors).
Proof.
  induction values as [|v rest IH]; intros Hall vc errs; simpl.
  - now rewrite Nat.add_0_r.
  - rewrite (Hall v (or_introl eq_refl)). simpl.
    rewrite IH by (intros w Hw; apply Hall; now right).
    f_equal. f_equal. lia.
Qed.

Ltac unknown_tag H :=
  repeat match goal with
    | |- context [String.eqb ?a ?b] =>
        let E := fresh "E" in
        destruct (String.eqb a b) eqn:E;
        [apply String.eqb_eq in E; exfalso; apply H; rewrite E; simpl; tauto|]
    end.

(** X18: a field whose validation tag is none of the eight the dispatch
    knows is not checked at all: [validate_field_values] counts every
    value of the column as valid, and [validate_single_value] accepts
    every non-empty value. *)
Theorem unknown_validate_type_accepts_all column_name field_def data schema :
  ~ In (validate_type_of field_def) known_validate_types ->
  validate_field_values column_name field_def data schema
  = Ok (all_valid_summary
          (List.length (column_values column_name field_def data)))
  /\ forall value, Py.truthy value = true ->
       validate_single_value value field_def schema = Ok valid_result.
Proof.
  intros H. split.
  - unfold validate_field_values.
    rewrite validate_values_all_valid.
    + simpl. rewrite Nat.eqb_refl. reflexivity.
    + intros v _. unfold field_value_is_valid.
      destruct (andb _ _); [reflexivity|]. unknown_tag H. reflexivity.
  - intros value Hv. unfold validate_single_value. rewrite Hv. simpl.
    unknown_tag H. reflexivity.
Qed.

Lemma unknown_validate_type_accepts_all_witness :
  validate_field_values "MAIL" email_field [[("MAIL", "not an address")]]
    no_schema
  = Ok (all_valid_summary
          (List.length (column_values "MAIL" email_field
                          [[("MAIL", "not an address")]])))
  /\ forall value, Py.truthy value = true ->
       validate_single_value value email_field no_schema = Ok valid_result.
Proof.
  apply (unknown_validate_type_accepts_all "MAIL" email_field
           [[("MAIL", "not an address")]] no_schema).
  vm_compute. intuition discriminate.
Defined.

(** X19: outside the list check and the two fields singled out by their
    description, the two validators agree on every non-empty value: the
    verdict of [validate_single_value] is the one the loop of
    [validate_field_values] gives the value, and one raises when the
    other does. *)
Theorem validate_single_value_agrees_with_column_check value field_def schema :
  Py.truthy value = true ->
  validate_type_of field_def <> "LEV_DISTANCE" ->
  Py.startswith (description_of field_def) shareholder_name_prefix = false ->
  Py.startswith (description_of field_def) country_code_prefix = false ->
  (r <- validate_single_value value field_def schema ;; Ok (sr_valid r))
  = field_value_is_valid field_def schema value.
Proof.
  intros Hv Hlev Hname Hcode.
  unfold validate_single_value, field_value_is_valid, single_value_pattern.
  rewrite Hv, Hname, Hcode. cbn [negb andb].
  destruct (String.eqb (validate_type_of field_def) "REGEX").
  { destruct (Re.re_match (regex_of field_def) value) as [[|]|e]; reflexivity. }
  destruct (String.eqb (validate_type_of field_def) "SA_ID_NUMBER").
  { destruct (validate_sa_id_number value); reflexivity. }
  destruct (String.eqb (validate_type_of field_def) "BANK_ACCOUNT_NUMBER").
  { destruct (validate_bank_account_number value); reflexivity. }
  destruct (String.eqb (validate_type_of field_def) "DECIMAL_AMOUNT").
  { destruct (validate_decimal_amount value); reflexivity. }
  destruct (String.eqb (validate_type_of field_def) "UNIX_DATE").
  { destruct (validate_date value); reflexivity. }
  destruct (String.eqb (validate_type_of field_def) "POSTAL_CODE").
  { destruct (validate_postal_code value); reflexivity. }
  destruct (String.eqb (validate_type_of field_def) "ENUM").
  { destruct (Py.mem value _); reflexivity. }
  destruct (String.eqb (validate_type_of field_def) "LEV_DISTANCE") eqn:E.
  { apply String.eqb_eq in E. contradiction. }
  reflexivity.
Qed.

Lemma validate_single_value_agrees_with_column_check_witness :
  (r <- validate_single_value "80 01" postal_field postal_schema ;;
   Ok (sr_valid r))
  = field_value_is_valid postal_field postal_schema "80 01".
Proof.
  apply (validate_single_value_agrees_with_column_check "80 01" postal_field
           postal_schema); vm_compute; (reflexivity || discriminate).
Defined.

Lemma validate_single_value_returns value field_def schema :
  safe_single_field field_def ->
  exists r, validate_single_value value field_def schema = Ok r.
Proof.
  intros Hsafe. unfold validate_single_value.
  destruct (negb (Py.truthy value)).
  { destruct (required_of field_def); eexists; reflexivity. }
  destruct (String.eqb (validate_type_of field_def) "REGEX") eqn:E.
  { apply String.eqb_eq in E. destruct Hsafe as [Hne|[r Hr]]; [contradiction|].
    unfold Re.re_match. rewrite Hr. simpl.
    destruct (negb _); eexists; reflexivity. }
  repeat match goal with
    | |- exists r, (if ?c then _ else _) = Ok r => destruct c
    | |- exists r, (let '(_, _) := ?p in _) = Ok r => destruct p
    end; eexists; reflexivity.
Qed.

Lemma check_mapped_returns row schema ctf :
  (forall f fd, In (f, fd) (schema_fields_of schema) -> safe_single_field fd) ->
  forall valid results,
    exists v r, check_mapped row schema ctf valid results = Ok (v, r).
Proof.
  intros Hsafe.
  induction ctf as [|[c f] rest IH]; intros valid results; cbn [check_mapped].
  - eexists. eexists. reflexivity.
  - assert (Hfd : safe_single_field
                    (Py.get_default (schema_fields_of schema) f empty_field_def)).
    { unfold Py.get_default.
      destruct (Py.get (schema_fields_of schema) f) as [fd|] eqn:Eg.
      - apply get_in in Eg. eapply Hsafe. exact Eg.
      - left. discriminate. }
    destruct (validate_single_value_returns (Py.get_default row c "") _ schema Hfd)
      as [r ->].
    cbn [Py.bind]. apply IH.
Qed.

(** X20: [validate_row] returns a result, for every row and every match
    map, when each REGEX field of the schema has a pattern that compiles
    (for the shareholder full name, the pattern that replaces it): no
    other check can raise. *)
Theorem validate_row_returns row schema field_matches :
  (forall f fd, In (f, fd) (schema_fields_of schema) -> safe_single_field fd) ->
  exists res, validate_row row schema field_matches = Ok res.
Proof.
  intros Hsafe. unfold validate_row.
  destruct (check_required _ _ true []) as [valid results].
  destruct (check_mapped_returns row schema
              (column_to_field_of field_matches []) Hsafe valid results)
    as (v & r & ->).
  simpl. eexists. reflexivity.
Qed.

Lemma validate_row_returns_witness :
  exists res, validate_row good_row register_schema [id_match] = Ok res.
Proof.
  apply (validate_row_returns good_row register_schema [id_match]).
  intros f fd [E|[]]. injection E as _ <-. left. vm_compute. discriminate.
Defined.


(* ================================================================= *)
(** ** [validate_data] *)

Lemma set_new {V} (d : dict V) k v :
  ~ In k (Py.keys d) -> Py.set d k v = d ++ [(k, v)].
Proof.
  unfold Py.keys. induction d as [|[k0 v0] d IH]; simpl; intros H;
    [reflexivity|].
  destruct (String.eqb k k0) eqn:E.
  - apply String.eqb_eq in E. exfalso. apply H. now left.
  - rewrite IH; [reflexivity|]. intros Hin. apply H. now right.
Qed.

Lemma get_nodup_in {V} (d : dict V) k v :
  NoDup (Py.keys d) -> In (k, v) d -> Py.get d k = Some v.
Proof.
  unfold Py.keys. induction d as [|[k0 v0] d IH]; simpl; intros Hnd Hin;
    [destruct Hin|].
  inversion Hnd as [|? ? Hk Hnd']; subst.
  destruct Hin as [E|Hin].
  - injection E as -> ->. now rewrite String.eqb_refl.
  - destruct (String.eqb k k0) eqn:E; [|now apply IH].
    apply String.eqb_eq in E. subst k0. exfalso. apply Hk.
    apply in_map_iff. now exists (k, v).
Qed.

Lemma score_schemas_spec column_info data schemas :
  forall acc scored,
    NoDup (Py.keys schemas) ->
    (forall k, In k (Py.keys schemas) -> ~ In k (Py.keys acc)) ->
    score_schemas schemas column_info data acc = Ok scored ->
    exists results,
      scored = acc ++ results
      /\ Forall2 (fun ns nr => fst ns = fst nr
                    /\ match_schema (snd ns) column_info data = Ok (snd nr))
                 schemas results.
Proof.
  induction schemas as [|[n s] rest IH]; intros acc scored Hnd Hfresh; simpl.
  - intros H. injection H as <-. exists []. now rewrite app_nil_r.
  - destruct (match_schema s column_info data) as [r|e] eqn:Em; simpl;
      [|discriminate].
    intros H. unfold Py.keys in Hnd. simpl in Hnd.
    inversion Hnd as [|? ? Hn Hnd']; subst.
    rewrite set_new in H by (apply Hfresh; now left).
    apply IH in H as (results & -> & HF); [| exact Hnd' |].
    + exists ((n, r) :: results). rewrite <- app_assoc. split; [reflexivity|].
      constructor; [split; [reflexivity|exact Em]|exact HF].
    + intros k Hk Hin. unfold Py.keys in Hin. rewrite map_app in Hin.
      apply in_app_or in Hin as [Hin|[<-|[]]].
      * apply (Hfresh k); [now right|exact Hin].
      * contradiction.
Qed.

Lemma first_max_spec {V} (l : dict (Q * V)) :
  forall best,
    In (first_max l best) (best :: l)
    /\ forall x, In x (best :: l) ->
                 fst (snd x) <= fst (snd (first_max l best)).
Proof.
  induction l as [|[k v] rest IH]; intros best; simpl.
  - split; [now left|]. intros x [<-|[]]. apply Qle_refl.
  - destruct (Qlt_bool (fst (snd best)) (fst v)) eqn:E.
    + destruct (IH (k, v)) as [Hin Hmax]. split.
      * destruct Hin as [<-|Hin]; [right; now left|right; now right].
      * intros x [<-|[<-|Hx]].
        -- apply Qlt_bool_iff in E. apply Qlt_le_weak in E.
           eapply Qle_trans; [exact E|]. apply (Hmax (k, v)). now left.
        -- apply Hmax. now left.
        -- apply Hmax. now right.
    + destruct (IH best) as [Hin Hmax]. split.
      * destruct Hin as [<-|Hin]; [now left|right; now right].
      * intros x [<-|[<-|Hx]].
        -- apply Hmax. now left.
        -- apply Qlt_bool_false_iff in E.
           eapply Qle_trans; [exact E|]. apply Hmax. now left.
        -- apply Hmax. now right.
Qed.

Lemma forall2_in_right {A B} (R : A -> B -> Prop) l l' y :
  Forall2 R l l' -> In y l' -> exists x, In x l /\ R x y.
Proof.
  induction 1 as [|a b l l' Hab HF IH]; intros Hin; [destruct Hin|].
  destruct Hin as [<-|Hin].
  - exists a. split; [now left|exact Hab].
  - destruct (IH Hin) as (x & Hx & HR). exists x. split; [now right|exact HR].
Qed.

Lemma forall2_in_left {A B} (R : A -> B -> Prop) l l' x :
  Forall2 R l l' -> In x l -> exists y, In y l' /\ R x y.
Proof.
  induction 1 as [|a b l l' Hab HF IH]; intros Hin; [destruct Hin|].
  destruct Hin as [<-|Hin].
  - exists b. split; [now left|exact Hab].
  - destruct (IH Hin) as (y & Hy & HR). exists y. split; [now right|exact HR].
Qed.

Lemma validate_rows_spec schema field_matches rows :
  forall i rvs,
    validate_rows rows i schema field_matches = Ok rvs ->
    map rv_row_id rvs = seq (i + 1) (List.length rows)
    /\ Forall2 (row_result_of schema field_matches) rows rvs.
Proof.
  induction rows as [|row rest IH]; intros i rvs; simpl.
  - intros H. injection H as <-. split; [reflexivity|constructor].
  - destruct (validate_row row schema field_matches) as [r|e] eqn:Er; simpl;
      [|discriminate].
    destruct (validate_rows rest (S i) schema field_matches) as [rvs'|e] eqn:Ers;
      simpl; [|discriminate].
    intros H. injection H as <-. apply IH in Ers as [Hids HF].
    split.
    + simpl. f_equal. rewrite Hids. f_equal; lia.
    + constructor; [|exact HF]. exists r. repeat split. exact Er.
Qed.

(** X21: without a stored mapping [validate_data] reports the schema that
    [match_schema] scores highest: the returned schema is one of the
    loaded ones, listed under the reported name; the reported score and
    matches are those [match_schema] gives it; and no loaded schema
    scores higher. *)
Theorem validate_data_selects_best_schema
        schemas existing_mapping column_info columns data out :
  NoDup (Py.keys schemas) ->
  existing_mapping = None \/ existing_mapping = Some [] ->
  validate_data schemas existing_mapping column_info columns data = Ok out ->
  In (ar_schema_name (out_validation_results out), out_schema out) schemas
  /\ match_schema (out_schema out) column_info data
     = Ok (ar_match_score (out_validation_results out), out_field_matches out)
  /\ forall name schema score field_matches,
       In (name, schema) schemas ->
       match_schema schema column_info data = Ok (score, field_matches) ->
       score <= ar_match_score (out_validation_results out).
Proof.
  intros Hnd Hmap. unfold validate_data.
  destruct schemas as [|[first_name first_schema] rest] eqn:Es; [discriminate|].
  rewrite <- Es in *.
  assert (Hbranch :
    forall k : string * Q * dict FieldMatch -> Exc ValidationOutput,
      Py.bind
        match existing_mapping with
        | Some ((_ :: _) as mapping) =>
            let found := schema_of_mapping schemas mapping None in
            let best_schema :=
              if name_truthy found
              then match found with Some n => n | None => first_name end
              else first_name in
            let schema := Py.get_default schemas best_schema first_schema in
            let schema_fields := schema_fields_of schema in
            best_matches <- manual_matches mapping data schema schema_fields [] ;;
            Ok (best_schema, mapping_score mapping schema_fields, best_matches)
        | _ =>
            scored <- score_schemas schemas column_info data [] ;;
            match scored with
            | [] => Raise (ValueError "max() arg is an empty sequence")
            | first :: rest =>
                let '(best_schema, (best_score, best_matches)) :=
                  first_max rest first in
                Ok (best_schema, best_score, best_matches)
            end
        end k
      = Py.bind
          (scored <- score_schemas schemas column_info data [] ;;
           match scored with
           | [] => Raise (ValueError "max() arg is an empty sequence")
           | first :: rest =>
               let '(best_schema, (best_score, best_matches)) :=
                 first_max rest first in
               Ok (best_schema, best_score, best_matches)
           end) k).
  { intros k. destruct Hmap as [->| ->]; reflexivity. }
  rewrite Hbranch. clear Hbranch.
  destruct (score_schemas schemas column_info data []) as [scored|e] eqn:Esc;
    simpl; [|discriminate].
  apply score_schemas_spec in Esc as (results & -> & HF);
    [|exact Hnd|intros k _ []].
  simpl. destruct results as [|first others]; simpl; [discriminate|].
  destruct (first_max_spec others first) as [Hin Hmax].
  destruct (first_max others first) as [bs [sc bm]] eqn:Efm. simpl.
  destruct (validate_rows data 0 _ bm) as [rvs|e]; simpl; [|discriminate].
  intros H. injection H as <-. simpl.
  destruct (forall2_in_right _ _ _ _ HF Hin) as ([n s] & Hns & Hname & Hms).
  simpl in Hname, Hms. subst n.
  assert (Hget : Py.get_default schemas bs first_schema = s).
  { unfold Py.get_default. now rewrite (get_nodup_in schemas bs s Hnd Hns). }
  rewrite Hget. split; [exact Hns|]. split; [exact Hms|].
  intros name schema score fm Hin' Hms'.
  destruct (forall2_in_left _ _ _ _ HF Hin') as ([n' r'] & Hr' & _ & Hm').
  simpl in Hm'. rewrite Hms' in Hm'. injection Hm' as <-.
  apply (Hmax _ Hr').
Qed.

Lemma validate_data_selects_best_schema_witness :
  exists out,
    validate_data two_schemas None [column "ID"] ["ID"] register_rows = Ok out
    /\ In (ar_schema_name (out_validation_results out), out_schema out)
          two_schemas
    /\ match_schema (out_schema out) [column "ID"] register_rows
       = Ok (ar_match_score (out_validation_results out), out_field_matches out)
    /\ forall name schema score field_matches,
         In (name, schema) two_schemas ->
         match_schema schema [column "ID"] register_rows
         = Ok (score, field_matches) ->
         score <= ar_match_score (out_validation_results out).
Proof.
  eexists. split; [vm_compute; reflexivity|].
  eapply (validate_data_selects_best_schema two_schemas None [column "ID"]
            ["ID"] register_rows).
  - repeat constructor; simpl; intuition discriminate.
  - now left.
  - vm_compute. reflexivity.
Defined.

(** X22: the row validations [validate_data] returns hold one result per
    row of the data, in order and numbered from 1, each the result of
    [validate_row] on that row against the returned schema and matches;
    the reported total is the number of rows. *)
Theorem validate_data_validates_every_row
        schemas existing_mapping column_info columns data out :
  validate_data schemas existing_mapping column_info columns data = Ok out ->
  map rv_row_id (out_row_validations out) = seq 1 (List.length data)
  /\ Forall2 (row_result_of (out_schema out) (out_field_matches out))
       data (out_row_validations out)
  /\ ar_total_rows (out_validation_results out) = List.length data.
Proof.
  unfold validate_data.
  destruct schemas as [|[first_name first_schema] rest]; [discriminate|].
  match goal with
  | |- Py.bind ?m _ = _ -> _ => destruct m as [[[bs sc] bm]|e]
  end; simpl; [|discriminate].
  destruct (validate_rows data 0 _ bm) as [rvs|e] eqn:Er; simpl; [|discriminate].
  intros H. injection H as <-. simpl.
  apply validate_rows_spec in Er as [Hids HF].
  split; [exact Hids|]. split; [exact HF|].
  rewrite <- (length_map rv_row_id), Hids. apply length_seq.
Qed.

Lemma validate_data_validates_every_row_witness :
  exists out,
    validate_data two_schemas None [column "ID"] ["ID"] register_rows = Ok out
    /\ map rv_row_id (out_row_validations out)
       = seq 1 (List.length register_rows)
    /\ Forall2 (row_result_of (out_schema out) (out_field_matches out))
         register_rows (out_row_validations out)
    /\ ar_total_rows (out_validation_results out) = List.length register_rows.
Proof.
  eexists. split; [vm_compute; reflexivity|].
  eapply (validate_data_validates_every_row two_schemas None [column "ID"]
            ["ID"] register_rows).
  vm_compute. reflexivity.
Defined.

Lemma manual_matches_spec mapping data schema fields :
  forall acc best_matches,
    manual_matches mapping data schema fields acc = Ok best_matches ->
    (forall k m, Py.get acc k = Some m -> mapping_entry mapping k m) ->
    (forall k m, Py.get best_matches k = Some m -> mapping_entry mapping k m)
    /\ (forall k, In k (Py.keys fields) \/ In k (Py.keys acc) ->
                  In k (Py.keys best_matches))
    /\ (forall k, In k (Py.keys best_matches) ->
                  In k (Py.keys fields) \/ In k (Py.keys acc)).
Proof.
  induction fields as [|[f fd] rest IH]; intros acc bm; simpl.
  - intros H Hacc. injection H as <-. split; [exact Hacc|].
    split; [intros k [[]|H]; exact H|intros k H; now right].
  - assert (Hstep : forall m,
              mapping_entry mapping f m ->
              manual_matches mapping data schema rest (Py.set acc f m) = Ok bm ->
              (forall k m, Py.get acc k = Some m -> mapping_entry mapping k m) ->
              (forall k m, Py.get bm k = Some m -> mapping_entry mapping k m)
              /\ (forall k, (f = k \/ In k (Py.keys rest)) \/ In k (Py.keys acc) ->
                            In k (Py.keys bm))
              /\ (forall k, In k (Py.keys bm) ->
                            (f = k \/ In k (Py.keys rest)) \/ In k (Py.keys acc))).
    { intros m Hm H Hacc. apply IH in H as (H1 & H2 & H3).
      - split; [exact H1|]. split.
        + intros k [[<-|Hk]|Hk]; apply H2.
          * right. apply keys_set_new.
          * now left.
          * right. now apply keys_set_keep.
        + intros k Hk. apply H3 in Hk as [Hk|Hk]; [left; now right|].
          apply get_some_iff_key in Hk as [v Hv].
          destruct (string_dec f k) as [<-|Hne]; [left; now left|].
          rewrite get_set_other in Hv by exact Hne.
          right. apply get_some_iff_key. now exists v.
      - intros k m' Hg. destruct (string_dec f k) as [<-|Hne].
        + rewrite get_set_same in Hg. now injection Hg as <-.
        + rewrite get_set_other in Hg by exact Hne. now apply Hacc. }
    destruct (find _ mapping) as [[c ti]|] eqn:Ef.
    + apply find_some in Ef as [Hin Hty]. simpl in Hty.
      destruct (mi_type ti) as [t|] eqn:Et; [|discriminate].
      apply String.eqb_eq in Hty. subst t.
      destruct (Py.truthy c) eqn:Ec.
      * destruct (validate_field_values c fd data schema) as [v|e]; simpl;
          [|discriminate].
        apply Hstep. split; [reflexivity|]. left.
        split; [reflexivity|]. split; [reflexivity|].
        exists c, ti. repeat split; assumption.
      * apply Hstep. split; [reflexivity|]. right. repeat split.
    + apply Hstep. split; [reflexivity|]. right. repeat split.
Qed.

Lemma mapping_score_bounds mapping schema_fields :
  75 <= mapping_score mapping schema_fields
  /\ mapping_score mapping schema_fields <= 100.
Proof.
  unfold mapping_score.
  destruct (nodup string_dec (Py.keys schema_fields)) as [|t ts].
  - split; unfold Qle; simpl; lia.
  - unfold Qmax.
    destruct (Qlt_bool _ 75) eqn:E.
    + split; unfold Qle; simpl; lia.
    + apply Qlt_bool_false_iff in E. split; [exact E|].
      apply percentage_le_100. apply count_true_le.
Qed.

(** X23: with a stored mapping that is not empty, [validate_data] runs
    no matching: the reported score lies between 75 and 100, and the
    returned matches hold exactly one entry per field of the returned
    schema, each a manual match with score 100 bound to a column the
    mapping gives that field, or an entry without a column and score
    0. *)
Theorem validate_data_uses_stored_mapping
        schemas mapping column_info columns data out :
  mapping <> [] ->
  validate_data schemas (Some mapping) column_info columns data = Ok out ->
  75 <= ar_match_score (out_validation_results out)
  /\ ar_match_score (out_validation_results out) <= 100
  /\ (forall field_name,
        In field_name (Py.keys (schema_fields_of (out_schema out)))
        <-> In field_name (Py.keys (out_field_matches out)))
  /\ forall field_name m,
       Py.get (out_field_matches out) field_name = Some m ->
       mapping_entry mapping field_name m.
Proof.
  intros Hne. unfold validate_data.
  destruct schemas as [|[first_name first_schema] rest] eqn:Es; [discriminate|].
  rewrite <- Es.
  destruct mapping as [|entry others] eqn:Emap; [contradiction|].
  rewrite <- Emap.
  set (best_schema :=
         if name_truthy (schema_of_mapping schemas mapping None)
         then match schema_of_mapping schemas mapping None with
              | Some n => n
              | None => first_name
              end
         else first_name).
  cbv zeta.
  destruct (manual_matches mapping data
              (Py.get_default schemas best_schema first_schema)
              (schema_fields_of
                 (Py.get_default schemas best_schema first_schema)) [])
    as [bm|e] eqn:Emm; simpl; [|discriminate].
  destruct (validate_rows data 0 _ bm) as [rvs|e]; simpl; [|discriminate].
  intros H. injection H as <-. simpl.
  apply manual_matches_spec in Emm as (H1 & H2 & H3); [|intros k m; discriminate].
  destruct (mapping_score_bounds mapping
              (schema_fields_of
                 (Py.get_default schemas best_schema first_schema)))
    as [Hlo Hhi].
  split; [exact Hlo|]. split; [exact Hhi|]. split; [|exact H1].
  intros f. split.
  - intros Hf. apply H2. now left.
  - intros Hf. apply H3 in Hf as [Hf|[]]. exact Hf.
Qed.

Lemma validate_data_uses_stored_mapping_witness :
  exists out,
    validate_data two_schemas (Some register_mapping) [column "ID"] ["ID"]
      register_rows = Ok out
    /\ 75 <= ar_match_score (out_validation_results out)
    /\ ar_match_score (out_validation_results out) <= 100
    /\ (forall field_name,
          In field_name (Py.keys (schema_fields_of (out_schema out)))
          <-> In field_name (Py.keys (out_field_matches out)))
    /\ forall field_name m,
         Py.get (out_field_matches out) field_name = Some m ->
         mapping_entry register_mapping field_name m.
Proof.
  eexists. split; [vm_compute; reflexivity|].
  eapply (validate_data_uses_stored_mapping two_schemas register_mapping
            [column "ID"] ["ID"] register_rows).
  - discriminate.
  - vm_compute. reflexivity.
Defined.


(* ================================================================= *)
(** ** The importer's helpers *)

Lemma replace_by_nothing c s :
  Py.chars (Py.replace c EmptyString s)
  = filter (fun a => negb (Ascii.eqb a c)) (Py.chars s).
Proof.
  unfold Py.chars. induction s as [|a s IH]; simpl; [reflexivity|].
  destruct (Ascii.eqb a c); simpl; [exact IH|now rewrite IH].
Qed.

Lemma filter_twice {A} (p q : A -> bool) l :
  filter p (filter q l) = filter (fun x => andb (q x) (p x)) l.
Proof.
  induction l as [|a l IH]; simpl; [reflexivity|].
  destruct (q a); simpl; [destruct (p a); now rewrite IH|exact IH].
Qed.

Lemma chars_inj s t : Py.chars s = Py.chars t -> s = t.
Proof.
  unfold Py.chars. intros H.
  rewrite <- (string_of_list_ascii_of_string s),
          <- (string_of_list_ascii_of_string t).
  now rewrite H.
Qed.

Lemma sanitize_chars name :
  Py.chars (sanitize_column_name name)
  = filter (fun c => negb (is_unsafe c)) (Py.chars name).
Proof.
  unfold sanitize_column_name. rewrite !replace_by_nothing, !filter_twice.
  apply filter_ext. intros a. unfold is_unsafe.
  destruct (Ascii.eqb a double_quote), (Ascii.eqb a "'"%char),
           (Ascii.eqb a ";"%char); reflexivity.
Qed.

(** X24: [sanitize_column_name] returns the name without its double
    quotes, single quotes and semicolons, every other character kept in
    place; so the result holds none of the three, and sanitising twice
    changes nothing more. *)
Theorem sanitize_column_name_removes name :
  Py.chars (sanitize_column_name name)
  = filter (fun c => negb (is_unsafe c)) (Py.chars name)
  /\ (forall c, In c (Py.chars (sanitize_column_name name)) ->
                is_unsafe c = false)
  /\ sanitize_column_name (sanitize_column_name name)
     = sanitize_column_name name.
Proof.
  split; [apply sanitize_chars|]. split.
  - intros c Hc. rewrite sanitize_chars in Hc.
    apply filter_In in Hc as [_ Hc]. now apply negb_true_iff in Hc.
  - apply chars_inj. rewrite !sanitize_chars, filter_twice.
    apply filter_ext. intros a. now rewrite andb_diag.
Qed.

Lemma firstn_subset {A} n (l : list A) x : In x (firstn n l) -> In x l.
Proof.
  revert l. induction n as [|n IH]; intros [|a l]; simpl; try tauto.
  intros [H|H]; [now left|right; now apply IH].
Qed.

Lemma get_column_info_lookup data columns :
  forall column_info c,
    Py.get (get_column_info columns data column_info) c
    = if in_dec string_dec c columns then Some (column_profile c data)
      else Py.get column_info c.
Proof.
  induction columns as [|col rest IH]; intros acc c; simpl; [reflexivity|].
  rewrite IH.
  destruct (in_dec string_dec c rest) as [Hin|Hnot].
  - destruct (string_dec col c); [reflexivity|].
    destruct (in_dec string_dec c rest); [reflexivity|contradiction].
  - destruct (string_dec col c) as [->|Hne].
    + apply get_set_same.
    + destruct (in_dec string_dec c rest); [contradiction|].
      now apply get_set_other.
Qed.

(** X25: [get_column_info] profiles every column of the table and
    nothing else, and each profile is coherent: it carries the column's
    name, the non-empty count is at most the count, which is at most the
    number of rows, the fill rate lies within [0, 100] and is 100
    exactly when there are values and none is empty, and the samples are
    non-empty values, five at most. *)
Theorem get_column_info_profile columns data c :
  In c columns ->
  (forall k, In k (Py.keys (get_column_info columns data [])) -> In k columns)
  /\ exists info,
       Py.get (get_column_info columns data []) c = Some info
       /\ ci_name info = c
       /\ (ci_non_empty info <= ci_count info)%nat
       /\ (ci_count info <= List.length data)%nat
       /\ 0 <= ci_fill_rate info /\ ci_fill_rate info <= 100
       /\ (ci_fill_rate info == 100
           <-> (0 < ci_count info)%nat /\ ci_non_empty info = ci_count info)
       /\ List.length (ci_sample_values info) = Nat.min 5 (ci_non_empty info)
       /\ Forall (fun v => Py.truthy v = true) (ci_sample_values info).
Proof.
  intros Hc. split.
  - intros k Hk. apply get_some_iff_key in Hk as [v Hv].
    rewrite get_column_info_lookup in Hv.
    destruct (in_dec string_dec k columns); [assumption|discriminate].
  - exists (column_profile c data). rewrite get_column_info_lookup.
    destruct (in_dec string_dec c columns); [|contradiction].
    split; [reflexivity|]. unfold column_profile. cbn [ci_name ci_non_empty
      ci_count ci_fill_rate ci_sample_values].
    set (values := map (fun row => Py.get_default row c "")
                       (filter (fun row => Py.contains row c) data)).
    assert (Hne : (List.length (filter Py.truthy values)
                   <= List.length values)%nat) by apply filter_length_le.
    split; [reflexivity|]. split; [exact Hne|]. split.
    { unfold values. rewrite length_map. apply filter_length_le. }
    split; [apply percentage_nonneg|].
    split.
    { destruct (List.length values) eqn:El.
      - unfold percentage. unfold Qle; simpl; lia.
      - apply percentage_le_100. lia. }
    split.
    { destruct (List.length values) as [|n] eqn:El.
      - unfold percentage. split.
        + intros H. unfold Qeq in H. simpl in H. lia.
        + intros [H _]. lia.
      - rewrite percentage_100_iff by lia. split.
        + intros H. split; [lia|exact H].
        + intros [_ H]. exact H. }
    split; [apply length_firstn|].
    apply Forall_forall. intros v Hv. apply firstn_subset in Hv.
    now apply filter_In in Hv.
Qed.

Lemma get_column_info_profile_witness :
  (forall k, In k (Py.keys (get_column_info table_columns table_rows [])) ->
             In k table_columns)
  /\ exists info,
       Py.get (get_column_info table_columns table_rows []) "NOTES" = Some info
       /\ ci_name info = "NOTES"
       /\ (ci_non_empty info <= ci_count info)%nat
       /\ (ci_count info <= List.length table_rows)%nat
       /\ 0 <= ci_fill_rate info /\ ci_fill_rate info <= 100
       /\ (ci_fill_rate info == 100
           <-> (0 < ci_count info)%nat /\ ci_non_empty info = ci_count info)
       /\ List.length (ci_sample_values info) = Nat.min 5 (ci_non_empty info)
       /\ Forall (fun v => Py.truthy v = true) (ci_sample_values info).
Proof.
  apply (get_column_info_profile table_columns table_rows "NOTES").
  simpl. tauto.
Defined.

(* ================================================================= *)
(** ** The field mapper *)

(** X26: the two lookups of a mapping invert each other: the column
    found for a field is mapped to that field, and the field a column is
    mapped to has a column, itself mapped to the field. *)
Theorem mapping_lookups_round_trip mapping :
  NoDup (Py.keys mapping) ->
  (forall field_name column,
     get_column_for_field mapping field_name = Some column ->
     get_field_for_column mapping column = Some field_name)
  /\ (forall column field_name,
        get_field_for_column mapping column = Some field_name ->
        exists column',
          get_column_for_field mapping field_name = Some column'
          /\ get_field_for_column mapping column' = Some field_name).
Proof.
  intros Hnd.
  assert (Hfwd : forall field_name column,
     get_column_for_field mapping field_name = Some column ->
     get_field_for_column mapping column = Some field_name).
  { intros f c. unfold get_column_for_field, get_field_for_column.
    destruct (find (type_is f) mapping) as [[c' ti]|] eqn:Ef; [|discriminate].
    intros H. injection H as ->.
    apply find_some in Ef as [Hin Hty].
    rewrite (get_nodup_in mapping c ti Hnd Hin).
    unfold type_is in Hty. simpl in Hty.
    destruct (mi_type ti) as [t|]; [|discriminate].
    apply String.eqb_eq in Hty. now subst. }
  split; [exact Hfwd|].
  intros c f Hf.
  assert (Hex : exists c', get_column_for_field mapping f = Some c').
  { unfold get_field_for_column in Hf. unfold get_column_for_field.
    destruct (Py.get mapping c) as [ti|] eqn:Eg; [|discriminate].
    apply get_in in Eg.
    destruct (find (type_is f) mapping) as [[c' ti']|] eqn:Ef;
      [now exists c'|].
    exfalso. apply (find_none _ _ Ef) in Eg. unfold type_is in Eg.
    simpl in Eg. rewrite Hf, String.eqb_refl in Eg. discriminate. }
  destruct Hex as [c' Hc']. exists c'. split; [exact Hc'|now apply Hfwd].
Qed.

Lemma mapping_lookups_round_trip_witness :
  (forall field_name column,
     get_column_for_field register_mapping field_name = Some column ->
     get_field_for_column register_mapping column = Some field_name)
  /\ (forall column field_name,
        get_field_for_column register_mapping column = Some field_name ->
        exists column',
          get_column_for_field register_mapping field_name = Some column'
          /\ get_field_for_column register_mapping column' = Some field_name).
Proof.
  apply (mapping_lookups_round_trip register_mapping).
  repeat constructor. simpl. tauto.
Defined.

Lemma types_of_set mapping k e :
  types_of (Py.set mapping k e) = Py.set (types_of mapping) k (me_type e).
Proof.
  unfold types_of. induction mapping as [|[k0 e0] d IH]; simpl; [reflexivity|].
  destruct (String.eqb k k0); simpl; [reflexivity|now rewrite IH].
Qed.

(** The generated mapping sends every column to the field
    [validate_row] sends it to. *)
Lemma mapping_of_matches_types schema_fields field_matches :
  forall mapping,
    types_of (mapping_of_matches field_matches schema_fields mapping)
    = column_to_field_of field_matches (types_of mapping).
Proof.
  induction field_matches as [|[f m] rest IH]; intros mapping; simpl;
    [reflexivity|].
  destruct (fm_column m) as [c|]; [|apply IH].
  destruct (Py.truthy c); [|apply IH].
  rewrite IH, types_of_set. reflexivity.
Qed.

Lemma found_is_mapped mapping field_name :
  existsb (fun ce => String.eqb (me_type (snd ce)) field_name) mapping
  = field_is_mapped (types_of mapping) field_name.
Proof.
  unfold field_is_mapped, types_of.
  induction mapping as [|[c e] d IH]; simpl; [reflexivity|now rewrite IH].
Qed.

Lemma missing_required_of_spec mapping schema_fields :
  forall missing,
    missing_required_of schema_fields mapping missing
    = missing
      ++ map fst
           (filter (fun kv =>
                      andb (required_of (snd kv))
                           (negb (field_is_mapped (types_of mapping) (fst kv))))
              schema_fields).
Proof.
  induction schema_fields as [|[f fd] rest IH]; intros missing; simpl.
  - now rewrite app_nil_r.
  - rewrite found_is_mapped.
    destruct (required_of fd); simpl; [|apply IH].
    destruct (field_is_mapped (types_of mapping) f); simpl; [apply IH|].
    rewrite IH, <- app_assoc. reflexivity.
Qed.

Lemma missing_without_domicile column_to_field schema_fields :
  filter (fun f => negb (String.eqb f "DOMICILE_CODE"))
    (map fst
       (filter (fun kv =>
                  andb (required_of (snd kv))
                       (negb (field_is_mapped column_to_field (fst kv))))
          schema_fields))
  = reported_missing schema_fields column_to_field.
Proof.
  unfold reported_missing.
  induction schema_fields as [|[f fd] rest IH]; simpl; [reflexivity|].
  destruct (required_of fd), (field_is_mapped column_to_field f),
           (String.eqb f "DOMICILE_CODE") eqn:E; simpl;
    rewrite ?E; simpl; rewrite IH; reflexivity.
Qed.

(** X27: the mapping [generate_mapping_file] builds from the field
    matches sends every column to the field [validate_row] checks it
    against, and the required fields it lists as missing are, apart from
    DOMICILE_CODE, the ones [validate_row] reports as MISSING_COLUMN. *)
Theorem generated_mapping_agrees_with_validate_row field_matches schema_fields :
  let mapping := mapping_of_matches field_matches schema_fields [] in
  types_of mapping = column_to_field_of field_matches []
  /\ filter (fun f => negb (String.eqb f "DOMICILE_CODE"))
       (missing_required_of schema_fields mapping [])
     = reported_missing schema_fields (column_to_field_of field_matches []).
Proof.
  intros mapping.
  assert (Hty : types_of mapping = column_to_field_of field_matches []).
  { unfold mapping. now rewrite mapping_of_matches_types. }
  split; [exact Hty|].
  rewrite missing_required_of_spec, Hty. simpl.
  apply missing_without_domicile.
Qed.


Lemma set_keys_nodup {V} (d : dict V) k v :
  NoDup (Py.keys d) -> NoDup (Py.keys (Py.set d k v)).
Proof.
  induction d as [|[k0 v0] d IH]; simpl; intros Hnd.
  - repeat constructor. intros [].
  - inversion Hnd as [|? ? Hk Hnd']; subst.
    destruct (String.eqb k k0) eqn:E; simpl; [now constructor|].
    constructor; [|now apply IH].
    intros Hin. apply keys_set in Hin as [Hin|Hin]; [contradiction|].
    subst. rewrite String.eqb_refl in E. discriminate.
Qed.

Lemma record_match_nodup_keys st key m :
  NoDup (Py.keys (field_matches st)) ->
  NoDup (Py.keys (field_matches (record_match st key m))).
Proof.
  unfold record_match. destruct (is_hit m); simpl; apply set_keys_nodup.
Qed.

Section DistinctKeys.

Variable column_info : dict ColumnInfo.
Variable data : list Row.
Variable schema : Schema.

Lemma first_pass_nodup_keys fields :
  forall st st',
    first_pass column_info data schema fields st = Ok st' ->
    NoDup (Py.keys (field_matches st)) -> NoDup (Py.keys (field_matches st')).
Proof.
  induction fields as [|[f fd] rest IH]; intros st st'; simpl.
  - intros H. injection H as <-. auto.
  - destruct (1 <? max_matches_of fd)%Z; [apply IH|].
    destruct (find_best_column_match f fd column_info data schema
                (matched_columns st)) as [m|e]; simpl; [|discriminate].
    intros H Hk. eapply IH; [exact H|]. now apply record_match_nodup_keys.
Qed.

Lemma additional_matches_nodup_keys f fd fuel :
  forall found st st',
    additional_matches column_info data schema f fd fuel found st = Ok st' ->
    NoDup (Py.keys (field_matches st)) -> NoDup (Py.keys (field_matches st')).
Proof.
  induction fuel as [|fuel IH]; intros found st st'; simpl.
  - intros H. injection H as <-. auto.
  - destruct (find_best_column_match f fd column_info data schema
                (matched_columns st)) as [m|e]; simpl; [|discriminate].
    destruct (is_hit m).
    + intros H Hk. eapply IH; [exact H|]. now apply record_match_nodup_keys.
    + intros H. injection H as <-. auto.
Qed.

Lemma second_pass_nodup_keys fields :
  forall st st',
    second_pass column_info data schema fields st = Ok st' ->
    NoDup (Py.keys (field_matches st)) -> NoDup (Py.keys (field_matches st')).
Proof.
  induction fields as [|[f fd] rest IH]; intros st st'; simpl.
  - intros H. injection H as <-. auto.
  - destruct (max_matches_of fd <=? 1)%Z; [apply IH|].
    destruct (has_primary st f).
    + simpl.
      destruct (additional_matches column_info data schema f fd _ 1 st)
        as [st2|e] eqn:Ea; simpl; [|discriminate].
      intros H Hk. eapply IH; [exact H|].
      eapply additional_matches_nodup_keys; eassumption.
    + destruct (find_best_column_match f fd column_info data schema
                  (matched_columns st)) as [m|e]; simpl; [|discriminate].
      destruct (additional_matches column_info data schema f fd _ _ _)
        as [st2|e] eqn:Ea; simpl; [|discriminate].
      intros H Hk. eapply IH; [exact H|].
      eapply additional_matches_nodup_keys; [exact Ea|].
      now apply record_match_nodup_keys.
Qed.

End DistinctKeys.

Lemma match_schema_nodup_keys schema column_info data score fm :
  match_schema schema column_info data = Ok (score, fm) ->
  NoDup (Py.keys fm).
Proof.
  unfold match_schema.
  destruct (s_schema schema) as [fields|].
  - destruct (first_pass column_info data schema fields (mkState 0 [] []))
      as [st1|e] eqn:E1; simpl; [|discriminate].
    destruct (second_pass column_info data schema fields st1)
      as [st2|e] eqn:E2; simpl; [|discriminate].
    intros H. injection H as _ <-.
    eapply second_pass_nodup_keys; [exact E2|].
    eapply first_pass_nodup_keys; [exact E1|]. constructor.
  - intros H. injection H as _ <-. constructor.
Qed.

Lemma match_schema_has_entries schema column_info data score fm field_name :
  match_schema schema column_info data = Ok (score, fm) ->
  In field_name (Py.keys (schema_fields_of schema)) ->
  exists m, Py.get fm field_name = Some m.
Proof.
  unfold match_schema, schema_fields_of.
  destruct (s_schema schema) as [fields|]; [|intros _ []].
  destruct (first_pass column_info data schema fields (mkState 0 [] []))
    as [st1|e] eqn:E1; simpl; [|discriminate].
  destruct (second_pass column_info data schema fields st1)
    as [st2|e] eqn:E2; simpl; [|discriminate].
  intros H Hin. injection H as _ <-. apply get_some_iff_key.
  destruct (second_pass_keys_grow _ _ _ _ _ _ E2) as [Hkeep Hadd].
  unfold Py.keys in Hin. apply in_map_iff in Hin as [[f fd] [<- Hin]].
  simpl. destruct (Z.le_gt_cases (max_matches_of fd) 1) as [Hle|Hgt].
  - apply Hkeep. eapply first_pass_adds_keys; eassumption.
  - eapply Hadd; [exact Hin|lia].
Qed.

Lemma in_set_entry {V} (d : dict V) k v k' v' :
  In (k', v') (Py.set d k v) -> In (k', v') d \/ (k' = k /\ v' = v).
Proof.
  induction d as [|[k0 v0] d IH]; simpl.
  - intros [H|[]]. injection H as <- <-. now right.
  - destruct (String.eqb k k0) eqn:E; simpl.
    + apply String.eqb_eq in E. subst k0.
      intros [H|H]; [injection H as <- <-; now right|left; now right].
    + intros [H|H]; [left; now left|].
      apply IH in H as [H|H]; [left; now right|now right].
Qed.

(** Every pair of the reverse mapping comes from an entry that binds the
    column. *)
Lemma column_to_field_in fm :
  forall acc c f,
    In (c, f) (column_to_field_of fm acc) ->
    In (c, f) acc
    \/ exists m, In (f, m) fm /\ fm_column m = Some c /\ Py.truthy c = true.
Proof.
  induction fm as [|[k m] rest IH]; intros acc c f H; simpl in H;
    [now left|].
  assert (Hrest :
    (exists m0, In (f, m0) rest /\ fm_column m0 = Some c
                /\ Py.truthy c = true) ->
    exists m0, In (f, m0) ((k, m) :: rest) /\ fm_column m0 = Some c
               /\ Py.truthy c = true).
  { intros (m0 & Hin & Hc). exists m0. split; [now right|exact Hc]. }
  destruct (fm_column m) as [c0|] eqn:Ec.
  - destruct (Py.truthy c0) eqn:Et.
    + apply IH in H as [H|H]; [|right; now apply Hrest].
      apply in_set_entry in H as [H|[-> ->]]; [now left|].
      right. exists m. split; [now left|]. now split.
    + apply IH in H as [H|H]; [now left|right; now apply Hrest].
  - apply IH in H as [H|H]; [now left|right; now apply Hrest].
Qed.

Lemma stored_mapping_in mapping c ti :
  In (c, ti) (stored_mapping mapping) ->
  exists t, mi_type ti = Some t /\ In (c, t) (types_of mapping).
Proof.
  unfold stored_mapping, types_of. intros H.
  apply in_map_iff in H as [[c0 e] [E Hin]]. simpl in E.
  injection E as -> <-. exists (me_type e). split; [reflexivity|].
  apply in_map_iff. now exists (c, e).
Qed.

Lemma types_of_in_stored mapping c t :
  In (c, t) (types_of mapping) ->
  In (c, mkMappingInfo (Some t)) (stored_mapping mapping).
Proof.
  unfold stored_mapping, types_of. intros H.
  apply in_map_iff in H as [[c0 e] [E Hin]]. simpl in E.
  injection E as -> <-. apply in_map_iff. now exists (c, e).
Qed.

(** The column a generated mapping, read back, gives a field: the column
    the field's own entry binds. *)
Lemma stored_column_of_field fm schema_fields field_name m0 :
  NoDup (Py.keys fm) -> NoDup (claimed_columns fm) ->
  Py.get fm field_name = Some m0 ->
  get_column_for_field
    (stored_mapping (mapping_of_matches fm schema_fields [])) field_name
  = if column_truthy (fm_column m0) then fm_column m0 else None.
Proof.
  intros Hkeys Hcols Hget.
  set (mapping := mapping_of_matches fm schema_fields []).
  assert (Hty : types_of mapping = column_to_field_of fm []).
  { unfold mapping. now rewrite mapping_of_matches_types. }
  assert (Hown : forall c ti,
            In (c, ti) (stored_mapping mapping) ->
            type_is field_name (c, ti) = true ->
            fm_column m0 = Some c /\ Py.truthy c = true).
  { intros c ti Hin Hti.
    apply stored_mapping_in in Hin as (t & Et & Hin).
    unfold type_is in Hti. simpl in Hti. rewrite Et in Hti.
    apply String.eqb_eq in Hti. subst t. rewrite Hty in Hin.
    apply column_to_field_in in Hin as [[]|(m & Hm & Hc & Ht)].
    apply (get_nodup_in fm field_name m Hkeys) in Hm.
    rewrite Hget in Hm. injection Hm as <-. now split. }
  unfold get_column_for_field.
  destruct (find (type_is field_name) (stored_mapping mapping))
    as [[c ti]|] eqn:Ef.
  - apply find_some in Ef as [Hin Hti].
    destruct (Hown c ti Hin Hti) as [Hc Ht]. rewrite Hc. simpl. now rewrite Ht.
  - destruct (fm_column m0) as [c|] eqn:Ec; [|reflexivity]. simpl.
    destruct (Py.truthy c) eqn:Et; [|reflexivity]. exfalso.
    assert (Hin : In (c, field_name) (types_of mapping)).
    { rewrite Hty. apply get_in.
      eapply column_to_field_binds;
        [exact Hcols|apply get_in; exact Hget|exact Ec|exact Et]. }
    apply types_of_in_stored in Hin.
    apply (find_none _ _ Ef) in Hin. unfold type_is in Hin. simpl in Hin.
    rewrite String.eqb_refl in Hin. discriminate.
Qed.

Lemma manual_matches_lookup mapping data schema fields :
  forall acc best_matches,
    manual_matches mapping data schema fields acc = Ok best_matches ->
    forall f,
      In f (Py.keys fields)
      \/ (exists m, Py.get acc f = Some m /\ manual_entry_of mapping f m) ->
      exists m, Py.get best_matches f = Some m /\ manual_entry_of mapping f m.
Proof.
  induction fields as [|[f0 fd0] rest IH]; intros acc bm; simpl.
  - intros H f [[]|Hf]. injection H as <-. exact Hf.
  - assert (Hstep : forall m0,
              manual_entry_of mapping f0 m0 ->
              manual_matches mapping data schema rest (Py.set acc f0 m0) = Ok bm ->
              forall f,
                (f0 = f \/ In f (Py.keys rest))
                \/ (exists m, Py.get acc f = Some m
                              /\ manual_entry_of mapping f m) ->
                exists m, Py.get bm f = Some m /\ manual_entry_of mapping f m).
    { intros m0 Hm0 H f Hf. apply (IH _ _ H).
      destruct (string_dec f0 f) as [<-|Hne].
      - right. exists m0. split; [apply get_set_same|exact Hm0].
      - destruct Hf as [[Hf|Hf]|(m & Hg & Hm)]; [contradiction|now left|].
        right. exists m. split; [|exact Hm].
        now rewrite get_set_other. }
    unfold manual_entry_of at 1 in Hstep. unfold get_column_for_field in Hstep.
    change (fun ct : string * MappingInfo =>
              match mi_type (snd ct) with
              | Some t => String.eqb t f0
              | None => false
              end) with (type_is f0).
    destruct (find (type_is f0) mapping) as [[c ti]|].
    + destruct (Py.truthy c).
      * destruct (validate_field_values c fd0 data schema) as [v|e]; simpl;
          [|discriminate].
        apply Hstep. now split.
      * apply Hstep. now split.
    + apply Hstep. now split.
Qed.

(** The manual matches derived from a generated mapping, under the
    schema it was generated for. *)
Lemma manual_matches_of_generated_mapping
      schema column_info data score fm rows best_matches field_name :
  match_schema schema column_info data = Ok (score, fm) ->
  manual_matches
    (stored_mapping (mapping_of_matches fm (schema_fields_of schema) []))
    rows schema (schema_fields_of schema) [] = Ok best_matches ->
  In field_name (Py.keys (schema_fields_of schema)) ->
  exists m0 m,
    Py.get fm field_name = Some m0
    /\ Py.get best_matches field_name = Some m
    /\ if column_truthy (fm_column m0)
       then fm_column m = fm_column m0 /\ fm_match_type m = "manual_mapping"
       else fm_column m = None /\ fm_match_type m = "not_mapped".
Proof.
  intros Hms Hmm Hf.
  destruct (match_schema_has_entries _ _ _ _ _ _ Hms Hf) as [m0 Hm0].
  destruct (manual_matches_lookup _ _ _ _ _ _ Hmm field_name (or_introl Hf))
    as (m & Hm & Hentry).
  exists m0, m. split; [exact Hm0|]. split; [exact Hm|].
  unfold manual_entry_of in Hentry.
  rewrite (stored_column_of_field fm (schema_fields_of schema) field_name m0
             (match_schema_nodup_keys _ _ _ _ _ Hms)
             (match_schema_nodup _ _ _ _ _ Hms) Hm0) in Hentry.
  destruct (fm_column m0) as [c|]; simpl in *; [|exact Hentry].
  destruct (Py.truthy c) eqn:Et; [|exact Hentry].
  rewrite Et in Hentry. exact Hentry.
Qed.

(** The schema [validate_data] picks for a stored mapping: when only one
    loaded schema defines the types the mapping names, and it defines
    one of them, that schema is picked. *)
Lemma schema_of_mapping_selects schemas name schema mapping :
  In (name, schema) schemas -> Py.truthy name = true ->
  (forall c ti other_name other,
     In (c, ti) mapping -> In (other_name, other) schemas ->
     other_name <> name ->
     Py.contains (schema_fields_of other) (mapping_type_of ti) = false) ->
  (exists c ti, In (c, ti) mapping
                /\ Py.contains (schema_fields_of schema) (mapping_type_of ti)
                   = true) ->
  schema_of_mapping schemas mapping None = Some name.
Proof.
  intros Hin Hname.
  induction mapping as [|[c ti] rest IH]; intros Hother Hsome.
  - destruct Hsome as (c & ti & [] & _).
  - cbn [schema_of_mapping].
    destruct (find (fun ns => Py.contains (schema_fields_of (snd ns))
                                (mapping_type_of ti)) schemas)
      as [[s_name s]|] eqn:Ef.
    + apply find_some in Ef as [Hs Hc]. simpl in Hc.
      destruct (string_dec s_name name) as [->|Hne].
      * simpl. now rewrite Hname.
      * rewrite (Hother c ti s_name s (or_introl eq_refl) Hs Hne) in Hc.
        discriminate.
    + simpl. apply IH.
      * intros c' ti' on o Hin'. apply (Hother c' ti' on o). now right.
      * destruct Hsome as (c' & ti' & [E|Hin'] & Hc'); [|now exists c', ti'].
        injection E as <- <-.
        apply (find_none _ _ Ef) in Hin. simpl in Hin. congruence.
Qed.

Lemma stored_mapping_keys fm schema_fields c ti :
  In (c, ti) (stored_mapping (mapping_of_matches fm schema_fields [])) ->
  exists f m, mi_type ti = Some f /\ In (f, m) fm
              /\ fm_column m = Some c /\ Py.truthy c = true.
Proof.
  intros H. apply stored_mapping_in in H as (t & Et & Hin).
  rewrite mapping_of_matches_types in Hin. simpl in Hin.
  apply column_to_field_in in Hin as [[]|(m & Hm & Hc & Ht)].
  now exists t, m.
Qed.

(** X28: a mapping generated from the matches of [match_schema] under
    one of the loaded schemas, stored and read back by [validate_data],
    reproduces the bindings, provided the schema can be told from the
    mapping: no other loaded schema defines a name of the match map, and
    some field of the schema is bound.  Then [validate_data] returns that
    schema, and its manual matches bind every field of the schema to the
    column its own match bound, and leave a field without a column
    unmapped. *)
Theorem generated_mapping_round_trip
        schemas name schema column_info data score fm
        stored_info columns rows out :
  NoDup (Py.keys schemas) ->
  In (name, schema) schemas -> Py.truthy name = true ->
  match_schema schema column_info data = Ok (score, fm) ->
  (forall other_name other k,
     In (other_name, other) schemas -> other_name <> name ->
     In k (Py.keys fm) ->
     Py.contains (schema_fields_of other) k = false) ->
  (exists f, In f (Py.keys (schema_fields_of schema))
             /\ has_column fm f = true) ->
  validate_data schemas
    (Some (stored_mapping
             (mapping_of_matches fm (schema_fields_of schema) [])))
    stored_info columns rows = Ok out ->
  ar_schema_name (out_validation_results out) = name
  /\ out_schema out = schema
  /\ forall field_name,
       In field_name (Py.keys (schema_fields_of schema)) ->
       exists m0 m,
         Py.get fm field_name = Some m0
         /\ Py.get (out_field_matches out) field_name = Some m
         /\ if column_truthy (fm_column m0)
            then fm_column m = fm_column m0
                 /\ fm_match_type m = "manual_mapping"
            else fm_column m = None /\ fm_match_type m = "not_mapped".
Proof.
  intros Hnd Hin Hname Hms Hother (f & Hf & Hcol).
  set (mapping := stored_mapping
                    (mapping_of_matches fm (schema_fields_of schema) [])).
  assert (Hbound : exists c ti,
            In (c, ti) mapping
            /\ Py.contains (schema_fields_of schema) (mapping_type_of ti)
               = true).
  { unfold has_column in Hcol.
    destruct (Py.get fm f) as [m|] eqn:Eg; [|discriminate].
    destruct (fm_column m) as [c|] eqn:Ec; [|discriminate]. simpl in Hcol.
    exists c, (mkMappingInfo (Some f)). split.
    - apply types_of_in_stored. rewrite mapping_of_matches_types. simpl.
      apply get_in.
      eapply column_to_field_binds;
        [eapply match_schema_nodup; exact Hms|apply get_in; exact Eg
        |exact Ec|exact Hcol].
    - unfold mapping_type_of, Py.contains. simpl.
      apply get_some_iff_key in Hf as [fd ->]. reflexivity. }
  assert (Hsel : schema_of_mapping schemas mapping None = Some name).
  { apply (schema_of_mapping_selects schemas name schema mapping Hin Hname);
      [|exact Hbound].
    intros c ti on o Hc Ho Hne.
    apply stored_mapping_keys in Hc as (t & m & Et & Hm & _).
    unfold mapping_type_of. rewrite Et. apply (Hother on o t Ho Hne).
    apply in_map_iff. now exists (t, m). }
  unfold validate_data.
  destruct schemas as [|[first_name first_schema] rest] eqn:Es; [destruct Hin|].
  rewrite <- Es in *.
  destruct mapping as [|entry others] eqn:Emap;
    [destruct Hbound as (c & ti & [] & _)|].
  rewrite <- Emap in *. rewrite Hsel. cbv zeta. simpl name_truthy.
  rewrite Hname.
  assert (Hget : Py.get_default schemas name first_schema = schema).
  { unfold Py.get_default. now rewrite (get_nodup_in schemas name schema Hnd Hin). }
  rewrite Hget.
  destruct (manual_matches mapping rows schema (schema_fields_of schema) [])
    as [bm|e] eqn:Emm; simpl; [|discriminate].
  rewrite Hget.
  destruct (validate_rows rows 0 schema bm) as [rvs|e]; simpl; [|discriminate].
  intros H. injection H as <-. simpl.
  split; [reflexivity|]. split; [reflexivity|].
  intros field_name Hfield.
  exact (manual_matches_of_generated_mapping schema column_info data score fm
           rows bm field_name Hms Emm Hfield).
Qed.

Lemma generated_mapping_round_trip_witness :
  exists fm out,
    match_schema register_schema [column "ID"] register_rows = Ok (100, fm)
    /\ validate_data two_schemas
         (Some (stored_mapping
                  (mapping_of_matches fm (schema_fields_of register_schema) [])))
         [column "ID"] ["ID"] register_rows = Ok out
    /\ ar_schema_name (out_validation_results out) = "register"
    /\ out_schema out = register_schema
    /\ forall field_name,
         In field_name (Py.keys (schema_fields_of register_schema)) ->
         exists m0 m,
           Py.get fm field_name = Some m0
           /\ Py.get (out_field_matches out) field_name = Some m
           /\ if column_truthy (fm_column m0)
              then fm_column m = fm_column m0
                   /\ fm_match_type m = "manual_mapping"
              else fm_column m = None /\ fm_match_type m = "not_mapped".
Proof.
  eexists. eexists. split; [vm_compute; reflexivity|].
  split; [vm_compute; reflexivity|].
  eapply (generated_mapping_round_trip two_schemas "register" register_schema
            [column "ID"] register_rows 100 _ [column "ID"] ["ID"]
            register_rows _).
  - repeat constructor; simpl; intuition discriminate.
  - right. now left.
  - reflexivity.
  - vm_compute. reflexivity.
  - intros on o k [E|[E|[]]] Hne [<-|[]].
    + injection E as <- <-. reflexivity.
    + injection E as <- <-. contradiction.
  - exists "ID". split; [now left|reflexivity].
  - vm_compute. reflexivity.
Defined.

(* ================================================================= *)
(** ** Separators in the typed values *)

Lemma chars_app a b : Py.chars (a ++ b) = (Py.chars a ++ Py.chars b)%list.
Proof.
  unfold Py.chars. induction a as [|c a IH]; simpl; [reflexivity|].
  now rewrite IH.
Qed.

Lemma remove_chars_separator drop a sep b :
  forallb drop (Py.chars sep) = true ->
  remove_chars drop (a ++ sep ++ b) = remove_chars drop (a ++ b).
Proof.
  intros Hsep. unfold remove_chars. rewrite !chars_app, !filter_app.
  replace (filter (fun c => negb (drop c)) (Py.chars sep)) with (@nil ascii);
    [reflexivity|].
  symmetry. induction (Py.chars sep) as [|c l IH]; [reflexivity|].
  simpl in *. apply andb_true_iff in Hsep as [-> Hl]. simpl. now apply IH.
Qed.

(** X29: the typed checks look at a value with its separators removed,
    so a run of separators inserted anywhere in a value never changes
    the verdict: whitespace and hyphens for an identity number, these
    and commas for a bank account number, whitespace for a postal code
    and for a decimal amount. *)
Theorem validators_ignore_separators a sep b :
  (forallb (fun c => orb (Py.is_space c) (is_hyphen c)) (Py.chars sep) = true ->
   validate_sa_id_number (a ++ sep ++ b) = validate_sa_id_number (a ++ b))
  /\ (forallb (fun c => orb (Py.is_space c)
                            (orb (is_hyphen c) (Ascii.eqb c ","%char)))
        (Py.chars sep) = true ->
      validate_bank_account_number (a ++ sep ++ b)
      = validate_bank_account_number (a ++ b))
  /\ (forallb Py.is_space (Py.chars sep) = true ->
      validate_postal_code (a ++ sep ++ b) = validate_postal_code (a ++ b)
      /\ validate_decimal_amount (a ++ sep ++ b)
         = validate_decimal_amount (a ++ b)).
Proof.
  split; [|split].
  - intros H. unfold validate_sa_id_number.
    now rewrite (remove_chars_separator _ a sep b H).
  - intros H. unfold validate_bank_account_number.
    now rewrite (remove_chars_separator _ a sep b H).
  - intros H. split.
    + unfold validate_postal_code.
      now rewrite (remove_chars_separator _ a sep b H).
    + unfold validate_decimal_amount.
      rewrite (remove_chars_separator _ a sep b); [reflexivity|].
      clear -H. induction (Py.chars sep) as [|c l IH]; [reflexivity|].
      simpl in *. apply andb_true_iff in H as [-> Hl].
      rewrite orb_true_r. simpl. now apply IH.
Qed.

Lemma validators_ignore_separators_witness :
  validate_sa_id_number ("800101" ++ "-" ++ "5009087")
  = validate_sa_id_number ("800101" ++ "5009087")
  /\ validate_bank_account_number ("6212" ++ ", " ++ "3456")
     = validate_bank_account_number ("6212" ++ "3456")
  /\ validate_postal_code ("80" ++ " " ++ "01") = validate_postal_code ("80" ++ "01")
  /\ validate_decimal_amount ("1" ++ " " ++ "250.50")
     = validate_decimal_amount ("1" ++ "250.50").
Proof.
  split; [|split].
  - destruct (validators_ignore_separators "800101" "-" "5009087")
      as (H & _ & _). apply H. reflexivity.
  - destruct (validators_ignore_separators "6212" ", " "3456")
      as (_ & H & _). apply H. reflexivity.
  - split.
    + destruct (validators_ignore_separators "80" " " "01") as (_ & _ & H).
      apply H. reflexivity.
    + destruct (validators_ignore_separators "1" " " "250.50") as (_ & _ & H).
      apply H. reflexivity.
Defined.


(* ================================================================= *)
(** ** A column without a name *)

(** C4: no column should be bound by two fields with a single match
    each; on a table with a column whose name is empty, the two identity
    fields (both with [max_matches = 1]) are each given that column: the
    truthiness test that records a claim takes the empty name for no
    column, so the column is never marked as matched. *)
Theorem match_schema_binds_unnamed_column_twice :
  exists score fm owner partner,
    match_schema unnamed_schema unnamed_columns unnamed_rows = Ok (score, fm)
    /\ Py.keys fm = ["OWNER_ID"; "PARTNER_ID"]
    /\ max_matches_of first_id_field = 1%Z
    /\ Py.get fm "OWNER_ID" = Some owner
    /\ Py.get fm "PARTNER_ID" = Some partner
    /\ fm_column owner = Some ""
    /\ fm_column partner = Some ""
    /\ fm_match_type owner = "content_validation"
    /\ fm_match_type partner = "content_validation"
    /\ claimed_columns fm = [].
Proof.
  eexists. eexists. eexists. eexists.
  split; [vm_compute; reflexivity|].
  repeat split; reflexivity.
Qed.
